(** * Media.py: RTP packet codec, payload streams, SDP answer handling and
    the pacing loop of the media worker, embedded in Rocq.

    Python objects are modelled with explicit state passing; an exception is
    a [Raise] result that keeps the state as mutated so far.  Python floats
    (periods, clock readings) are IEEE 754 binary64 numbers, with the
    arithmetic the Standard Library specifies for them. *)

From Stdlib Require Import ZArith Floats.SpecFloat Strings.Byte.
From stdpp Require Import base option list strings gmap.

Set Warnings "-register-all".
Local Open Scope Z_scope.

(** ** Python results and values *)

Inductive exc : Type :=
  | TypeError
  | ValueError
  | IndexError
  | KeyError (key : string)
  | AttributeError (attr : string)
  | NameError (name : string)
  | StructError
  | OverflowError
  | Exception_ (msg : string).

Inductive res (A : Type) : Type :=
  | Ok (a : A)
  | Raise (e : exc).
Arguments Ok {A} a.
Arguments Raise {A} e.

#[global] Instance res_ret : MRet res := λ A a, Ok a.
#[global] Instance res_bind : MBind res := λ A B f m,
  match m with Ok a => f a | Raise e => Raise e end.

#[global] Instance res_fmap : FMap res := λ A B f m,
  match m with Ok a => Ok (f a) | Raise e => Raise e end.

Definition is_ok {A} (r : res A) : bool :=
  match r with Ok _ => true | Raise _ => false end.

(** Lookup of a required item: [None] becomes the given exception. *)
Definition require {A} (e : exc) (o : option A) : res A :=
  match o with Some a => Ok a | None => Raise e end.

(** Python bytes are lists of bytes; Python str is [string]. *)
Abbreviation bytes := (list byte).

Definition B (s : string) : bytes := String.list_byte_of_string s.

Definition byte_val (b : byte) : Z := Z.of_N (Byte.to_N b).

Definition byte_of_Z (z : Z) : option byte :=
  if decide (0 <= z) then Byte.of_N (Z.to_N z) else None.

(** ** Python floats

    A float is a binary64 number: [spec_float] with a precision of 53 bits
    and the exponent 1024 for the infinities.  Sums, differences and products
    are rounded to nearest, ties to even. *)
Abbreviation float := spec_float.

Definition fadd : float → float → float := SFadd 53 1024.
Definition fsub : float → float → float := SFsub 53 1024.
Definition fmul : float → float → float := SFmul 53 1024.

(** The float nearest to an integer; infinite when the integer is too large. *)
Definition float_of_int (z : Z) : float := binary_normalize 53 1024 z 0 false.

(** A finite float is [scaled x ez * 2^ez] for every [ez] up to its exponent. *)
Definition exponent (x : float) : Z :=
  match x with S754_finite _ _ e => e | _ => 0 end.
Definition scaled (x : float) (ez : Z) : Z :=
  match x with
  | S754_finite s m e => cond_Zopp s (Z.pos m) * 2 ^ (e - ez)
  | _ => 0
  end.

(** Comparison of the values; a NaN compares with nothing. *)
Definition fcompare (x y : float) : option comparison :=
  match x, y with
  | S754_nan, _ | _, S754_nan => None
  | S754_infinity sx, S754_infinity sy =>
      Some (if sx then (if sy then Eq else Lt) else (if sy then Gt else Eq))
  | S754_infinity s, _ => Some (if s then Lt else Gt)
  | _, S754_infinity s => Some (if s then Gt else Lt)
  | _, _ =>
      let ez := Z.min (exponent x) (exponent y) in
      Some (scaled x ez ?= scaled y ez)
  end.

(** [x <= y] *)
Definition fle (x y : float) : bool :=
  match fcompare x y with Some Lt | Some Eq => true | _ => false end.

Definition is_nan (x : float) : bool :=
  match x with S754_nan => true | _ => false end.

(** [x % w] for a positive integer [w] that a float holds exactly: the
    remainder of the division, which is exact, brought to the sign of [w]. *)
Definition float_mod (x : float) (w : Z) : float :=
  match x with
  | S754_nan | S754_infinity _ => S754_nan
  | S754_zero _ => S754_zero false
  | S754_finite s m e =>
      let ez := Z.min e 0 in
      let r := (Z.pos m * 2 ^ (e - ez)) mod (w * 2 ^ (- ez)) in
      if r =? 0 then S754_zero false
      else if s then fadd (binary_normalize 53 1024 (- r) ez false) (float_of_int w)
      else binary_normalize 53 1024 r ez false
  end.

(** The integer a finite float is cut to, towards zero. *)
Definition float_trunc (x : float) : option Z :=
  match x with
  | S754_zero _ => Some 0
  | S754_finite s m e => Some (cond_Zopp s (Z.shiftl (Z.pos m) e))
  | _ => None
  end.

(** The integer a float is equal to, if any. *)
Definition float_integer (x : float) : option Z :=
  match x with
  | S754_zero _ => Some 0
  | S754_finite s m e =>
      if (0 <=? e) || (Z.pos m mod 2 ^ (- e) =? 0)
      then Some (cond_Zopp s (Z.shiftl (Z.pos m) e)) else None
  | _ => None
  end.

(** The literals [0.0], [0.020] and [10.0]. *)
Definition f0 : float := S754_zero false.
Definition f0_02 : float := S754_finite false 5764607523034235 (-58).
Definition f10 : float := S754_finite false 5629499534213120 (-49).

Inductive pyval : Type :=
  | VNone
  | VBool (b : bool)
  | VInt (z : Z)
  | VFloat (x : float)
  | VStr (s : string)
  | VBytes (bs : bytes)
  | VList (l : list pyval)
  | VFile (rest : bytes).

(** Integer view of a value: Python's bool is a subclass of int. *)
Definition as_int (v : pyval) : option Z :=
  match v with
  | VInt z => Some z
  | VBool b => Some (if b then 1 else 0)
  | _ => None
  end.

(** Operand of an integer-only operator ([<<], [|], struct's integer codes). *)
Definition int_operand (v : pyval) : res Z := require TypeError (as_int v).

(** ** The struct module, for the formats Media.py uses (network order) *)

Module struct.

(** Big-endian unsigned value of a byte string. *)
Definition be_val (bs : bytes) : Z :=
  fold_left (λ acc b, acc * 256 + byte_val b) bs 0.

(** Big-endian bytes of [z], [n] of them (least significant last). *)
Fixpoint be_bytes (n : nat) (z : Z) : option bytes :=
  match n with
  | O => Some []
  | S n' =>
      hi ← be_bytes n' (z / 256);
      lo ← byte_of_Z (z mod 256);
      Some (hi ++ [lo])
  end.

(** Code [b]: one signed byte. *)
Definition signed_char (b : byte) : Z :=
  if decide (byte_val b < 128) then byte_val b else byte_val b - 256.

(** [struct.unpack_from('!bbHLL', buf)]: needs 12 bytes. *)
Definition unpack_bbHLL (buf : bytes) : res (Z * Z * Z * Z * Z) :=
  match buf with
  | b0 :: b1 :: rest =>
      if decide (10 <= length rest)%nat then
        Ok (signed_char b0, signed_char b1,
            be_val (take 2 rest),
            be_val (take 4 (drop 2 rest)),
            be_val (take 4 (drop 6 rest)))
      else Raise StructError
  | _ => Raise StructError
  end.

(** One unsigned field of [n] bytes; out of range is [struct.error]. *)
Definition pack_unsigned (n : nat) (v : pyval) : res bytes :=
  match as_int v with
  | Some z =>
      if decide (0 <= z < 256 ^ Z.of_nat n)
      then require StructError (be_bytes n z)
      else Raise StructError
  | None => Raise StructError
  end.

(** [struct.pack_into('!HLL', hdr, 2, a, b, c)]: the bytes 2..11 of
    [hdr] are overwritten; [hdr] must reach offset 12. *)
Definition pack_into_HLL_at2 (hdr : bytes) (a b c : pyval) : res bytes :=
  fa ← pack_unsigned 2 a;
  fb ← pack_unsigned 4 b;
  fc ← pack_unsigned 4 c;
  if decide (12 <= length hdr)%nat
  then Ok (take 2 hdr ++ fa ++ fb ++ fc ++ drop 12 hdr)
  else Raise StructError.

End struct.

(** [hdr[i] = v] on a bytearray: [v] must be an integer in range(256). *)
Definition bytearray_set (hdr : bytes) (i : nat) (z : Z) : res bytes :=
  match byte_of_Z z with
  | Some b =>
      if decide (i < length hdr)%nat then Ok (<[i:=b]> hdr) else Raise IndexError
  | None => Raise ValueError
  end.

(** ** class RTP *)

Record RTP : Type := mkRTP {
  payload : bytes;
  PT : pyval;
  seq : pyval;
  TS : pyval;
  SSRC : pyval;
  version : pyval;
  P : pyval;
  X : pyval;
  CC : pyval;
  M : pyval;
}.

(** [RTP(payload, PT, seq, TS, SSRC)] with the defaults of [__init__]. *)
Definition RTP_new (payload : bytes) (PT seq TS SSRC : pyval) : RTP :=
  mkRTP payload PT seq TS SSRC (VInt 2) (VInt 0) (VInt 0) (VInt 0) (VInt 0).

Definition RTP_frombytes (buf : bytes) : res RTP :=
  '(h0, h1, seq, TS, SSRC) ← struct.unpack_bbHLL (take 12 buf ++ replicate 12 "000"%byte);
  let version := Z.shiftr h0 6 in
  let P := Z.land (Z.shiftr h0 5) 1 in
  let X := Z.land (Z.shiftr h0 4) 1 in
  let CC := Z.land h0 15 in
  let M := Z.shiftr h1 7 in
  let PT := Z.land h1 127 in
  let payload := drop 12 buf in
  Ok (mkRTP payload (VInt PT) (VInt seq) (VInt TS) (VInt SSRC)
            (VInt version) (VInt P) (VInt X) (VInt CC) (VInt M)).

Definition RTP_tobytes (self : RTP) : res bytes :=
  let hdr := replicate 12 "000"%byte in
  v ← int_operand (version self);
  p ← int_operand (P self);
  x ← int_operand (X self);
  cc ← int_operand (CC self);
  hdr ← bytearray_set hdr 0
          (Z.lor (Z.lor (Z.lor (Z.shiftl v 6) (Z.shiftl p 5)) (Z.shiftl x 4)) cc);
  m ← int_operand (M self);
  pt ← int_operand (PT self);
  hdr ← bytearray_set hdr 1 (Z.lor (Z.shiftl m 7) pt);
  hdr ← struct.pack_into_HLL_at2 hdr (seq self) (TS self) (SSRC self);
  Ok (hdr ++ payload self).

(** A packet whose fields are integers. *)
Definition RTP_of_ints (payload : bytes) (pt sq ts ssrc v p x cc m : Z) : RTP :=
  mkRTP payload (VInt pt) (VInt sq) (VInt ts) (VInt ssrc)
        (VInt v) (VInt p) (VInt x) (VInt cc) (VInt m).

Definition decode_encode (p : RTP) : res RTP :=
  buf ← RTP_tobytes p; RTP_frombytes buf.

(** ** Built-in operations on bytes and str *)

(** ASCII whitespace, as [bytes.strip], [bytes.split] and [int] see it. *)
Definition is_space (b : byte) : bool :=
  bool_decide (byte_val b ∈ [9; 10; 11; 12; 13; 32]).

Definition byte_eqb (a b : byte) : bool := Byte.eqb a b.

Fixpoint startswith (prefix bs : bytes) : bool :=
  match prefix, bs with
  | [], _ => true
  | p :: prefix', b :: bs' => byte_eqb p b && startswith prefix' bs'
  | _ :: _, [] => false
  end.

Definition endswith (suffix bs : bytes) : bool :=
  startswith (rev suffix) (rev bs).

(** [bytes.splitlines()]: breaks at LF, CR and CRLF; no final empty line. *)
Fixpoint splitlines_from (cur : bytes) (bs : bytes) : list bytes :=
  match bs with
  | [] => match cur with [] => [] | _ => [rev cur] end
  | b :: r =>
      if byte_eqb b "010" then rev cur :: splitlines_from [] r
      else if byte_eqb b "013" then
        match r with
        | b' :: r' =>
            if byte_eqb b' "010" then rev cur :: splitlines_from [] r'
            else rev cur :: splitlines_from [] r
        | [] => rev cur :: splitlines_from [] r
        end
      else splitlines_from (b :: cur) r
  end.

Definition splitlines (bs : bytes) : list bytes := splitlines_from [] bs.

(** [bytes.split()]: maximal runs of non-whitespace. *)
Fixpoint split_from (cur : bytes) (bs : bytes) : list bytes :=
  match bs with
  | [] => match cur with [] => [] | _ => [rev cur] end
  | b :: r =>
      if is_space b then
        match cur with [] => split_from [] r | _ => rev cur :: split_from [] r end
      else split_from (b :: cur) r
  end.

Definition split (bs : bytes) : list bytes := split_from [] bs.

(** [s.split(sep)] for a one-byte separator: every field, empty ones too. *)
Fixpoint split_on_from (sep : byte) (cur : bytes) (bs : bytes) : list bytes :=
  match bs with
  | [] => [rev cur]
  | b :: r =>
      if byte_eqb b sep then rev cur :: split_on_from sep [] r
      else split_on_from sep (b :: cur) r
  end.

Definition split_on (sep : byte) (bs : bytes) : list bytes := split_on_from sep [] bs.

(** [s.split(sep, 1)]: cut at the first separator only. *)
Fixpoint split_once_from (sep : byte) (cur : bytes) (bs : bytes) : list bytes :=
  match bs with
  | [] => [rev cur]
  | b :: r =>
      if byte_eqb b sep then [rev cur; r] else split_once_from sep (b :: cur) r
  end.

Definition split_once (sep : byte) (bs : bytes) : list bytes :=
  split_once_from sep [] bs.

Fixpoint lstrip (sp : byte → bool) (bs : bytes) : bytes :=
  match bs with
  | b :: r => if sp b then lstrip sp r else bs
  | [] => []
  end.

Definition strip_with (sp : byte → bool) (bs : bytes) : bytes :=
  rev (lstrip sp (rev (lstrip sp bs))).

Definition strip (bs : bytes) : bytes := strip_with is_space bs.

Definition digit_val (b : byte) : option Z :=
  if bool_decide (48 <= byte_val b <= 57) then Some (byte_val b - 48) else None.

(** Decimal digits with single underscores between digits, as [int] reads
    them; [prev] tells whether the preceding byte was a digit. *)
Fixpoint digits_from (acc : Z) (prev : bool) (bs : bytes) : option Z :=
  match bs with
  | [] => if prev then Some acc else None
  | b :: r =>
      match digit_val b with
      | Some d => digits_from (acc * 10 + d) true r
      | None =>
          if byte_eqb b "_" && prev then digits_from acc false r else None
      end
  end.

(** [int(text)] in base 10: surrounding whitespace, an optional sign, digits.
    Only ASCII digits are read ([int] of a str also accepts other Unicode
    decimal digits). *)
Definition int_parse (sp : byte → bool) (bs : bytes) : option Z :=
  match strip_with sp bs with
  | b :: r =>
      if byte_eqb b "-" then Z.opp <$> digits_from 0 false r
      else if byte_eqb b "+" then digits_from 0 false r
      else digits_from 0 false (b :: r)
  | [] => None
  end.

Definition int_of_bytes (bs : bytes) : res Z :=
  require ValueError (int_parse is_space bs).

(** [int] of a str: on ASCII text it strips the same whitespace as on bytes
    (U+001C..U+001F, which [str.strip] removes, stay and are refused). *)
Definition int_of_str (s : string) : res Z :=
  require ValueError (int_parse is_space (B s)).

(** Well-formed UTF-8, as [bytes.decode('utf-8')] demands. *)
Definition cont_in (lo hi : Z) (b : byte) : bool :=
  bool_decide (lo <= byte_val b <= hi).

Fixpoint utf8_valid (bs : bytes) : bool :=
  match bs with
  | [] => true
  | b0 :: r =>
      let v := byte_val b0 in
      if bool_decide (v < 128) then utf8_valid r
      else if bool_decide (194 <= v <= 223) then
        match r with
        | b1 :: r1 => cont_in 128 191 b1 && utf8_valid r1
        | _ => false
        end
      else if bool_decide (224 <= v <= 239) then
        match r with
        | b1 :: b2 :: r2 =>
            cont_in (if bool_decide (v = 224) then 160 else 128)
                    (if bool_decide (v = 237) then 159 else 191) b1
            && cont_in 128 191 b2 && utf8_valid r2
        | _ => false
        end
      else if bool_decide (240 <= v <= 244) then
        match r with
        | b1 :: b2 :: b3 :: r3 =>
            cont_in (if bool_decide (v = 240) then 144 else 128)
                    (if bool_decide (v = 244) then 143 else 191) b1
            && cont_in 128 191 b2 && cont_in 128 191 b3 && utf8_valid r3
        | _ => false
        end
      else false
  end.

(** A str is kept as its UTF-8 bytes. *)
Definition decode_utf8 (bs : bytes) : res string :=
  if utf8_valid bs then Ok (String.string_of_list_byte bs) else Raise ValueError.

(** ** Stateful code: a state and exception monad *)

Definition Eff (S A : Type) : Type := S → res A * S.

#[global] Instance Eff_ret {S} : MRet (Eff S) := λ A a s, (Ok a, s).
#[global] Instance Eff_bind {S} : MBind (Eff S) := λ A B f m s,
  match m s with
  | (Ok a, s') => f a s'
  | (Raise e, s') => (Raise e, s')
  end.

Definition raise {S A} (e : exc) : Eff S A := λ s, (Raise e, s).
Definition lift {S A} (r : res A) : Eff S A := λ s, (r, s).
Definition get {S} : Eff S S := λ s, (Ok s, s).
Definition modify {S} (f : S → S) : Eff S unit := λ s, (Ok (), f s).

(** [for x in xs: body(x)] *)
Fixpoint for_each {S A} (xs : list A) (body : A → Eff S unit) : Eff S unit :=
  match xs with
  | [] => mret ()
  | x :: xs' => body x ;; for_each xs' body
  end.

(** [try: m  except: handler] with a bare [except]. *)
Definition try_except {S A} (m handler : Eff S A) : Eff S A := λ s,
  match m s with
  | (Ok a, s') => (Ok a, s')
  | (Raise _, s') => handler s'
  end.

(** ** class Media: the controller side *)

(** What the controller sends down the pipe: the remote address, or [None]
    to stop the worker. *)
Abbreviation pipe_msg := (option (bytes * Z)).

Record Media : Type := mkMedia {
  remoteip : option bytes;
  remoteport : option Z;
  transmitting : bool;
  pipe : list pipe_msg;
}.

(** The fields as [Media.__init__] leaves them. *)
Definition Media_init : Media := mkMedia None None false [].

Definition set_remoteip (ip : bytes) (self : Media) : Media :=
  mkMedia (Some ip) (remoteport self) (transmitting self) (pipe self).
Definition set_remoteport (port : Z) (self : Media) : Media :=
  mkMedia (remoteip self) (Some port) (transmitting self) (pipe self).
Definition set_transmitting (b : bool) (self : Media) : Media :=
  mkMedia (remoteip self) (remoteport self) b (pipe self).
Definition pipe_send (msg : pipe_msg) (self : Media) : Media :=
  mkMedia (remoteip self) (remoteport self) (transmitting self) (pipe self ++ [msg]).

(** [xs[i]] on a list *)
Definition item {A} (xs : list A) (i : nat) : res A := require IndexError (xs !! i).

(** The body of the loop of [setparticipantoffer]. *)
Definition offer_line (line : bytes) : Eff Media unit :=
  (if startswith (B "c=") line then
     ip ← lift (item (split line) 2);
     modify (set_remoteip ip)
   else mret ());;
  (if startswith (B "m=") line then
     tok ← lift (item (split line) 1);
     port ← lift (int_of_bytes tok);
     modify (set_remoteport port)
   else mret ()).

Definition setparticipantoffer (sdp : bytes) : Eff Media unit := λ self,
  if transmitting self then (Ok (), self)
  else for_each (splitlines sdp) offer_line self.

Definition transmit : Eff Media unit := λ self,
  if transmitting self then (Ok (), self)
  else
    let self := set_transmitting true self in
    match remoteip self, remoteport self with
    | Some ip, Some port => (Ok (), pipe_send (Some (ip, port)) self)
    | _, _ => (Ok (), self)   (* log.warning("missing participant offer") *)
    end.

Definition stop : Eff Media unit := modify (pipe_send None).

(** Calls a collaborator can make on the controller. *)
Inductive call : Type :=
  | CallOffer (sdp : bytes)
  | CallTransmit
  | CallStop.

Definition do_call (c : call) : Eff Media unit :=
  match c with
  | CallOffer sdp => setparticipantoffer sdp
  | CallTransmit => transmit
  | CallStop => stop
  end.

Definition do_calls (cs : list call) : Eff Media unit := for_each cs do_call.

(** The SDP answer of the self-test at the end of Media.py. *)
Definition CRLF : bytes := ["013"; "010"]%byte.
Definition LF : bytes := ["010"]%byte.

Definition sdp_answer : bytes :=
  B "v=0" ++ CRLF ++ B "o=- 123 123 IN IP4 toto" ++ CRLF ++ B "s=-" ++ LF
  ++ B "m=audio 12345 RTP/AVP 116" ++ CRLF ++ B "c=IN IP4 127.0.0.1" ++ CRLF
  ++ B "a=rtpmap:116 AMR-WB/16000/1" ++ CRLF.

(** ** Arithmetic and conversions on Python values *)

Inductive num : Type :=
  | NInt (z : Z)
  | NFloat (x : float).

Definition as_num (v : pyval) : option num :=
  match v with
  | VFloat x => Some (NFloat x)
  | _ => NInt <$> as_int v
  end.

(** [float(z)] for an integer: OverflowError when no finite float is near. *)
Definition float_of_Z (z : Z) : res float :=
  match float_of_int z with
  | S754_infinity _ => Raise OverflowError
  | x => Ok x
  end.

(** The float an operand of mixed arithmetic is converted to. *)
Definition float_of_num (n : num) : res float :=
  match n with NInt z => float_of_Z z | NFloat x => Ok x end.

(** [x + v] for a float [x] *)
Definition float_add (x : float) (v : pyval) : res float :=
  match as_num v with
  | Some n => y ← float_of_num n; Ok (fadd x y)
  | None => Raise TypeError
  end.

(** [a + b] *)
Definition py_add (a b : pyval) : res pyval :=
  match as_num a, as_num b with
  | Some (NInt x), Some (NInt y) => Ok (VInt (x + y))
  | Some x, Some y =>
      x ← float_of_num x; y ← float_of_num y; Ok (VFloat (fadd x y))
  | _, _ =>
      match a, b with
      | VStr s, VStr t => Ok (VStr (s +:+ t))
      | VBytes s, VBytes t => Ok (VBytes (s ++ t))
      | VList s, VList t => Ok (VList (s ++ t))
      | _, _ => Raise TypeError
      end
  end.

(** [a % m] for a positive integer constant [m].  On a str or bytes left
    operand [%] is printf-style formatting, done by [text_format]. *)
Definition py_mod (text_format : pyval → Z → res pyval) (a : pyval) (m : Z) : res pyval :=
  match as_num a with
  | Some (NInt x) => Ok (VInt (x mod m))
  | Some (NFloat x) => Ok (VFloat (float_mod x m))
  | None =>
      match a with
      | VStr _ | VBytes _ => text_format a m
      | _ => Raise TypeError
      end
  end.

Fixpoint repeat_list {A} (n : nat) (l : list A) : list A :=
  match n with O => [] | S n' => l ++ repeat_list n' l end.

(** [n * v] for an integer [n] *)
Definition py_mul_int (n : Z) (v : pyval) : res pyval :=
  match v with
  | VFloat x => y ← float_of_Z n; Ok (VFloat (fmul y x))
  | VStr s => Ok (VStr (String.string_of_list_byte (repeat_list (Z.to_nat n) (B s))))
  | VBytes s => Ok (VBytes (repeat_list (Z.to_nat n) s))
  | VList l => Ok (VList (repeat_list (Z.to_nat n) l))
  | _ => match as_int v with Some z => Ok (VInt (n * z)) | None => Raise TypeError end
  end.

(** [int(v)] *)
Definition py_int (v : pyval) : res Z :=
  match v with
  | VFloat x =>
      match x with
      | S754_nan => Raise ValueError
      | _ => require OverflowError (float_trunc x)    (* towards zero *)
      end
  | VStr s => int_of_str s
  | VBytes s => int_of_bytes s
  | _ => require TypeError (as_int v)
  end.

(** [v[i]] *)
Definition getitem (v : pyval) (i : nat) : res pyval :=
  match v with
  | VList l => item l i
  | VStr s => (λ b, VStr (String.string_of_list_byte [b])) <$> item (B s) i
  | VBytes s => (λ b, VInt (byte_val b)) <$> item s i
  | _ => Raise TypeError
  end.

(** [v[i] = x] *)
Definition setitem (v : pyval) (i : nat) (x : pyval) : res pyval :=
  match v with
  | VList l => if decide (i < length l)%nat then Ok (VList (<[i:=x]> l)) else Raise IndexError
  | _ => Raise TypeError
  end.

(** [v.split('/')] *)
Definition split_slash (v : pyval) : res (list string) :=
  match v with
  | VStr s => Ok (String.string_of_list_byte <$> split_on "/" (B s))
  | VBytes _ => Raise TypeError
  | _ => Raise (AttributeError "split")
  end.

(** The key a value denotes in a dict keyed by small integers:
    equal numbers are the same key, a list is unhashable. *)
Definition int_key (v : pyval) : res (option Z) :=
  match v with
  | VFloat x => Ok (float_integer x)
  | VList _ => Raise TypeError
  | _ => Ok (as_int v)
  end.

(** ** Payload streams: RTPStream, RTPFile, RTPRandomStream *)

Inductive klass : Type :=
  | RTPStream
  | RTPFile
  | RTPRandomStream.

(** A stream object: its class, its instance [__dict__], and the position
    reached in the process-wide random generator. *)
Record stream : Type := mkStream {
  cls : klass;
  dict : gmap string pyval;
  random : nat;
}.

Definition getattr (name : string) : Eff stream pyval := λ self,
  (require (AttributeError name) (dict self !! name), self).

Definition setattr (name : string) (v : pyval) : Eff stream unit :=
  modify (λ self, mkStream (cls self) (<[name:=v]> (dict self)) (random self)).

(** [self.__dict__.update(params)] *)
Definition dict_update (params : gmap string pyval) : Eff stream unit :=
  modify (λ self, mkStream (cls self) (params ∪ dict self) (random self)).

(** Calling [self.name(...)]: an instance attribute of that name hides the
    method, and no value a stream can hold is callable. *)
Definition method {A} (name : string) (body : Eff stream A) : Eff stream A := λ self,
  match dict self !! name with
  | Some _ => (Raise TypeError, self)
  | None => body self
  end.

Definition defaultcodecs : gmap Z string :=
  list_to_map
    [(0, "PCMU/8000"); (3, "GSM/8000"); (4, "G723/8000"); (5, "DVI4/8000");
     (6, "DVI4/16000"); (7, "LPC/8000"); (8, "PCMA/8000"); (9, "G722/8000");
     (10, "L16/44100/2"); (11, "L16/44100/1"); (12, "QCELP/8000");
     (13, "CN/8000"); (14, "MPA/90000"); (15, "G728/8000"); (16, "DVI4/11025");
     (17, "DVI4/22050"); (18, "G729/8000")]%string.

(** The [codec] list for a payload type: from the table, or unnamed. *)
Definition codec_for (PT : pyval) : res pyval :=
  k ← int_key PT;
  Ok (match k ≫= (defaultcodecs !!.) with
      | Some name => VList [PT; VStr name; VNone]
      | None => VList [PT; VNone; VNone]
      end).

(** [self.codec[i] = v] *)
Definition set_codec_item (i : nat) (v : pyval) : Eff stream unit :=
  codec ← getattr "codec";
  codec ← lift (setitem codec i v);
  setattr "codec" codec.

(** The body both [try:] blocks share: the sample count from the sampling
    rate in the codec name and the period. *)
Definition numsamples_from_codec : Eff stream unit :=
  codec ← getattr "codec";
  name ← lift (getitem codec 1);
  fields ← lift (split_slash name);
  field ← lift (item fields 1);
  samplingrate ← lift (int_of_str field);
  period ← getattr "period";
  product ← lift (py_mul_int samplingrate period);
  n ← lift (py_int product);
  setattr "numsamples" (VInt n).

(** [str(self)], as the messages of the exceptions format it. *)
Definition str_self : Eff stream unit := getattr "name" ;; mret ().

Section Streams.

(** The outcome of the [n]-th draw from the random generator. *)
Variable entropy : nat → Z.
(** [ast.literal_eval] *)
Variable literal_eval : string → res pyval.
(** [open(path, 'rb')]: the content of the file. *)
Variable open_rb : string → res bytes.
(** [fmt % n] for a str or bytes [fmt] and an integer [n]: printf-style
    formatting. *)
Variable text_format : pyval → Z → res pyval.

(** [random.randint(a, b)] *)
Definition randint (a b : Z) : Eff stream Z := λ self,
  (Ok (a + entropy (random self) mod (b - a + 1)),
   mkStream (cls self) (dict self) (S (random self))).

(** [random.choice(range(256))] *)
Definition random_byte : Eff stream byte := λ self,
  (Ok (default "000"%byte (byte_of_Z (entropy (random self) mod 256))),
   mkStream (cls self) (dict self) (S (random self))).

(** *** RTPStream *)

Definition RTPStream_init (PT rtplen : pyval) (params : gmap string pyval)
  : Eff stream unit :=
  setattr "PT" PT;;
  setattr "rtplen" rtplen;;
  codec ← lift (codec_for PT);
  setattr "codec" codec;;
  match params !! "codecname" with
  | Some v => set_codec_item 1 v | None => mret ()
  end;;
  match params !! "codecformat" with
  | Some v => set_codec_item 2 v | None => mret ()
  end;;
  codec ← getattr "codec";
  name ← lift (getitem codec 1);
  match name with VNone => raise (Exception_ "missing codecname") | _ => mret () end;;
  r ← randint 0 65535;
  setattr "seq" (default (VInt r) (params !! "seq"));;
  setattr "period" (default (VFloat f0_02) (params !! "period"));;
  r ← randint 0 4294967295;
  setattr "SSRC" (default (VInt r) (params !! "SSRC"));;
  r ← randint 0 4294967295;
  setattr "TS" (default (VInt r) (params !! "TS"));;
  setattr "numsamples" (default VNone (params !! "numsamples"));;
  match default VNone (params !! "numsamples") with
  | VNone =>
      try_except numsamples_from_codec
        (raise (Exception_ "missing 'timestamp' or 'numsamples' or sampling rate in codec name"))
  | _ => mret ()
  end;;
  setattr "eof" (VBool true).

(** A call [RTPStream.__init__(self, *args, **params)]: the two
    positional parameters have no default. *)
Definition RTPStream_init_call (args : list pyval) (params : gmap string pyval)
  : Eff stream unit :=
  match args with
  | [PT; rtplen] => RTPStream_init PT rtplen params
  | _ => raise TypeError
  end.

Definition RTPStream_nextparams : Eff stream unit :=
  TS ← getattr "TS";
  numsamples ← getattr "numsamples";
  sum ← lift (py_add TS numsamples);
  TS ← lift (py_mod text_format sum 4294967295);   (* 0xffffffff *)
  setattr "TS" TS;;
  seq ← getattr "seq";
  sum ← lift (py_add seq (VInt 1));
  seq ← lift (py_mod text_format sum 65535);       (* 0xffff *)
  setattr "seq" seq.

Definition RTPStream_nextpayload : Eff stream bytes := mret [].

(** *** RTPFile *)

(** [buf[:-n]] on the reversed [buf]: nothing is left when [n] is 0. *)
Definition without_last (n : nat) (buf : bytes) : bytes :=
  match n with
  | O => []
  | _ => rev (drop n buf)
  end.

(** The loop of [readupto]: [buf] is kept reversed; [None] at end of file. *)
Fixpoint readupto_loop (mark : bytes) (buf rest : bytes) : option (bytes * bytes) :=
  match rest with
  | [] => None
  | b :: rest' =>
      let buf := b :: buf in
      if startswith (rev mark) buf
      then Some (without_last (length mark) buf, rest')
      else readupto_loop mark buf rest'
  end.

Definition RTPFile_readupto (mark : bytes) : Eff stream bytes :=
  method "readupto" (
    f ← getattr "f";
    match f with
    | VFile rest =>
        match readupto_loop mark [] rest with
        | Some (out, rest') => setattr "f" (VFile rest');; mret out
        | None =>
            setattr "f" (VFile []);;
            setattr "eof" (VBool true);;
            mret []
        end
    | _ => raise (AttributeError "read")
    end).

Definition RTPFile_nextpayload : Eff stream bytes :=
  RTPFile_readupto (B ">>>>").

(** One line of a parameter block. *)
Definition param_line (params : gmap string pyval) (line : bytes) : gmap string pyval :=
  if startswith (B "#") (strip line) then params
  else
    match split_once "=" line with
    | [k; v] =>
        match (text ← decode_utf8 (strip v);
               value ← literal_eval text;
               key ← decode_utf8 (strip k);
               Ok (key, value)) with
        | Ok (key, value) => <[key:=value]> params
        | Raise _ => params
        end
    | _ => params
    end.

Definition read_params (parambuf : bytes) : gmap string pyval :=
  fold_left param_line (splitlines parambuf) ∅.

Definition RTPFile_nextparams : Eff stream unit :=
  parambuf ← RTPFile_readupto (B "<<<<");
  let params := read_params parambuf in
  (* update stored values *)
  let dseq := default (VInt 1) (params !! "dseq") in
  let params := delete "dseq" params in
  match params !! "seq" with
  | Some v => setattr "seq" v
  | None =>
      seq ← getattr "seq";
      sum ← lift (py_add seq dseq);
      seq ← lift (py_mod text_format sum 65535);
      setattr "seq" seq
  end;;
  let params := delete "seq" params in
  match params !! "PT" with
  | Some v =>
      setattr "PT" v;;
      codec ← lift (codec_for v);
      setattr "codec" codec
  | None => mret ()
  end;;
  let params := delete "PT" params in
  match params !! "codecname" with
  | Some v => set_codec_item 1 v | None => mret ()
  end;;
  let params := delete "codecname" params in
  match params !! "codecformat" with
  | Some v => set_codec_item 2 v | None => mret ()
  end;;
  let params := delete "codecformat" params in
  PT ← getattr "PT";
  match PT with
  | VNone => str_self;; raise (Exception_ "missing PT param")
  | _ => mret ()
  end;;
  codec ← getattr "codec";
  name ← lift (getitem codec 1);
  match name with
  | VNone => str_self;; raise (Exception_ "missing codecname for PT")
  | _ => mret ()
  end;;
  period ← getattr "period";
  setattr "period" (default period (params !! "period"));;
  let params := delete "period" params in
  params ←
    match params !! "timestamp" with
    | Some _ =>
        TS ← lift (require (KeyError "TS") (params !! "TS"));
        setattr "TS" TS;;
        mret (delete "TS" params)
    | None =>
        match params !! "numsamples" with
        | Some v => setattr "numsamples" v | None => mret ()
        end;;
        let params := delete "numsamples" params in
        numsamples ← getattr "numsamples";
        match numsamples with
        | VNone =>
            try_except numsamples_from_codec
              (str_self;;
               raise (Exception_ "cannot compute TS. Missing 'timestamp' or 'numsamples' or sampling rate in codec name"))
        | _ => mret ()
        end;;
        TS ← getattr "TS";
        numsamples ← getattr "numsamples";
        sum ← lift (py_add TS numsamples);
        TS ← lift (py_mod text_format sum 4294967295);
        setattr "TS" TS;;
        mret params
    end;
  dict_update params.

(** *** RTPRandomStream *)

Definition RTPRandomStream_init (PT rtplen : pyval) (params : gmap string pyval)
  : Eff stream unit :=
  RTPStream_init_call [PT; rtplen] params;;
  setattr "eof" (VBool false).

Fixpoint random_bytes (n : nat) : Eff stream bytes :=
  match n with
  | O => mret []
  | S n' => b ← random_byte; bs ← random_bytes n'; mret (b :: bs)
  end.

Definition RTPRandomStream_nextpayload : Eff stream bytes :=
  rtplen ← getattr "rtplen";
  n ← lift (int_operand rtplen);     (* range(self.rtplen) *)
  random_bytes (Z.to_nat n).

(** *** Method resolution and the inherited [nextpacket] *)

Definition nextparams : Eff stream unit :=
  method "nextparams" (λ self,
    match cls self with
    | RTPFile => RTPFile_nextparams self
    | _ => RTPStream_nextparams self
    end).

Definition nextpayload : Eff stream bytes :=
  method "nextpayload" (λ self,
    match cls self with
    | RTPStream => RTPStream_nextpayload self
    | RTPFile => RTPFile_nextpayload self
    | RTPRandomStream => RTPRandomStream_nextpayload self
    end).

Definition nextpacket : Eff stream (RTP * pyval) :=
  method "nextpacket" (
    payload ← nextpayload;
    PT ← getattr "PT";
    seq ← getattr "seq";
    TS ← getattr "TS";
    SSRC ← getattr "SSRC";
    let rtp := RTP_new payload PT seq TS SSRC in
    nextparams;;
    period ← getattr "period";
    mret (rtp, period)).

(** *** RTPFile.__init__

    It receives a path or an open binary file. *)
Inductive rtpfile_arg : Type :=
  | Path (path : string)
  | Handle (content : bytes).

Definition RTPFile_init (rtpfile : rtpfile_arg) : Eff stream unit :=
  RTPStream_init_call [] ∅;;
  setattr "eof" (VBool false);;
  match rtpfile with
  | Path path =>
      content ← lift (open_rb path);
      setattr "f" (VFile content);;
      setattr "name" (VStr path)
  | Handle content =>
      setattr "f" (VFile content);;
      (* self.name = f.name: the local f is unbound *)
      try_except (raise (NameError "f")) (mret ())
  end;;
  nextparams.

(** [[s.nextpacket() for _ in range(n)]], with [s.eof] read after each call. *)
Fixpoint nextpackets (n : nat) : Eff stream (list (RTP * pyval)) :=
  match n with
  | O => mret []
  | S n' =>
      '(rtp, _) ← nextpacket;
      eof ← getattr "eof";
      rest ← nextpackets n';
      mret ((rtp, eof) :: rest)
  end.

End Streams.

(** Object creation: [__init__] runs on an empty instance. *)
Definition construct (c : klass) (init : Eff stream unit) (random : nat) : res stream :=
  match init (mkStream c ∅ random) with
  | (Ok _, self) => Ok self
  | (Raise e, _) => Raise e
  end.

(** ** Media.run: the sending loop of the worker process *)

(** Truth value of a Python value. *)
Definition truth (v : pyval) : bool :=
  match v with
  | VNone => false
  | VBool b => b
  | VInt z => negb (z =? 0)
  | VFloat x => match x with S754_zero _ => false | _ => true end
  | VStr s => negb (bool_decide (s = ""%string))
  | VBytes s => negb (bool_decide (s = []))
  | VList l => match l with [] => false | _ => true end
  | VFile _ => true
  end.

(** What [multiprocessing.connection.wait] reports ready: the socket, with
    the datagram [recvfrom] will return, or the pipe from the parent. *)
Inductive ready_obj : Type :=
  | Sock (buf : bytes)
  | Childpipe.

(** What one turn of the loop meets: the reading of [time.monotonic()], and
    what [wait] does: it returns the objects that are ready (none when the
    time-out expired), or it raises, as it does on a time-out it cannot use
    (a NaN, an infinity, a number too large for the platform). *)
Record turn : Type := mkTurn {
  currenttime : float;
  ready : list ready_obj;
  wait_error : option exc;
}.

(** [multiprocessing.connection.wait([sock, self.childpipe], sleep)] *)
Definition wait (t : turn) : res (list ready_obj) :=
  match wait_error t with
  | Some e => Raise e
  | None => Ok (ready t)
  end.

Record worker : Type := mkWorker {
  rtp : option stream;
  wakeuptime : float;
  running : bool;
  (** time-outs passed to [wait]: [None], the integer 0, or a float *)
  sleeps : list pyval;
  (** datagrams handed to [sendto], each with the deadline in force *)
  sent : list (float * bytes);
  (** packets decoded from incoming datagrams, as logged *)
  received : list RTP;
}.

Definition set_rtp (s : option stream) (w : worker) : worker :=
  mkWorker s (wakeuptime w) (running w) (sleeps w) (sent w) (received w).
Definition set_running (b : bool) (w : worker) : worker :=
  mkWorker (rtp w) (wakeuptime w) b (sleeps w) (sent w) (received w).
Definition set_wakeuptime (x : float) (w : worker) : worker :=
  mkWorker (rtp w) x (running w) (sleeps w) (sent w) (received w).
Definition log_sleep (t : pyval) (w : worker) : worker :=
  mkWorker (rtp w) (wakeuptime w) (running w) (sleeps w ++ [t]) (sent w) (received w).
Definition sendto (buf : bytes) (w : worker) : worker :=
  mkWorker (rtp w) (wakeuptime w) (running w) (sleeps w)
           (sent w ++ [(wakeuptime w, buf)]) (received w).
Definition log_received (p : RTP) (w : worker) : worker :=
  mkWorker (rtp w) (wakeuptime w) (running w) (sleeps w) (sent w) (received w ++ [p]).

(** A method of [self.rtp], run on the worker's stream object. *)
Definition on_rtp {A} (m : Eff stream A) : Eff worker A := λ w,
  match rtp w with
  | None => (Raise (AttributeError "eof"), w)
  | Some s => let '(r, s') := m s in (r, set_rtp (Some s') w)
  end.

Section Worker.

Variable entropy : nat → Z.
Variable literal_eval : string → res pyval.
Variable text_format : pyval → Z → res pyval.

Definition on_ready (obj : ready_obj) : Eff worker unit :=
  match obj with
  | Sock buf =>
      p ← lift (RTP_frombytes buf);
      modify (log_received p)
  | Childpipe => modify (set_running false)
  end.

(** The body of [while running:]. *)
Definition loop_body (t : turn) : Eff worker unit :=
  w ← get;
  let sleep :=
    match rtp w with
    | None => VNone
    | Some _ =>
        if fle (wakeuptime w) (currenttime t) then VInt 0
        else VFloat (fsub (wakeuptime w) (currenttime t))
    end in
  modify (log_sleep sleep);;
  objs ← lift (wait t);
  for_each objs on_ready;;
  match objs with
  | [] =>
      (* time to send next RTP packet if there is one *)
      eof ← on_rtp (getattr "eof");
      if truth eof then mret ()
      else
        '(p, duration) ← on_rtp (nextpacket entropy literal_eval text_format);
        buf ← lift (RTP_tobytes p);
        modify (sendto buf);;
        w ← get;
        wakeuptime ← lift (float_add (wakeuptime w) duration);
        modify (set_wakeuptime wakeuptime)
  | _ => mret ()
  end.

(** [while running:] over the turns the environment offers. *)
Fixpoint loop (turns : list turn) : Eff worker unit :=
  match turns with
  | [] => mret ()
  | t :: turns' => λ w,
      if running w then (loop_body t ;; loop turns') w else (Ok (), w)
  end.

(** The loop entered with [wakeuptime = time.monotonic()] read as [t0]. *)
Definition run_loop (stream : option stream) (t0 : float) (turns : list turn)
  : res unit * worker :=
  loop turns (mkWorker stream t0 true [] [] []).

End Worker.

(** ** Concrete environments for running the model *)

Definition hex_val (b : byte) : option Z :=
  let v := byte_val b in
  if bool_decide (48 <= v <= 57) then Some (v - 48)
  else if bool_decide (97 <= v <= 102) then Some (v - 87)
  else if bool_decide (65 <= v <= 70) then Some (v - 55)
  else None.

Fixpoint radix_from (digit : byte → option Z) (radix acc : Z) (bs : bytes) : option Z :=
  match bs with
  | [] => Some acc
  | b :: r => d ← digit b; radix_from digit radix (acc * radix + d) r
  end.

(** A decimal integer literal: digits, without a leading zero unless the
    number is zero. *)
Definition decimal_literal (bs : bytes) : option Z :=
  match bs with
  | [] => None
  | b :: _ =>
      z ← radix_from digit_val 10 0 bs;
      if byte_eqb b "0" && negb (z =? 0) then None else Some z
  end.

(** The float nearest to [n / d], for [n >= 0] and [d > 0]: the quotient is
    taken with two bits and more to spare, the remainder decides the
    rounding. *)
Definition float_of_ratio (n d : Z) : float :=
  let s := Z.max 0 (55 + Z.log2 d - Z.log2 n) in
  let '(q, r) := Z.div_eucl (n * 2 ^ s) d in
  binary_round_aux 53 1024 false q (- s) (new_location d r).

(** A decimal literal: an integer, or [digits.digits] with digits on one
    side of the point at least. *)
Definition decimal_number (bs : bytes) : option pyval :=
  match split_once "." bs with
  | [whole] => VInt <$> decimal_literal whole
  | [whole; frac] =>
      match whole, frac with
      | [], [] => None
      | _, _ =>
          w ← radix_from digit_val 10 0 whole;
          f ← radix_from digit_val 10 0 frac;
          Some (VFloat (float_of_ratio (w * 10 ^ Z.of_nat (length frac) + f)
                                       (10 ^ Z.of_nat (length frac))))
      end
  | _ => None
  end.

(** Unsigned number literals: [0x..] and decimal numbers. *)
Definition number_literal (bs : bytes) : option pyval :=
  match bs with
  | b0 :: b1 :: digits =>
      if byte_eqb b0 "0" && (byte_eqb b1 "x" || byte_eqb b1 "X") then
        match digits with
        | [] => None
        | _ => VInt <$> radix_from hex_val 16 0 digits
        end
      else decimal_number bs
  | _ => decimal_number bs
  end.

(** A fragment of [ast.literal_eval], enough to run the fixtures: [True],
    [False], [None], integers in decimal and hexadecimal, plain decimals,
    and quoted strings without escapes.  Everything else is rejected here. *)
Definition literal_eval_frag (s : string) : res pyval :=
  if bool_decide (s = "True"%string) then Ok (VBool true)
  else if bool_decide (s = "False"%string) then Ok (VBool false)
  else if bool_decide (s = "None"%string) then Ok VNone
  else
    match B s with
    | q :: r =>
        if byte_eqb q "'" then
          match rev r with
          | q' :: body =>
              if byte_eqb q' "'" && forallb (λ b, negb (byte_eqb b "'" || byte_eqb b "\")) body
              then Ok (VStr (String.string_of_list_byte (rev body)))
              else Raise ValueError
          | [] => Raise ValueError
          end
        else require ValueError (number_literal (q :: r))
    | [] => Raise ValueError
    end.

(** A fragment of printf-style formatting by [%], enough for the runs below,
    none of which formats a text: a text without [%] has no place for the
    argument, which is a TypeError.  Every other text is rejected here. *)
Definition text_format_frag (fmt : pyval) (n : Z) : res pyval :=
  match fmt with
  | VStr s =>
      if forallb (λ b, negb (byte_eqb b "%")) (B s) then Raise TypeError
      else Raise ValueError
  | VBytes s =>
      if forallb (λ b, negb (byte_eqb b "%")) s then Raise TypeError
      else Raise ValueError
  | _ => Raise TypeError
  end.

(** A fixed sequence of draws. *)
Definition entropy0 (n : nat) : Z := Z.of_nat n * 2654435761 + 40503.

Definition no_files (path : string) : res bytes := Raise (Exception_ "FileNotFoundError").

(** The fixture the self-test of Media.py writes to its temporary file. *)
Definition fixture : bytes := B
"
PT=0
seq=0x100
<<<<0123>>>>
<<<<4567>>>>

#simulating packet lost
dseq=2
<<<<abc>>>>
<<<<def>>>>
".

(** Repeating a method call. *)
Fixpoint times {S} (n : nat) (m : Eff S unit) : Eff S unit :=
  match n with O => mret () | S n' => m ;; times n' m end.

(** A stream object holding the three attributes the default [nextparams]
    touches. *)
Definition counters (seq TS numsamples : Z) : stream :=
  mkStream RTPStream
    (<["seq":=VInt seq]> (<["TS":=VInt TS]> (<["numsamples":=VInt numsamples]> ∅))) 0.

(** ** Vocabulary of the statements *)

(** Byte [i] of a datagram, zero when the datagram is shorter. *)
Definition octet (buf : bytes) (i : nat) : Z := byte_val (default "000"%byte (buf !! i)).

Definition be16 (a b : Z) : Z := a * 256 + b.
Definition be32 (a b c d : Z) : Z := ((a * 256 + b) * 256 + c) * 256 + d.

(** The sequence number and timestamp after [n] advances. *)
Definition seq_after (n : nat) (s : Z) : Z := Nat.iter n (λ x, (x + 1) mod 65535) s.
Definition TS_after (n : nat) (ns ts : Z) : Z :=
  Nat.iter n (λ x, (x + ns) mod 4294967295) ts.

(** A line [setparticipantoffer] gets through: a [c=] line needs three
    tokens, an [m=] line a second token that reads as an integer. *)
Definition line_accepted (line : bytes) : bool :=
  (if startswith (B "c=") line then bool_decide (is_Some (split line !! 2%nat)) else true)
  && (if startswith (B "m=") line
      then bool_decide (is_Some (split line !! 1%nat ≫= int_parse is_space))
      else true).

(** The address the lines give: the last [c=] and [m=] lines win. *)
Definition offered_ip (lines : list bytes) (ip : option bytes) : option bytes :=
  fold_left (λ ip line, if startswith (B "c=") line then split line !! 2%nat else ip)
            lines ip.
Definition offered_port (lines : list bytes) (port : option Z) : option Z :=
  fold_left (λ port line,
               if startswith (B "m=") line
               then split line !! 1%nat ≫= int_parse is_space else port)
            lines port.

(** How many of the calls are [stop()]. *)
Fixpoint stops (cs : list call) : nat :=
  match cs with
  | [] => O
  | CallStop :: cs' => S (stops cs')
  | _ :: cs' => stops cs'
  end.

(** What [nextpacket] needs of a random stream, and keeps. *)
Record random_inv (len : Z) (s : stream) : Prop := {
  inv_cls : cls s = RTPRandomStream;
  inv_rtplen : dict s !! "rtplen" = Some (VInt len);
  inv_eof : dict s !! "eof" = Some (VBool false);
  inv_seq : ∃ a, dict s !! "seq" = Some (VInt a);
  inv_TS : ∃ a, dict s !! "TS" = Some (VInt a);
  inv_numsamples : ∃ a, dict s !! "numsamples" = Some (VInt a);
  inv_PT : is_Some (dict s !! "PT");
  inv_SSRC : is_Some (dict s !! "SSRC");
  inv_period : is_Some (dict s !! "period");
  inv_nextpacket : dict s !! "nextpacket" = None;
  inv_nextpayload : dict s !! "nextpayload" = None;
  inv_nextparams : dict s !! "nextparams" = None;
}.

(** The first [n] packets of a stream, each with the period returned with
    it: [n] calls of [nextpacket]. *)
Fixpoint first_packets (entropy : nat → Z) (literal_eval : string → res pyval)
    (text_format : pyval → Z → res pyval) (n : nat) : Eff stream (list (RTP * pyval)) :=
  match n with
  | O => mret []
  | S n' =>
      pk ← nextpacket entropy literal_eval text_format;
      rest ← first_packets entropy literal_eval text_format n';
      mret (pk :: rest)
  end.

(** The deadline [t0] after the durations [ds] have been added to it, one
    after the other. *)
Fixpoint deadline (t0 : float) (ds : list pyval) : res float :=
  match ds with
  | [] => Ok t0
  | d :: ds' => t1 ← float_add t0 d; deadline t1 ds'
  end.

(** The clock readings 10.005, 10.03, 10.09, 10.095 and 11.0. *)
Definition f10_005 : float := float_of_ratio 10005 1000.
Definition f10_03 : float := float_of_ratio 1003 100.
Definition f10_09 : float := float_of_ratio 1009 100.
Definition f10_095 : float := float_of_ratio 10095 1000.
Definition f11 : float := float_of_int 11.

(** A run of the loop: a random stream of four-byte payloads, three
    time-outs read at uneven times, a stray datagram, then the stop. *)
Definition pacing_stream : stream :=
  mkStream RTPRandomStream
    (list_to_map [("PT", VInt 0); ("rtplen", VInt 4);
                  ("codec", VList [VInt 0; VStr "PCMU/8000"; VNone]);
                  ("seq", VInt 7); ("period", VFloat f0_02); ("SSRC", VInt 9);
                  ("TS", VInt 1000); ("numsamples", VInt 160);
                  ("eof", VBool false)]%string) 0.

Definition pacing_turns : list turn :=
  [mkTurn f10 [] None; mkTurn f10_005 [] None; mkTurn f10_03 [Sock (B "x")] None;
   mkTurn f10_09 [] None; mkTurn f10_095 [Childpipe] None; mkTurn f11 [] None].

(** An RTPFile object whose attributes are in place, reading [content]. *)
Definition file_obj (content : bytes) (seq TS SSRC : Z) : stream :=
  mkStream RTPFile
    (list_to_map [("eof", VBool false); ("f", VFile content); ("name", VStr "fixture");
                  ("PT", VNone); ("codec", VList [VNone; VNone; VNone]);
                  ("seq", VInt seq); ("period", VFloat f0_02); ("SSRC", VInt SSRC);
                  ("TS", VInt TS); ("numsamples", VNone)]%string) 0.

(** What a replay shows: sequence number and payload of each packet, with
    [eof] as read after the call. *)
Definition replay (n : nat) (s : stream) : res (list (pyval * bytes * pyval)) :=
  fst ((nextparams literal_eval_frag text_format_frag ;;
        pkts ← nextpackets entropy0 literal_eval_frag text_format_frag n;
        mret ((λ pe : RTP * pyval, (seq pe.1, payload pe.1, pe.2)) <$> pkts)) s).

(** The fixture cut short inside its last payload. *)
Definition fixture_cut : bytes := B
"
PT=0
seq=0x100
<<<<0123>>>>
<<<<4567>>>>

#simulating packet lost
dseq=2
<<<<abc>>>>
<<<<def".

(** One parameter block, read by [nextparams] on an object whose attributes
    are in place: the outcome and the timestamp afterwards. *)
Definition after_block (block : string) (TS : Z) : res unit * option pyval :=
  let '(r, s) :=
    nextparams literal_eval_frag text_format_frag (file_obj (B block ++ B "<<<<") 7 TS 5) in
  (r, dict s !! "TS").

(** Byte 0 for all in-range fields, checked by enumeration. *)
Definition byte0_survives (v p x cc : Z) : bool :=
  match byte_of_Z (Z.lor (Z.lor (Z.lor (Z.shiftl v 6) (Z.shiftl p 5)) (Z.shiftl x 4)) cc) with
  | Some b =>
      let h := struct.signed_char b in
      (Z.shiftr h 6 =? (if v <? 2 then v else v - 4))
      && (Z.land (Z.shiftr h 5) 1 =? p) && (Z.land (Z.shiftr h 4) 1 =? x)
      && (Z.land h 15 =? cc)
  | None => false
  end.

Definition byte1_survives (m pt : Z) : bool :=
  match byte_of_Z (Z.lor (Z.shiftl m 7) pt) with
  | Some b =>
      let h := struct.signed_char b in
      (Z.shiftr h 7 =? - m) && (Z.land h 127 =? pt)
  | None => false
  end.

(** The values [tobytes] stores in bytes 0 and 1 of the header. *)
Definition hdr0 (v p x cc : Z) : Z :=
  Z.lor (Z.lor (Z.lor (Z.shiftl v 6) (Z.shiftl p 5)) (Z.shiftl x 4)) cc.
Definition hdr1 (m pt : Z) : Z := Z.lor (Z.shiftl m 7) pt.

(** Bytes 0 and 1 as [tobytes] rebuilds them from what [frombytes] read. *)
Definition rebuilt0 (b : byte) : Z :=
  let h := struct.signed_char b in
  hdr0 (Z.shiftr h 6) (Z.land (Z.shiftr h 5) 1) (Z.land (Z.shiftr h 4) 1) (Z.land h 15).
Definition rebuilt1 (b : byte) : Z :=
  let h := struct.signed_char b in
  hdr1 (Z.shiftr h 7) (Z.land h 127).

(** [mark] ends no non-empty prefix of [l] shorter than [n] bytes. *)
Definition no_mark_before (mark l : bytes) (n : nat) : bool :=
  forallb (λ j, negb (endswith mark (take j l))) (List.seq 1 (n - 1)%nat).

(** The endpoint after a series of calls, an exception of one call not
    keeping the collaborator from making the next. *)
Definition after_calls (cs : list call) (self : Media) : Media :=
  fold_left (λ s c, snd (do_call c s)) cs self.

(** The remote addresses among the messages sent down the pipe. *)
Definition addresses (msgs : list pipe_msg) : list (bytes * Z) := omap id msgs.

(** What holds of an endpoint at all times: nothing is sent before
    transmission starts, at most one address is ever sent, and it is the
    address the endpoint holds. *)
Definition address_sent_once (self : Media) : Prop :=
  match addresses (pipe self) with
  | [] => True
  | [(ip, port)] =>
      transmitting self = true ∧ remoteip self = Some ip ∧ remoteport self = Some port
  | _ => False
  end.

(** The time-out a turn passes to [wait], given the worker's state. *)
Definition sleep_of (t : turn) (w : worker) : pyval :=
  match rtp w with
  | None => VNone
  | Some _ =>
      if fle (wakeuptime w) (currenttime t) then VInt 0
      else VFloat (fsub (wakeuptime w) (currenttime t))
  end.

(** A time-out is right for a worker with or without a stream: [None]
    without; with one the integer 0, or a float that is not below zero: it
    is zero or more, or it is a NaN. *)
Definition sleep_ok (has_stream : bool) (v : pyval) : Prop :=
  match v with
  | VNone => has_stream = false
  | VInt z => has_stream = true ∧ z = 0
  | VFloat x => has_stream = true ∧ (is_nan x = true ∨ fle f0 x = true)
  | _ => False
  end.

(** The pipe from the controller is among the objects. *)
Definition stop_among (objs : list ready_obj) : bool :=
  existsb (λ obj, match obj with Childpipe => true | Sock _ => false end) objs.

(** The datagrams among the objects. *)
Definition datagrams (objs : list ready_obj) : list bytes :=
  omap (λ obj, match obj with Sock buf => Some buf | Childpipe => None end) objs.

(** The datagrams that arrive while the loop runs: those of every turn up
    to the first one in which [wait] raises (none in that turn) or the pipe
    is ready (that turn included). *)
Fixpoint arrivals (turns : list turn) : list bytes :=
  match turns with
  | [] => []
  | t :: rest =>
      match wait t with
      | Raise _ => []
      | Ok objs => datagrams objs ++ (if stop_among objs then [] else arrivals rest)
      end
  end.

(** How a loop ends in which nothing but [wait] raises. *)
Fixpoint wait_outcome (turns : list turn) : res unit :=
  match turns with
  | [] => Ok ()
  | t :: rest =>
      match wait t with
      | Raise e => Raise e
      | Ok objs => if stop_among objs then Ok () else wait_outcome rest
      end
  end.

(** The turns whose wait ended by time-out. *)
Definition timeouts (turns : list turn) : list turn :=
  filter (λ t, ready t = []) turns.

(** The packets [frombytes] makes of datagrams. *)
Definition decoded (bufs : list bytes) : list RTP :=
  omap (λ buf, match RTP_frombytes buf with Ok p => Some p | Raise _ => None end) bufs.

(** The worker after the ready objects [objs] have been handled. *)
Definition drained_by (objs : list ready_obj) (w : worker) : worker :=
  mkWorker (rtp w) (wakeuptime w) (running w && negb (stop_among objs)) (sleeps w)
           (sent w) (received w ++ decoded (datagrams objs)).

Section Steps.

Variable entropy : nat → Z.
Variable literal_eval : string → res pyval.
Variable text_format : pyval → Z → res pyval.

(** What a turn of the loop does, case by case: how it ends and the state
    it leaves. *)
Inductive turn_step (t : turn) (w : worker) : res unit → worker → Prop :=
  | wait_raises e :
      wait t = Raise e →
      turn_step t w (Raise e) (log_sleep (sleep_of t w) w)
  | objects_ready objs :
      wait t = Ok objs → objs ≠ [] →
      turn_step t w (Ok ()) (drained_by objs (log_sleep (sleep_of t w) w))
  | no_stream :
      wait t = Ok [] → rtp w = None →
      turn_step t w (Raise (AttributeError "eof")) (log_sleep (sleep_of t w) w)
  | no_eof s :
      wait t = Ok [] → rtp w = Some s → dict s !! "eof" = None →
      turn_step t w (Raise (AttributeError "eof")) (log_sleep (sleep_of t w) w)
  | at_eof s v :
      wait t = Ok [] → rtp w = Some s → dict s !! "eof" = Some v → truth v = true →
      turn_step t w (Ok ()) (log_sleep (sleep_of t w) w)
  | nextpacket_raises s v e s' :
      wait t = Ok [] → rtp w = Some s → dict s !! "eof" = Some v → truth v = false →
      nextpacket entropy literal_eval text_format s = (Raise e, s') →
      turn_step t w (Raise e) (set_rtp (Some s') (log_sleep (sleep_of t w) w))
  | tobytes_raises s v p d s' e :
      wait t = Ok [] → rtp w = Some s → dict s !! "eof" = Some v → truth v = false →
      nextpacket entropy literal_eval text_format s = (Ok (p, d), s') →
      RTP_tobytes p = Raise e →
      turn_step t w (Raise e) (set_rtp (Some s') (log_sleep (sleep_of t w) w))
  | add_raises s v p d s' buf e :
      wait t = Ok [] → rtp w = Some s → dict s !! "eof" = Some v → truth v = false →
      nextpacket entropy literal_eval text_format s = (Ok (p, d), s') →
      RTP_tobytes p = Ok buf →
      float_add (wakeuptime w) d = Raise e →
      turn_step t w (Raise e)
        (sendto buf (set_rtp (Some s') (log_sleep (sleep_of t w) w)))
  | packet_sent s v p d s' buf x :
      wait t = Ok [] → rtp w = Some s → dict s !! "eof" = Some v → truth v = false →
      nextpacket entropy literal_eval text_format s = (Ok (p, d), s') →
      RTP_tobytes p = Ok buf →
      float_add (wakeuptime w) d = Ok x →
      turn_step t w (Ok ())
        (set_wakeuptime x (sendto buf (set_rtp (Some s') (log_sleep (sleep_of t w) w)))).

End Steps.

(** A float with the sign [s]: not a NaN. *)
Definition has_sign (s : bool) (x : float) : Prop :=
  match x with
  | S754_nan => False
  | S754_zero s' | S754_infinity s' | S754_finite s' _ _ => s' = s
  end.

(** The schedule kept with the packets [pkts] of the stream, from the first
    clock reading [t0]: each datagram sent is the encoding of its packet and
    left under the deadline that the periods of the packets before it add up
    to; the deadline in force is the one all the periods add up to, unless
    the loop ended on the exception of adding the last one. *)
Record paced (t0 : float) (r : res unit) (w : worker) (pkts : list (RTP * pyval)) : Prop := {
  paced_encoded : Forall2 (λ snt pk, RTP_tobytes pk.1 = Ok snt.2) (sent w) pkts;
  paced_sent : ∀ k snt, sent w !! k = Some snt →
                        deadline t0 (take k pkts.*2) = Ok snt.1;
  paced_wakeuptime :
    deadline t0 pkts.*2 = Ok (wakeuptime w)
    ∨ ∃ e pre last, r = Raise e ∧ pkts.*2 = pre ++ [last]
                    ∧ deadline t0 pre = Ok (wakeuptime w)
                    ∧ float_add (wakeuptime w) last = Raise e;
}.

Section OnSchedule.

Variable entropy : nat → Z.
Variable literal_eval : string → res pyval.
Variable text_format : pyval → Z → res pyval.
Variable s0 : stream.
Variable t0 : float.

(** While the loop runs: the stream is where the packets sent so far have
    left it, and the schedule is kept. *)
Definition on_schedule (w : worker) : Prop :=
  ∃ pkts sk, rtp w = Some sk
             ∧ first_packets entropy literal_eval text_format (length (sent w)) s0
               = (Ok pkts, sk)
             ∧ paced t0 (Ok ()) w pkts.

(** When it has ended. *)
Definition was_on_schedule (r : res unit) (w : worker) : Prop :=
  ∃ pkts s', first_packets entropy literal_eval text_format (length (sent w)) s0
             = (Ok pkts, s')
             ∧ paced t0 r w pkts.

End OnSchedule.

(** Three waits that end by time-out. *)
Definition three_timeouts : list turn :=
  [mkTurn f10 [] None; mkTurn f10_03 [] None; mkTurn f10_09 [] None].

(** A stream as [RTPStream.__init__] leaves it for PCMU: [eof] is set. *)
Definition ended_stream : stream :=
  mkStream RTPStream
    (list_to_map [("PT", VInt 0); ("rtplen", VInt 4);
                  ("codec", VList [VInt 0; VStr "PCMU/8000"; VNone]);
                  ("seq", VInt 7); ("period", VFloat f0_02); ("SSRC", VInt 9);
                  ("TS", VInt 1000); ("numsamples", VInt 160);
                  ("eof", VBool true)]%string) 0.

(** The sample count [RTPStream.__init__] derives from a codec name and the
    default period of 20 ms. *)
Definition samples_of (name : string) : res Z :=
  fields ← split_slash (VStr name);
  field ← item fields 1;
  samplingrate ← int_of_str field;
  product ← py_mul_int samplingrate (VFloat f0_02);
  py_int product.

(** The attributes of a random stream just built for payload type [pt]
    with no keyword argument, after three draws from [entropy]. *)
Definition fresh_random_dict (entropy : nat → Z) (pt : Z) (name : string)
    (rtplen : pyval) (numsamples : Z) (r0 : nat) : gmap string pyval :=
  <["eof":=VBool false]> (<["eof":=VBool true]> (<["numsamples":=VInt numsamples]>
  (<["numsamples":=VNone]> (<["TS":=VInt (0 + entropy (S (S r0)) mod (4294967295 - 0 + 1))]>
  (<["SSRC":=VInt (0 + entropy (S r0) mod (4294967295 - 0 + 1))]>
  (<["period":=VFloat f0_02]> (<["seq":=VInt (0 + entropy r0 mod (65535 - 0 + 1))]>
  (<["codec":=VList [VInt pt; VStr name; VNone]]> (<["rtplen":=rtplen]>
  (<["PT":=VInt pt]> ∅)))))))))).

(** The packets of a stream all encode, to 12 bytes more than [len]. *)
Definition all_encode (len : nat) (pkts : list (RTP * pyval)) : Prop :=
  Forall (λ pe, ∃ buf, RTP_tobytes pe.1 = Ok buf ∧ length buf = (12 + len)%nat) pkts.

(** What [nextpacket] needs of a random stream for its packets to encode. *)
Record encodable (len : Z) (s : stream) : Prop := {
  enc_inv : random_inv len s;
  enc_PT : ∃ pt, dict s !! "PT" = Some (VInt pt) ∧ 0 <= pt < 128;
  enc_seq : ∃ a, dict s !! "seq" = Some (VInt a) ∧ 0 <= a < 2 ^ 16;
  enc_TS : ∃ a, dict s !! "TS" = Some (VInt a) ∧ 0 <= a < 2 ^ 32;
  enc_SSRC : ∃ a, dict s !! "SSRC" = Some (VInt a) ∧ 0 <= a < 2 ^ 32;
}.

(** ** Media.localoffer *)

(** The byte of a decimal digit. *)
Definition digit_byte (d : Z) : byte := default "0"%byte (byte_of_Z (48 + d)).

(** The decimal digits of [z >= 0] put before [acc]; [fuel] bounds their number. *)
Fixpoint digits_of (fuel : nat) (z : Z) (acc : bytes) : bytes :=
  match fuel with
  | O => acc
  | S fuel' =>
      let acc := digit_byte (z mod 10) :: acc in
      if z <? 10 then acc else digits_of fuel' (z / 10) acc
  end.

(** [str(z)] for an integer. *)
Definition str_int (z : Z) : bytes :=
  if z <? 0 then "-"%byte :: digits_of (S (Z.to_nat (Z.log2 (- z)))) (- z) []
  else digits_of (S (Z.to_nat (Z.log2 z))) z [].

(** [sep.join(xs)] *)
Fixpoint join (sep : bytes) (xs : list bytes) : bytes :=
  match xs with
  | [] => []
  | [x] => x
  | x :: xs' => x ++ sep ++ join sep xs'
  end.

(** The attributes of a Media object that [localoffer] reads: the local
    address (the port as bound), the owner, and the codecs as triples of
    payload type, name and format. *)
Record MediaLocal : Type := mkMediaLocal {
  localip : string;
  localport : Z;
  owner : string;
  codecs : list (pyval * pyval * pyval);
}.

(** The codec list [Media.__init__] builds when no stream is given: the
    default table in the order it is written. *)
Definition default_codecs : list (pyval * pyval * pyval) :=
  (λ kn : Z * string, (VInt kn.1, VStr kn.2, VNone))
  <$> [(0, "PCMU/8000"); (3, "GSM/8000"); (4, "G723/8000"); (5, "DVI4/8000");
       (6, "DVI4/16000"); (7, "LPC/8000"); (8, "PCMA/8000"); (9, "G722/8000");
       (10, "L16/44100/2"); (11, "L16/44100/1"); (12, "QCELP/8000");
       (13, "CN/8000"); (14, "MPA/90000"); (15, "G728/8000"); (16, "DVI4/11025");
       (17, "DVI4/22050"); (18, "G729/8000")]%string.

Section LocalOffer.

(** [str(v)] as [format] puts a codec field into the text. *)
Variable str_of : pyval → string.

(** The lines of the offer, for the session number [sid] drawn by
    [random.randint(0, 0xffffffff)]. *)
Definition sdplines (sid : Z) (self : MediaLocal) : list bytes :=
  [ B "v=0";
    B "o=- " ++ str_int sid ++ B " " ++ str_int sid ++ B " IN IP4 " ++ B (owner self);
    B "s=-";
    B "c=IN IP4 " ++ B (localip self);
    B "t=0 0";
    B "m=audio " ++ str_int (localport self) ++ B " RTP/AVP "
      ++ join (B " ") ((λ c : pyval * pyval * pyval, B (str_of c.1.1)) <$> codecs self);
    B "a=sendrecv" ]
  ++ ((λ c : pyval * pyval * pyval, B "a=rtpmap:" ++ B (str_of c.1.1) ++ B " " ++ B (str_of c.1.2))
        <$> filter (λ c : pyval * pyval * pyval, truth c.1.2 = true) (codecs self))
  ++ ((λ c : pyval * pyval * pyval, B "a=fmtp:" ++ B (str_of c.1.1) ++ B " " ++ B (str_of c.2))
        <$> filter (λ c : pyval * pyval * pyval, truth c.2 = true) (codecs self))
  ++ [B ""].

Definition localoffer (sid : Z) (self : MediaLocal) : string :=
  String.string_of_list_byte (join CRLF (sdplines sid self)).

End LocalOffer.

(** No CR and no LF among the bytes. *)
Definition one_line (l : bytes) : bool :=
  forallb (λ b, negb (byte_eqb b "010" || byte_eqb b "013")) l.

(** No whitespace among the bytes. *)
Definition no_space (l : bytes) : bool := forallb (λ b, negb (is_space b)) l.

(** [str] on integers, strings and None; other values are not rendered here. *)
Definition str_frag (v : pyval) : string :=
  match v with
  | VInt z => String.string_of_list_byte (str_int z)
  | VStr s => s
  | VNone => "None"
  | VBool true => "True"
  | VBool false => "False"
  | _ => "?"
  end.

Definition is_digit (b : byte) : bool := bool_decide (48 <= byte_val b <= 57).

(** A line that is neither a [c=] nor an [m=] line. *)
Definition other_line (l : bytes) : bool :=
  negb (startswith (B "c=") l) && negb (startswith (B "m=") l).

(** Every field of the codec is rendered without a line break. *)
Definition codec_one_line (str_of : pyval → string) (c : pyval * pyval * pyval) : bool :=
  one_line (B (str_of c.1.1)) && one_line (B (str_of c.1.2)) && one_line (B (str_of c.2)).

(** * Properties *)

(** ** The packet codec *)

Lemma signed_char_version (b : byte) :
  Z.shiftr (struct.signed_char b) 6
  = byte_val b / 64 - (if byte_val b <? 128 then 0 else 4).
Proof. destruct b; reflexivity. Qed.

Lemma signed_char_P (b : byte) :
  Z.land (Z.shiftr (struct.signed_char b) 5) 1 = (byte_val b / 32) mod 2.
Proof. destruct b; reflexivity. Qed.

Lemma signed_char_X (b : byte) :
  Z.land (Z.shiftr (struct.signed_char b) 4) 1 = (byte_val b / 16) mod 2.
Proof. destruct b; reflexivity. Qed.

Lemma signed_char_CC (b : byte) :
  Z.land (struct.signed_char b) 15 = byte_val b mod 16.
Proof. destruct b; reflexivity. Qed.

Lemma signed_char_M (b : byte) :
  Z.shiftr (struct.signed_char b) 7 = (if byte_val b <? 128 then 0 else -1).
Proof. destruct b; reflexivity. Qed.

Lemma signed_char_PT (b : byte) :
  Z.land (struct.signed_char b) 127 = byte_val b mod 128.
Proof. destruct b; reflexivity. Qed.

(** What [RTP.frombytes] returns, for every byte string. *)
Lemma frombytes_fields (buf : bytes) :
  let u := octet buf in
  RTP_frombytes buf =
    Ok {| payload := drop 12 buf;
          PT := VInt (u 1%nat mod 128);
          seq := VInt (be16 (u 2%nat) (u 3%nat));
          TS := VInt (be32 (u 4%nat) (u 5%nat) (u 6%nat) (u 7%nat));
          SSRC := VInt (be32 (u 8%nat) (u 9%nat) (u 10%nat) (u 11%nat));
          version := VInt (u 0%nat / 64 - (if u 0%nat <? 128 then 0 else 4));
          P := VInt ((u 0%nat / 32) mod 2);
          X := VInt ((u 0%nat / 16) mod 2);
          CC := VInt (u 0%nat mod 16);
          M := VInt (if u 1%nat <? 128 then 0 else -1) |}.
Proof.
  intros u. subst u. unfold octet.
  rewrite <- signed_char_version, <- signed_char_P, <- signed_char_X,
    <- signed_char_CC, <- signed_char_M, <- signed_char_PT.
  do 12 (destruct buf as [|? buf]; [reflexivity|]).
  reflexivity.
Qed.

Lemma octet_range (buf : bytes) (i : nat) : 0 <= octet buf i < 256.
Proof.
  unfold octet, byte_val. pose proof (Byte.to_N_bounded (default "000"%byte (buf !! i))).
  lia.
Qed.

(** C8: [RTP.frombytes] returns a packet for every byte string, also one
    shorter than 12 bytes, a missing header byte reading as zero; padding,
    extension, CSRC count, payload type, sequence number, timestamp and SSRC
    are the header fields of bytes 0 through 11, and the payload is
    everything from offset 12 on.  The version and the marker are not: bytes
    0 and 1 are unpacked as signed, so the version is the two top bits of
    byte 0 only when they are 0 or 1 (versions 2 and 3, every byte 0 from 0x80
    on, are returned as -2 and -1), and the marker is the top bit of byte 1
    only when it is clear (a set marker is returned as -1).  The first four
    bytes of an RTP version 2 packet with the marker set show both. *)
Theorem frombytes_sign_extends (buf : bytes) :
  let u := octet buf in
  (∃ p, RTP_frombytes buf = Ok p
        ∧ payload p = drop 12 buf
        ∧ P p = VInt ((u 0%nat / 32) mod 2)
        ∧ X p = VInt ((u 0%nat / 16) mod 2)
        ∧ CC p = VInt (u 0%nat mod 16)
        ∧ PT p = VInt (u 1%nat mod 128)
        ∧ seq p = VInt (be16 (u 2%nat) (u 3%nat))
        ∧ TS p = VInt (be32 (u 4%nat) (u 5%nat) (u 6%nat) (u 7%nat))
        ∧ SSRC p = VInt (be32 (u 8%nat) (u 9%nat) (u 10%nat) (u 11%nat))
        ∧ version p = VInt (u 0%nat / 64 - (if u 0%nat <? 128 then 0 else 4))
        ∧ M p = VInt (if u 1%nat <? 128 then 0 else -1)
        ∧ (version p = VInt (u 0%nat / 64) ↔ u 0%nat < 128)
        ∧ (M p = VInt (u 1%nat / 128) ↔ u 1%nat < 128))
  ∧ version <$> RTP_frombytes ["128"; "224"; "018"; "000"]%byte = Ok (VInt (-2))
  ∧ M <$> RTP_frombytes ["128"; "224"; "018"; "000"]%byte = Ok (VInt (-1)).
Proof.
  intros u. split; [|split; reflexivity].
  pose proof (frombytes_fields buf) as H. cbv zeta in H. fold u in H.
  pose proof (octet_range buf 0) as H0. pose proof (octet_range buf 1) as H1.
  fold u in H0, H1.
  eexists. split; [exact H|]. cbn [payload P X CC PT seq TS SSRC version M].
  do 10 (split; [reflexivity|]). split.
  - destruct (Z.ltb_spec (u 0%nat) 128) as [Hlt|Hge].
    + split; [done|]. intros _. f_equal. lia.
    + split; [|lia]. intros [= Heq]. lia.
  - destruct (Z.ltb_spec (u 1%nat) 128) as [Hlt|Hge].
    + split; [done|]. intros _. f_equal. symmetry. apply Z.div_small. lia.
    + split; [|lia]. intros [= Heq].
      pose proof (Z.div_pos (u 1%nat) 128 ltac:(lia) ltac:(lia)). lia.
Qed.

(** C1: the encoding of a packet built with the defaults of [RTP.__init__]
    (version 2) does not decode to the same packet: byte 0 is unpacked as a
    signed char, so version 2 comes back as -2.  A set marker bit comes back
    as -1 for the same reason. *)
Theorem default_version_not_reproduced :
  version <$> decode_encode (RTP_new (B "0123") (VInt 0) (VInt 256) (VInt 160) (VInt 7))
    = Ok (VInt (-2))
  ∧ M <$> decode_encode (RTP_of_ints [] 0 0 0 0 1 0 0 0 1) = Ok (VInt (-1)).
Proof. split; reflexivity. Qed.

(** ** What survives the round trip through the wire format *)

Lemma byte_of_Z_ok (z : Z) :
  0 <= z < 256 → ∃ b, byte_of_Z z = Some b ∧ byte_val b = z.
Proof.
  intros Hz. unfold byte_of_Z, byte_val. rewrite decide_True by lia.
  destruct (Byte.of_N (Z.to_N z)) as [b|] eqn:Hb.
  - exists b. split; [done|]. apply Byte.to_of_N in Hb. rewrite Hb. lia.
  - apply Byte.of_N_None_iff in Hb. lia.
Qed.

Lemma be_val_snoc (bs : bytes) (b : byte) :
  struct.be_val (bs ++ [b]) = struct.be_val bs * 256 + byte_val b.
Proof. unfold struct.be_val. by rewrite fold_left_app. Qed.

Lemma be_bytes_val (n : nat) : ∀ z : Z,
  0 <= z < 256 ^ Z.of_nat n →
  ∃ bs, struct.be_bytes n z = Some bs ∧ length bs = n ∧ struct.be_val bs = z.
Proof.
  induction n as [|n IH]; intros z Hz.
  - exists []. cbn in *. repeat split. unfold struct.be_val. cbn. lia.
  - rewrite Nat2Z.inj_succ, Z.pow_succ_r in Hz by lia.
    destruct (IH (z / 256)) as (hi & Hhi & Hlen & Hval).
    { split; [apply Z.div_pos; lia | apply Z.div_lt_upper_bound; lia]. }
    destruct (byte_of_Z_ok (z mod 256)) as (lo & Hlo & Hloval).
    { apply Z.mod_pos_bound. lia. }
    exists (hi ++ [lo]). cbn [struct.be_bytes]. rewrite Hhi, Hlo. cbn.
    split; [done|]. split; [rewrite length_app; cbn; lia|].
    rewrite be_val_snoc, Hval, Hloval.
    pose proof (Z.div_mod z 256). lia.
Qed.

Lemma forallb_seqZ (f : Z → bool) (lo n z : Z) :
  forallb f (seqZ lo n) = true → lo <= z < lo + n → f z = true.
Proof.
  intros Hall Hz. rewrite forallb_forall in Hall. apply Hall.
  apply list_elem_of_In, elem_of_seqZ. lia.
Qed.

Lemma byte0_all (v p x cc : Z) :
  0 <= v < 4 → 0 <= p < 2 → 0 <= x < 2 → 0 <= cc < 16 →
  byte0_survives v p x cc = true.
Proof.
  intros Hv Hp Hx Hcc.
  assert (forallb (λ v, forallb (λ p, forallb (λ x, forallb (λ cc,
            byte0_survives v p x cc) (seqZ 0 16)) (seqZ 0 2)) (seqZ 0 2)) (seqZ 0 4)
          = true) as Hall by (vm_compute; reflexivity).
  apply (forallb_seqZ _ 0 4 v) in Hall; [|lia].
  apply (forallb_seqZ _ 0 2 p) in Hall; [|lia].
  apply (forallb_seqZ _ 0 2 x) in Hall; [|lia].
  apply (forallb_seqZ _ 0 16 cc) in Hall; [done|lia].
Qed.

Lemma byte1_all (m pt : Z) :
  0 <= m < 2 → 0 <= pt < 128 → byte1_survives m pt = true.
Proof.
  intros Hm Hpt.
  assert (forallb (λ m, forallb (λ pt, byte1_survives m pt) (seqZ 0 128)) (seqZ 0 2)
          = true) as Hall by (vm_compute; reflexivity).
  apply (forallb_seqZ _ 0 2 m) in Hall; [|lia].
  apply (forallb_seqZ _ 0 128 pt) in Hall; [done|lia].
Qed.

(** A packet whose fields fit their widths comes back with payload, PT,
    sequence number, timestamp, SSRC, P, X and CC intact; versions 2 and 3
    come back as -2 and -1, and a set marker bit as -1. *)
Lemma decode_encode_fields (data : bytes) (pt sq ts ssrc v p x cc m : Z) :
  0 <= v < 4 → 0 <= p < 2 → 0 <= x < 2 → 0 <= cc < 16 → 0 <= m < 2 →
  0 <= pt < 128 → 0 <= sq < 2 ^ 16 → 0 <= ts < 2 ^ 32 → 0 <= ssrc < 2 ^ 32 →
  decode_encode (RTP_of_ints data pt sq ts ssrc v p x cc m)
  = Ok (RTP_of_ints data pt sq ts ssrc (if v <? 2 then v else v - 4) p x cc (- m)).
Proof.
  intros Hv Hp Hx Hcc Hm Hpt Hsq Hts Hssrc.
  pose proof (byte0_all v p x cc Hv Hp Hx Hcc) as H0.
  pose proof (byte1_all m pt Hm Hpt) as H1.
  unfold byte0_survives in H0. unfold byte1_survives in H1.
  destruct (byte_of_Z (Z.lor (Z.lor (Z.lor _ _) _) _)) as [b0|] eqn:Hb0; [|done].
  destruct (byte_of_Z (Z.lor (Z.shiftl m 7) pt)) as [b1|] eqn:Hb1; [|done].
  cbv zeta in H0, H1.
  apply andb_true_iff in H0 as [[[Hv'%Z.eqb_eq Hp'%Z.eqb_eq]%andb_true_iff
                                   Hx'%Z.eqb_eq]%andb_true_iff Hcc'%Z.eqb_eq].
  apply andb_true_iff in H1 as [Hm'%Z.eqb_eq Hpt'%Z.eqb_eq].
  destruct (be_bytes_val 2 sq) as (fa & Hfa & Hla & Hva); [done|].
  destruct (be_bytes_val 4 ts) as (fb & Hfb & Hlb & Hvb); [done|].
  destruct (be_bytes_val 4 ssrc) as (fc & Hfc & Hlc & Hvc); [done|].
  unfold decode_encode, RTP_tobytes, RTP_of_ints.
  cbn [version P X CC M PT seq TS SSRC payload int_operand as_int require mbind res_bind].
  unfold bytearray_set. rewrite Hb0.
  rewrite decide_True by (cbn; lia).
  cbn [mbind res_bind]. rewrite Hb1.
  rewrite decide_True by (cbn; lia).
  cbn [mbind res_bind replicate insert list_insert].
  unfold struct.pack_into_HLL_at2, struct.pack_unsigned. cbn [as_int].
  rewrite !decide_True by first [done | cbn; lia]. rewrite Hfa, Hfb, Hfc.
  cbn [require mbind res_bind take drop length].
  destruct fa as [|a0 [|a1 [|? ?]]]; try discriminate.
  destruct fb as [|c0 [|c1 [|c2 [|c3 [|? ?]]]]]; try discriminate.
  destruct fc as [|d0 [|d1 [|d2 [|d3 [|? ?]]]]]; try discriminate.
  unfold struct.be_val in Hva, Hvb, Hvc. cbn [fold_left] in Hva, Hvb, Hvc.
  rewrite decide_True by (cbn; lia).
  cbn [mbind res_bind app]. unfold RTP_frombytes.
  cbn [take drop app replicate]. unfold struct.unpack_bbHLL.
  rewrite decide_True by (cbn; lia). unfold struct.be_val.
  cbn [take drop fold_left mbind res_bind].
  rewrite Hva, Hvb, Hvc, Hv', Hp', Hx', Hcc', Hm', Hpt'. reflexivity.
Qed.

(** ** Running stateful code symbolically *)

Lemma bind_ok {S A B} (m : Eff S A) (f : A → Eff S B) s a s' :
  m s = (Ok a, s') → (m ≫= f) s = f a s'.
Proof. intros H. unfold mbind, Eff_bind. by rewrite H. Qed.

Lemma bind_raise {S A B} (m : Eff S A) (f : A → Eff S B) s e s' :
  m s = (Raise e, s') → (m ≫= f) s = (Raise e, s').
Proof. intros H. unfold mbind, Eff_bind. by rewrite H. Qed.

Lemma bind_inv {S A B} (m : Eff S A) (f : A → Eff S B) s b s' :
  (m ≫= f) s = (Ok b, s') → ∃ a s1, m s = (Ok a, s1) ∧ f a s1 = (Ok b, s').
Proof.
  unfold mbind, Eff_bind. destruct (m s) as [[a|e] s1]; [eauto | discriminate].
Qed.

Lemma getattr_ok name s v : dict s !! name = Some v → getattr name s = (Ok v, s).
Proof. intros H. unfold getattr. by rewrite H. Qed.

Ltac lookup_attr :=
  cbn [dict cls random];
  repeat first [ rewrite lookup_insert_eq | rewrite lookup_insert_ne by done ];
  first [ eassumption | reflexivity ].

Ltac run_step :=
  erewrite bind_ok; [ | first [ apply getattr_ok; lookup_attr | reflexivity ] ].

Lemma method_ok {A} (name : string) (body : Eff stream A) (s : stream) :
  dict s !! name = None → method name body s = body s.
Proof. intros H. unfold method. by rewrite H. Qed.

Lemma getattr_inv name (s s' : stream) v :
  getattr name s = (Ok v, s') → s' = s ∧ dict s !! name = Some v.
Proof. unfold getattr. destruct (dict s !! name); cbn; intros; by simplify_eq. Qed.

Lemma lift_inv {S A} (r : res A) (s s' : S) a :
  lift r s = (Ok a, s') → s' = s ∧ r = Ok a.
Proof. unfold lift. intros; by simplify_eq. Qed.

Lemma bind_assoc {S A B C} (m : Eff S A) (f : A → Eff S B) (g : B → Eff S C) s :
  ((m ≫= f) ≫= g) s = (m ≫= λ a, f a ≫= g) s.
Proof. unfold mbind, Eff_bind. by destruct (m s) as [[a|e] s1]. Qed.

Ltac run := repeat (first [ rewrite bind_assoc | run_step ]; cbn [cls dict random]).

Lemma bind_cases {S A B} (m : Eff S A) (f : A → Eff S B) s r s' :
  (m ≫= f) s = (r, s') →
  (∃ a s1, m s = (Ok a, s1) ∧ f a s1 = (r, s'))
  ∨ (∃ e, m s = (Raise e, s') ∧ r = Raise e).
Proof.
  unfold mbind, Eff_bind. destruct (m s) as [[a|e] s1]; intros H.
  - left. eauto.
  - right. exists e. by simplify_eq.
Qed.

(** ** The default [nextparams] *)

Lemma nextparams_step (text_format : pyval → Z → res pyval) (st : stream) (s ts ns : Z) :
  dict st !! "seq" = Some (VInt s) →
  dict st !! "TS" = Some (VInt ts) →
  dict st !! "numsamples" = Some (VInt ns) →
  RTPStream_nextparams text_format st
  = (Ok (), mkStream (cls st)
              (<["seq":=VInt ((s + 1) mod 65535)]>
                 (<["TS":=VInt ((ts + ns) mod 4294967295)]> (dict st)))
              (random st)).
Proof.
  intros Hs Ht Hn. unfold RTPStream_nextparams.
  repeat run_step. reflexivity.
Qed.

Lemma nextparams_times (text_format : pyval → Z → res pyval) (n : nat) :
  ∀ (st : stream) (s ts ns : Z),
  dict st !! "seq" = Some (VInt s) →
  dict st !! "TS" = Some (VInt ts) →
  dict st !! "numsamples" = Some (VInt ns) →
  ∃ st', times n (RTPStream_nextparams text_format) st = (Ok (), st')
         ∧ dict st' !! "seq" = Some (VInt (seq_after n s))
         ∧ dict st' !! "TS" = Some (VInt (TS_after n ns ts))
         ∧ dict st' !! "numsamples" = Some (VInt ns).
Proof.
  induction n as [|n IH]; intros st s ts ns Hs Ht Hn.
  - exists st. by repeat split.
  - cbn [times]. erewrite bind_ok by (by apply nextparams_step).
    edestruct (IH (mkStream (cls st)
                     (<["seq":=VInt ((s + 1) mod 65535)]>
                        (<["TS":=VInt ((ts + ns) mod 4294967295)]> (dict st)))
                     (random st)))
      as (st' & Hrun & Hs' & Ht' & Hn'); [lookup_attr..|].
    exists st'. rewrite Hrun. repeat split; [| |done].
    + rewrite Hs'. unfold seq_after. by rewrite Nat.iter_succ_r.
    + rewrite Ht'. unfold TS_after. by rewrite Nat.iter_succ_r.
Qed.

Lemma seq_after_succ (n : nat) (s : Z) :
  seq_after (S n) s = (s + Z.of_nat (S n)) mod 65535.
Proof.
  induction n as [|n IH].
  - reflexivity.
  - change (seq_after (S (S n)) s) with ((seq_after (S n) s + 1) mod 65535).
    rewrite IH, Zplus_mod_idemp_l. f_equal. lia.
Qed.

Lemma seq_after_pos (n : nat) (s : Z) :
  (0 < n)%nat → seq_after n s = (s + Z.of_nat n) mod 65535.
Proof. destruct n; [lia|]. intros _. apply seq_after_succ. Qed.

(** C2: the default [nextparams] reduces modulo 0xffff and 0xffffffff, not
    2^16 and 2^32.  Whatever 16-bit sequence number a stream starts from,
    after exactly 65536 advances it holds the successor modulo 65535, never
    the starting value; and a timestamp 160 samples below 2^32 - 1 advances
    to 0, where reduction modulo 2^32 gives 2^32 - 1. *)
Theorem seq_not_restored_after_65536
    (text_format : pyval → Z → res pyval) (st : stream) (s ts ns : Z) :
  0 <= s < 65536 →
  dict st !! "seq" = Some (VInt s) →
  dict st !! "TS" = Some (VInt ts) →
  dict st !! "numsamples" = Some (VInt ns) →
  (∃ st', times (Z.to_nat 65536) (RTPStream_nextparams text_format) st = (Ok (), st')
          ∧ dict st' !! "seq" = Some (VInt ((s + 1) mod 65535))
          ∧ (s + 1) mod 65535 ≠ s)
  ∧ (dict (snd (RTPStream_nextparams text_format (counters 0 4294967135 160))) !! "TS"
     = Some (VInt 0)
     ∧ (4294967135 + 160) mod 2 ^ 32 = 4294967295).
Proof.
  intros Hr Hs Ht Hn. split; [|split; reflexivity].
  destruct (nextparams_times text_format (Z.to_nat 65536) st s ts ns Hs Ht Hn)
    as (st' & Hrun & Hs' & _).
  exists st'. split; [done|].
  rewrite seq_after_pos in Hs' by (apply Nat2Z.inj_lt; by rewrite Z2Nat.id).
  rewrite Z2Nat.id in Hs' by done.
  replace ((s + 65536) mod 65535) with ((s + 1) mod 65535) in Hs'.
  - split; [done|].
    destruct (decide (s + 1 < 65535)).
    + rewrite Z.mod_small by lia. lia.
    + assert (s = 65534 ∨ s = 65535) as [-> | ->] by lia; discriminate.
  - replace (s + 65536) with (s + 1 + 1 * 65535) by lia.
    by rewrite Z_mod_plus_full.
Qed.

Lemma seq_not_restored_after_65536_witness :
  ∃ st', times (Z.to_nat 65536) (RTPStream_nextparams text_format_frag) (counters 0 0 160)
         = (Ok (), st')
         ∧ dict st' !! "seq" = Some (VInt 1).
Proof.
  destruct (seq_not_restored_after_65536 text_format_frag (counters 0 0 160) 0 0 160)
    as [(st' & Hrun & Hs & _) _]; [lia | reflexivity..|].
  exists st'. split; [exact Hrun | exact Hs].
Defined.

(** ** The controller: SDP answer and start of transmission *)

Lemma offer_line_accepted (line : bytes) (self : Media) :
  line_accepted line = true →
  offer_line line self
  = (Ok (), mkMedia (offered_ip [line] (remoteip self))
                    (offered_port [line] (remoteport self))
                    (transmitting self) (pipe self)).
Proof.
  unfold line_accepted, offer_line, offered_ip, offered_port. cbn [fold_left].
  intros [Hc Hm]%andb_true_iff. destruct self as [ip port tx out].
  destruct (startswith (B "c=") line), (startswith (B "m=") line);
    repeat match goal with
      | H : bool_decide _ = true |- _ => apply bool_decide_eq_true in H; destruct H as [? H]
      end;
    unfold mbind, Eff_bind, lift, modify, mret, Eff_ret, item, int_of_bytes; cbn.
  - destruct (split line !! 1%nat) as [tok|] eqn:Et; [|discriminate].
    cbn in Hm. rewrite Hc. cbn. rewrite Hm. reflexivity.
  - rewrite Hc. reflexivity.
  - destruct (split line !! 1%nat) as [tok|] eqn:Et; [|discriminate].
    cbn in Hm. cbn. rewrite Hm. reflexivity.
  - reflexivity.
Qed.

Lemma offer_line_rejected (line : bytes) (self : Media) :
  line_accepted line = false →
  ∃ e self', offer_line line self = (Raise e, self') ∧ (e = IndexError ∨ e = ValueError).
Proof.
  unfold line_accepted, offer_line. intros H.
  unfold mbind, Eff_bind, lift, modify, mret, Eff_ret, item, int_of_bytes.
  destruct (startswith (B "c=") line), (startswith (B "m=") line);
    cbn in H; try discriminate.
  - destruct (split line !! 2%nat) as [ip|] eqn:Eip; cbn; [|eauto].
    rewrite bool_decide_eq_true_2 in H by eauto. cbn in H.
    apply bool_decide_eq_false in H.
    destruct (split line !! 1%nat) as [tok|]; cbn; [|eauto].
    destruct (int_parse is_space tok) eqn:Ep; cbn; [|eauto].
    destruct H. cbn. rewrite Ep. eauto.
  - rewrite andb_true_r in H. apply bool_decide_eq_false in H.
    destruct (split line !! 2%nat) as [ip|] eqn:Eip; cbn; [|eauto].
    destruct H. eauto.
  - apply bool_decide_eq_false in H. cbn.
    destruct (split line !! 1%nat) as [tok|]; cbn; [|eauto].
    destruct (int_parse is_space tok) eqn:Ep; cbn; [|eauto].
    destruct H. cbn. rewrite Ep. eauto.
Qed.

Lemma offer_lines (lines : list bytes) : ∀ self : Media,
  if forallb line_accepted lines
  then for_each lines offer_line self
       = (Ok (), mkMedia (offered_ip lines (remoteip self))
                         (offered_port lines (remoteport self))
                         (transmitting self) (pipe self))
  else ∃ e self', for_each lines offer_line self = (Raise e, self')
                  ∧ (e = IndexError ∨ e = ValueError).
Proof.
  induction lines as [|line lines IH]; intros self.
  - by destruct self.
  - cbn [forallb for_each]. destruct (line_accepted line) eqn:Hl; cbn [andb].
    + erewrite bind_ok by (by apply offer_line_accepted).
      specialize (IH (mkMedia (offered_ip [line] (remoteip self))
                        (offered_port [line] (remoteport self))
                        (transmitting self) (pipe self))).
      destruct (forallb line_accepted lines); exact IH.
    + destruct (offer_line_rejected line self Hl) as (e & self' & Hr & He).
      exists e, self'. by erewrite bind_raise.
Qed.

(** C5, as the code has it: before transmission starts, the call succeeds
    exactly when every [c=] line has a third whitespace token and every
    [m=] line a second token that reads as an integer; it then sets the
    remote IP and port from the last such lines and ignores every other
    line.  On a [c=] or [m=] line that is too short or whose port is not an
    integer the call raises IndexError or ValueError instead. *)
Theorem setparticipantoffer_lines (self : Media) (sdp : bytes) :
  transmitting self = false →
  let lines := splitlines sdp in
  if forallb line_accepted lines
  then setparticipantoffer sdp self
       = (Ok (), mkMedia (offered_ip lines (remoteip self))
                         (offered_port lines (remoteport self))
                         false (pipe self))
  else ∃ e self', setparticipantoffer sdp self = (Raise e, self')
                  ∧ (e = IndexError ∨ e = ValueError).
Proof.
  intros Htx lines. unfold setparticipantoffer. rewrite Htx.
  pose proof (offer_lines lines self) as H. rewrite Htx in H. exact H.
Qed.

Lemma setparticipantoffer_lines_witness :
  setparticipantoffer sdp_answer Media_init
  = (Ok (), mkMedia (Some (B "127.0.0.1")) (Some 12345) false []).
Proof.
  exact (setparticipantoffer_lines Media_init sdp_answer eq_refl).
Defined.

(** C5 as stated fails: an [m=] line without a port, or with a port that
    is not an integer, makes the call raise. *)
Lemma setparticipantoffer_can_fail :
  fst (setparticipantoffer (B "m=audio") Media_init) = Raise IndexError
  ∧ fst (setparticipantoffer (B "m=audio rtp") Media_init) = Raise ValueError
  ∧ fst (setparticipantoffer (B "c=IN IP4") Media_init) = Raise IndexError.
Proof. repeat split; reflexivity. Qed.

(** C7: a second [transmit] changes nothing, neither the fields nor what
    went down the pipe; and once the transmitting flag is set, an SDP answer
    leaves the endpoint, remote IP and port included, as it was. *)
Theorem transmit_twice_offer_after (self : Media) (sdp : bytes) :
  (transmit ;; transmit) self = transmit self
  ∧ (transmitting self = true → setparticipantoffer sdp self = (Ok (), self)).
Proof.
  split.
  - unfold mbind, Eff_bind, transmit.
    destruct self as [[ip|] [port|] [] out]; reflexivity.
  - intros Htx. unfold setparticipantoffer. by rewrite Htx.
Qed.

Lemma transmit_twice_offer_after_witness :
  let self := mkMedia (Some (B "10.0.0.1")) (Some 4000) true [Some (B "10.0.0.1", 4000)] in
  setparticipantoffer sdp_answer self = (Ok (), self).
Proof.
  exact (proj2 (transmit_twice_offer_after
                  (mkMedia (Some (B "10.0.0.1")) (Some 4000) true [Some (B "10.0.0.1", 4000)])
                  sdp_answer) eq_refl).
Defined.

Lemma do_calls_transmitting (cs : list call) : ∀ self : Media,
  transmitting self = true →
  do_calls cs self
  = (Ok (), mkMedia (remoteip self) (remoteport self) true
              (pipe self ++ replicate (stops cs) None)).
Proof.
  unfold do_calls.
  induction cs as [|c cs IH]; intros [ip port tx out] Htx; cbn in Htx; subst tx.
  - cbn. by rewrite app_nil_r.
  - cbn [for_each stops]. destruct c as [sdp| |].
    + erewrite bind_ok by reflexivity. by rewrite IH.
    + erewrite bind_ok by reflexivity. by rewrite IH.
    + erewrite bind_ok by reflexivity. rewrite IH by done.
      cbn. by rewrite <- app_assoc.
Qed.

(** C10: [transmit] with the remote address still unset raises the
    transmitting flag all the same and sends nothing.  From then on an SDP
    answer and a further [transmit] change nothing, and whatever the
    collaborator calls afterwards, the remote IP and port stay as they were
    and only stop requests go down the pipe: the address never reaches the
    worker. *)
Theorem unset_address_stays_unset (self : Media) (cs : list call) :
  transmitting self = false →
  remoteip self = None ∨ remoteport self = None →
  let self1 := snd (transmit self) in
  transmitting self1 = true
  ∧ pipe self1 = pipe self
  ∧ (∀ sdp, setparticipantoffer sdp self1 = (Ok (), self1))
  ∧ transmit self1 = (Ok (), self1)
  ∧ do_calls cs self1
    = (Ok (), mkMedia (remoteip self) (remoteport self) true
                (pipe self ++ replicate (stops cs) None)).
Proof.
  intros Htx Hunset self1.
  assert (self1 = mkMedia (remoteip self) (remoteport self) true (pipe self)) as ->.
  { subst self1. unfold transmit. rewrite Htx.
    destruct self as [[ip|] [port|] tx out]; cbn in *; try reflexivity.
    by destruct Hunset. }
  repeat split. by rewrite do_calls_transmitting.
Qed.

Lemma unset_address_stays_unset_witness :
  do_calls [CallOffer sdp_answer; CallTransmit; CallStop] (snd (transmit Media_init))
  = (Ok (), mkMedia None None true [None]).
Proof.
  exact (proj2 (proj2 (proj2 (proj2
    (unset_address_stays_unset Media_init
       [CallOffer sdp_answer; CallTransmit; CallStop] eq_refl (or_introl eq_refl)))))).
Defined.

(** ** The random stream *)

Section RandomStream.

Variable entropy : nat → Z.
Variable literal_eval : string → res pyval.
Variable text_format : pyval → Z → res pyval.

Lemma random_bytes_ok (n : nat) : ∀ s : stream,
  ∃ bs, random_bytes entropy n s = (Ok bs, mkStream (cls s) (dict s) (n + random s))
        ∧ length bs = n.
Proof.
  induction n as [|n IH]; intros s.
  - exists []. by destruct s.
  - cbn [random_bytes]. erewrite bind_ok by reflexivity.
    destruct (IH (mkStream (cls s) (dict s) (S (random s)))) as (bs & Hbs & Hlen).
    erewrite bind_ok by exact Hbs. eexists. split.
    + cbn. do 3 f_equal. lia.
    + cbn. by rewrite Hlen.
Qed.

Lemma numsamples_from_codec_ok (s s' : stream) :
  numsamples_from_codec s = (Ok (), s') →
  ∃ n, s' = mkStream (cls s) (<["numsamples":=VInt n]> (dict s)) (random s).
Proof.
  unfold numsamples_from_codec. intros H.
  repeat (apply bind_inv in H as (? & ? & Hstep & H);
          first [ apply getattr_inv in Hstep as [-> ?]
                | apply lift_inv in Hstep as [-> ?] ]).
  eexists. by injection H as <-.
Qed.

Lemma init_random_inv (PT : pyval) (len : Z) (r0 : nat) (s : stream) :
  construct RTPRandomStream (RTPRandomStream_init entropy PT (VInt len) ∅) r0 = Ok s →
  random_inv len s.
Proof.
  unfold construct, RTPRandomStream_init, RTPStream_init_call, RTPStream_init.
  rewrite !lookup_empty. cbn [default].
  run.
  destruct (codec_for PT) as [codec|e] eqn:Hcodec;
    [|erewrite bind_raise by reflexivity; discriminate].
  assert (∃ x, codec = VList [PT; x; VNone]) as [name ->].
  { unfold codec_for in Hcodec. destruct (int_key PT) as [k|]; [|discriminate].
    cbn in Hcodec. destruct (k ≫= _); injection Hcodec as <-; eauto. }
  run.
  assert (name = VNone ∨ name ≠ VNone) as [->|Hname]
    by (destruct name; (by left) || (by right)).
  { erewrite bind_raise by reflexivity. discriminate. }
  erewrite bind_ok by (by destruct name).
  run.
  match goal with
  | |- context [try_except numsamples_from_codec ?h] =>
      match goal with
      | |- context [(_ ≫= _) ?st] =>
          destruct (numsamples_from_codec st) as [[[]|e] st'] eqn:Hns
      end
  end.
  - apply numsamples_from_codec_ok in Hns as Hst'. destruct Hst' as [n ->].
    erewrite bind_ok by (unfold try_except; by rewrite Hns).
    run. intros [= <-].
    split; cbn [cls dict random]; try lookup_attr; eauto;
      repeat first [ rewrite lookup_insert_eq | rewrite lookup_insert_ne by done ];
      eauto.
  - erewrite bind_raise by (unfold try_except; by rewrite Hns). discriminate.
Qed.

Lemma nextpacket_random (len : Z) (s : stream) :
  random_inv len s →
  ∃ p period s', nextpacket entropy literal_eval text_format s = (Ok (p, period), s')
                 ∧ length (payload p) = Z.to_nat len
                 ∧ random_inv len s'.
Proof.
  intros [Hcls Hlen Heof [a Ha] [b Hb] [c Hc] [pt Hpt] [ssrc Hssrc] [per Hper] H1 H2 H3].
  unfold nextpacket. rewrite method_ok by done.
  unfold nextpayload.
  destruct (random_bytes_ok (Z.to_nat len) s) as (bs & Hbs & Hbslen).
  erewrite bind_ok.
  2:{ rewrite method_ok by done. rewrite Hcls. unfold RTPRandomStream_nextpayload.
      run. exact Hbs. }
  run.
  erewrite bind_ok.
  2:{ unfold nextparams. rewrite method_ok by done. cbn [cls]. rewrite Hcls.
      by apply nextparams_step. }
  run.
  do 3 eexists. split; [reflexivity|]. split; [done|].
  split; cbn [cls dict random]; try done;
    repeat first [ rewrite lookup_insert_eq | rewrite lookup_insert_ne by done ];
    eauto.
Qed.

Lemma nextpacket_random_period (len : Z) (v : pyval) (s : stream) :
  random_inv len s → dict s !! "period" = Some v →
  ∃ p s', nextpacket entropy literal_eval text_format s = (Ok (p, v), s')
          ∧ random_inv len s' ∧ dict s' !! "period" = Some v.
Proof.
  intros [Hcls Hlen Heof [a Ha] [b Hb] [c Hc] [pt Hpt] [ssrc Hssrc] _ H1 H2 H3] Hper.
  unfold nextpacket. rewrite method_ok by done.
  unfold nextpayload.
  destruct (random_bytes_ok (Z.to_nat len) s) as (bs & Hbs & Hbslen).
  erewrite bind_ok.
  2:{ rewrite method_ok by done. rewrite Hcls. unfold RTPRandomStream_nextpayload.
      run. exact Hbs. }
  run.
  erewrite bind_ok.
  2:{ unfold nextparams. rewrite method_ok by done. cbn [cls]. rewrite Hcls.
      by apply nextparams_step. }
  run.
  do 2 eexists. split; [reflexivity|].
  split; [split|]; cbn [cls dict random]; try done;
    repeat first [ rewrite lookup_insert_eq | rewrite lookup_insert_ne by done ];
    eauto.
Qed.

Lemma nextpackets_random (len : Z) (n : nat) : ∀ s : stream,
  random_inv len s →
  ∃ pkts s', nextpackets entropy literal_eval text_format n s = (Ok pkts, s')
             ∧ length pkts = n
             ∧ Forall (λ pe, length (payload pe.1) = Z.to_nat len ∧ pe.2 = VBool false) pkts.
Proof.
  induction n as [|n IH]; intros s Hinv.
  - exists [], s. by repeat split.
  - destruct (nextpacket_random len s Hinv) as (p & per & s1 & Hp & Hlen & Hinv1).
    destruct (IH s1 Hinv1) as (pkts & s' & Hrun & Hn & Hall).
    exists ((p, VBool false) :: pkts), s'. cbn [nextpackets].
    erewrite bind_ok by exact Hp. cbn beta iota.
    erewrite bind_ok by (apply getattr_ok, Hinv1).
    erewrite bind_ok by exact Hrun.
    repeat split; [by rewrite <- Hn | by constructor].
Qed.

End RandomStream.

(** C9: a random stream built with length 40: each of 20 successive
    [nextpacket] calls returns, its payload has exactly 40 bytes, and [eof]
    reads false after every call. *)
Theorem random_stream_20_packets
    (entropy : nat → Z) (literal_eval : string → res pyval)
    (text_format : pyval → Z → res pyval)
    (PT : pyval) (r0 : nat) (s : stream) :
  construct RTPRandomStream (RTPRandomStream_init entropy PT (VInt 40) ∅) r0 = Ok s →
  ∃ pkts s', nextpackets entropy literal_eval text_format 20 s = (Ok pkts, s')
             ∧ length pkts = 20%nat
             ∧ Forall (λ pe, length (payload pe.1) = 40%nat ∧ pe.2 = VBool false) pkts.
Proof.
  intros Hs%init_random_inv.
  exact (nextpackets_random entropy literal_eval text_format 40 20 s Hs).
Qed.

Lemma random_stream_20_packets_witness :
  ∃ s pkts s',
    construct RTPRandomStream (RTPRandomStream_init entropy0 (VInt 10) (VInt 40) ∅) 0 = Ok s
    ∧ nextpackets entropy0 literal_eval_frag text_format_frag 20 s = (Ok pkts, s')
    ∧ length pkts = 20%nat
    ∧ Forall (λ pe, length (payload pe.1) = 40%nat ∧ pe.2 = VBool false) pkts.
Proof.
  destruct (construct RTPRandomStream (RTPRandomStream_init entropy0 (VInt 10) (VInt 40) ∅) 0)
    as [s|e] eqn:Hs; [|by vm_compute in Hs].
  destruct (random_stream_20_packets entropy0 literal_eval_frag text_format_frag
              (VInt 10) 0%nat s Hs)
    as (pkts & s' & H).
  by exists s, pkts, s'.
Defined.

(** ** The pacing of the sending loop *)

(** *** Facts about floats *)

Lemma pos_iter_xO (m d : positive) : Z.pos (Pos.iter xO m d) = Z.pos m * 2 ^ Z.pos d.
Proof.
  induction d as [|d IH] using Pos.peano_ind.
  - cbn. lia.
  - rewrite Pos.iter_succ, Pos2Z.inj_xO, IH, Pos2Z.inj_succ, Z.pow_succ_r by lia. lia.
Qed.

Lemma shl_align_scaled (m : positive) (e ez : Z) :
  ez <= e → Z.pos (fst (shl_align m e ez)) = Z.pos m * 2 ^ (e - ez).
Proof.
  intros Hle. unfold shl_align. destruct (ez - e) as [|d|d] eqn:Hd; cbn [fst].
  - replace (e - ez) with 0 by lia. lia.
  - lia.
  - rewrite pos_iter_xO. f_equal. f_equal. lia.
Qed.

Lemma shr_1_nonneg (mrs : shr_record) : 0 <= shr_m mrs → 0 <= shr_m (shr_1 mrs).
Proof. destruct mrs as [[|[p|p|]|p] r s]; cbn; lia. Qed.

Lemma iter_shr_1_nonneg (p : positive) : ∀ mrs : shr_record,
  0 <= shr_m mrs → 0 <= shr_m (SpecFloat.iter_pos shr_1 p mrs).
Proof.
  induction p as [p IH|p IH|]; intros mrs H; cbn [SpecFloat.iter_pos].
  - apply IH, IH. by apply shr_1_nonneg.
  - by apply IH, IH.
  - by apply shr_1_nonneg.
Qed.

Lemma shr_fexp_nonneg (m e : Z) (l : location) :
  0 <= m → 0 <= shr_m (fst (shr_fexp 53 1024 m e l)).
Proof.
  intros Hm. unfold shr_fexp, shr.
  assert (0 <= shr_m (shr_record_of_loc m l)) as H0 by (by destruct l as [|[]]).
  destruct (fexp 53 1024 (Zdigits2 m + e) - e); cbn [fst]; [done| |done].
  by apply iter_shr_1_nonneg.
Qed.

Lemma round_nearest_even_nonneg (m : Z) (l : location) :
  0 <= m → 0 <= round_nearest_even m l.
Proof. intros Hm. destruct l as [|[]]; cbn; try destruct (Z.even m); lia. Qed.

(** Rounding keeps the sign. *)
Lemma binary_round_aux_sign (s : bool) (m e : Z) (l : location) :
  0 <= m → has_sign s (binary_round_aux 53 1024 s m e l).
Proof.
  intros Hm. unfold binary_round_aux.
  pose proof (shr_fexp_nonneg m e l Hm) as H1.
  destruct (shr_fexp 53 1024 m e l) as [mrs' e'] eqn:E1. cbn [fst] in H1.
  pose proof (shr_fexp_nonneg (round_nearest_even (shr_m mrs') (loc_of_shr_record mrs')) e'
                loc_Exact (round_nearest_even_nonneg _ _ H1)) as H2.
  destruct (shr_fexp 53 1024 (round_nearest_even _ _) e' loc_Exact) as [mrs'' e''].
  cbn [fst] in H2. destruct (shr_m mrs'') as [|p|p]; [done| |lia].
  by destruct (e'' <=? 1024 - 53).
Qed.

Lemma binary_normalize_pos (m e : Z) :
  0 < m → has_sign false (binary_normalize 53 1024 m e false).
Proof.
  intros Hm. destruct m as [|p|p]; [lia| |lia].
  unfold binary_normalize, binary_round.
  destruct (shl_align p e _) as [mz ez]. by apply binary_round_aux_sign.
Qed.

Lemma has_sign_not_below_zero (x : float) :
  has_sign false x → is_nan x = true ∨ fle f0 x = true.
Proof.
  destruct x as [s|s| |s m e]; cbn; try done; intros ->; right; try done.
  unfold fle, fcompare, f0, exponent, scaled, cond_Zopp.
  assert (0 < Z.pos m * 2 ^ (e - Z.min 0 e)) as H
    by (apply Z.mul_pos_pos; [lia|apply Z.pow_pos_nonneg; lia]).
  destruct (Z.pos m * 2 ^ (e - Z.min 0 e)); [lia|done|lia].
Qed.

(** When [x <= y] does not hold, [x - y] is not below zero: it is zero or
    more, or it is a NaN (when [x] or [y] is one). *)
Lemma fsub_not_below_zero (x y : float) :
  fle x y = false → is_nan (fsub x y) = true ∨ fle f0 (fsub x y) = true.
Proof.
  intros Hle.
  destruct x as [sx|sx| |sx mx ex], y as [sy|sy| |sy my ey];
    try (by left); try (destruct sx; try destruct sy; by first [discriminate Hle | right]).
  - (* 0 - finite *)
    destruct sy; [by apply has_sign_not_below_zero|]. exfalso. revert Hle.
    unfold fle, fcompare, exponent, scaled, cond_Zopp.
    assert (0 < Z.pos my * 2 ^ (ey - Z.min 0 ey))
      by (apply Z.mul_pos_pos; [lia|apply Z.pow_pos_nonneg; lia]).
    destruct (Z.pos my * 2 ^ (ey - Z.min 0 ey)); [lia|done|lia].
  - (* finite - 0 *)
    destruct sx; [|by apply has_sign_not_below_zero]. exfalso. revert Hle.
    unfold fle, fcompare, exponent, scaled, cond_Zopp.
    assert (0 < Z.pos mx * 2 ^ (ex - Z.min ex 0))
      by (apply Z.mul_pos_pos; [lia|apply Z.pow_pos_nonneg; lia]).
    destruct (Z.compare_spec (- Z.pos mx * 2 ^ (ex - Z.min ex 0)) 0); [done..|lia].
  - (* finite - finite *)
    apply has_sign_not_below_zero. unfold fsub, SFsub. apply binary_normalize_pos.
    rewrite !shl_align_scaled by lia.
    revert Hle. unfold fle, fcompare, exponent, scaled.
    match goal with |- context [?a ?= ?b] => destruct (Z.compare_spec a b) as [Hc|Hc|Hc] end;
      try done. intros _.
    destruct sx, sy; cbn [cond_Zopp] in *; lia.
Qed.

Lemma digits2_pos_bounds (m : positive) :
  2 ^ (Z.pos (digits2_pos m) - 1) <= Z.pos m < 2 ^ Z.pos (digits2_pos m).
Proof.
  induction m as [m IH|m IH|]; cbn [digits2_pos]; [| |cbn; lia].
  - rewrite Pos2Z.inj_succ, Pos2Z.inj_xI.
    replace (Z.succ (Z.pos (digits2_pos m)) - 1) with (Z.succ (Z.pos (digits2_pos m) - 1)) by lia.
    rewrite !Z.pow_succ_r by lia.
    destruct IH as [IH1 IH2]. revert IH1 IH2.
    generalize (2 ^ (Z.pos (digits2_pos m) - 1)) (2 ^ Z.pos (digits2_pos m)). lia.
  - rewrite Pos2Z.inj_succ. change (Z.pos m~0) with (2 * Z.pos m).
    replace (Z.succ (Z.pos (digits2_pos m)) - 1) with (Z.succ (Z.pos (digits2_pos m) - 1)) by lia.
    rewrite !Z.pow_succ_r by lia.
    destruct IH as [IH1 IH2]. revert IH1 IH2.
    generalize (2 ^ (Z.pos (digits2_pos m) - 1)) (2 ^ Z.pos (digits2_pos m)). lia.
Qed.

(** A canonical mantissa has 53 bits, or fewer at the least exponent. *)
Lemma bounded_inv (m : positive) (e : Z) :
  bounded 53 1024 m e = true →
  Z.pos m < 2 ^ 53 ∧ (2 ^ 52 <= Z.pos m ∨ e = -1074) ∧ -1074 <= e.
Proof.
  unfold bounded, canonical_mantissa, fexp, emin.
  intros [He%Z.eqb_eq _]%andb_true_iff.
  pose proof (digits2_pos_bounds m) as [Hlo Hhi].
  destruct (Z.max_spec (Z.pos (digits2_pos m) + e - 53) (3 - 1024 - 53)) as [[Hlt Hmax]|[Hge Hmax]];
    rewrite Hmax in He.
  - split; [|split; [right|]; lia].
    eapply Z.lt_le_trans; [exact Hhi|]. apply Z.pow_le_mono_r; lia.
  - assert (Z.pos (digits2_pos m) = 53) as Hd by lia. rewrite Hd in Hlo, Hhi.
    split; [done|]. split; [by left|lia].
Qed.

Lemma compare_scaled (m1 m2 : positive) (e1 e2 : Z) :
  bounded 53 1024 m1 e1 = true → bounded 53 1024 m2 e2 = true →
  (Z.pos m1 * 2 ^ (e1 - Z.min e1 e2) ?= Z.pos m2 * 2 ^ (e2 - Z.min e1 e2))
  = match e1 ?= e2 with
    | Lt => Lt
    | Gt => Gt
    | Eq => Pos.compare_cont Eq m1 m2
    end.
Proof.
  intros (Hhi1 & Hlo1 & He1)%bounded_inv (Hhi2 & Hlo2 & He2)%bounded_inv.
  destruct (Z.compare_spec e1 e2) as [->|Hlt|Hgt].
  - rewrite Z.min_id, Z.sub_diag, !Z.mul_1_r. reflexivity.
  - rewrite Z.min_l, Z.sub_diag, Z.mul_1_r by lia. apply Z.compare_lt_iff.
    assert (2 ^ 1 <= 2 ^ (e2 - e1)) by (apply Z.pow_le_mono_r; lia).
    change (2 ^ 53) with (2 ^ 52 * 2 ^ 1) in Hhi1. nia.
  - rewrite Z.min_r, Z.sub_diag, Z.mul_1_r by lia. apply Z.compare_gt_iff.
    assert (2 ^ 1 <= 2 ^ (e1 - e2)) by (apply Z.pow_le_mono_r; lia).
    change (2 ^ 53) with (2 ^ 52 * 2 ^ 1) in Hhi2. nia.
Qed.

(** On the binary64 numbers, which [valid_binary] tells from the other
    terms of their type, [fcompare] is the comparison of IEEE 754. *)
Lemma fcompare_valid (x y : float) :
  valid_binary 53 1024 x = true → valid_binary 53 1024 y = true →
  fcompare x y = SFcompare x y.
Proof.
  destruct x as [sx|sx| |sx mx ex], y as [sy|sy| |sy my ey]; try reflexivity;
    cbn [valid_binary]; intros Hx Hy.
  - unfold fcompare, exponent, scaled, SFcompare. f_equal.
    assert (0 < Z.pos my * 2 ^ (ey - Z.min 0 ey))
      by (apply Z.mul_pos_pos; [lia|apply Z.pow_pos_nonneg; lia]).
    destruct sy; cbn [cond_Zopp].
    + apply Z.compare_gt_iff. lia.
    + apply Z.compare_lt_iff. lia.
  - unfold fcompare, exponent, scaled, SFcompare. f_equal.
    assert (0 < Z.pos mx * 2 ^ (ex - Z.min ex 0))
      by (apply Z.mul_pos_pos; [lia|apply Z.pow_pos_nonneg; lia]).
    destruct sx; cbn [cond_Zopp].
    + apply Z.compare_lt_iff. lia.
    + apply Z.compare_gt_iff. lia.
  - unfold fcompare, exponent, scaled, SFcompare. f_equal.
    pose proof (compare_scaled mx my ex ey Hx Hy) as Hc.
    assert (0 < Z.pos mx * 2 ^ (ex - Z.min ex ey))
      by (apply Z.mul_pos_pos; [lia|apply Z.pow_pos_nonneg; lia]).
    assert (0 < Z.pos my * 2 ^ (ey - Z.min ex ey))
      by (apply Z.mul_pos_pos; [lia|apply Z.pow_pos_nonneg; lia]).
    destruct sx, sy; unfold cond_Zopp.
    + rewrite !Z.mul_opp_l, Z.compare_opp, Z.compare_antisym, Hc.
      by destruct (ex ?= ey).
    + apply Z.compare_lt_iff. lia.
    + apply Z.compare_gt_iff. lia.
    + exact Hc.
Qed.

(** The constants are the literals they stand for, and valid. *)
Lemma float_constants :
  f0_02 = float_of_ratio 2 100 ∧ f10 = float_of_int 10
  ∧ forallb (valid_binary 53 1024) [f0; f0_02; f10; f10_005; f10_03; f10_09; f10_095; f11]
    = true.
Proof. by vm_compute. Qed.

(** *** One turn of the loop *)

Lemma frombytes_ok (buf : bytes) : ∃ p, RTP_frombytes buf = Ok p.
Proof.
  do 12 (destruct buf as [|? buf]; [eexists; reflexivity|]).
  eexists. reflexivity.
Qed.

Lemma decoded_cons (buf : bytes) (bufs : list bytes) :
  ∃ p, RTP_frombytes buf = Ok p ∧ decoded (buf :: bufs) = p :: decoded bufs.
Proof.
  destruct (frombytes_ok buf) as [p Hp]. exists p. split; [done|].
  unfold decoded. cbn [omap list_omap]. by rewrite Hp.
Qed.

(** Handling the ready objects never raises. *)
Lemma on_readys_ok (objs : list ready_obj) : ∀ w : worker,
  for_each objs on_ready w = (Ok (), drained_by objs w).
Proof.
  induction objs as [|obj objs IH]; intros w; cbn [for_each].
  - unfold drained_by. cbn. rewrite andb_true_r, app_nil_r. by destruct w.
  - destruct obj as [buf|]; cbn [on_ready].
    + destruct (decoded_cons buf (datagrams objs)) as (p & Hp & Hdec).
      rewrite Hp. erewrite bind_ok by reflexivity. rewrite IH.
      unfold drained_by, log_received.
      cbn [rtp wakeuptime running sleeps sent received stop_among existsb orb].
      change (datagrams (Sock buf :: objs)) with (buf :: datagrams objs).
      by rewrite Hdec, <- app_assoc.
    + erewrite bind_ok by reflexivity. rewrite IH.
      unfold drained_by, set_running.
      cbn [rtp wakeuptime running sleeps sent received stop_among existsb orb negb].
      by rewrite andb_false_r.
Qed.

Lemma set_rtp_same (s : stream) (w : worker) : rtp w = Some s → set_rtp (Some s) w = w.
Proof. destruct w. cbn. by intros ->. Qed.

Lemma on_rtp_none {A} (m : Eff stream A) (w : worker) :
  rtp w = None → on_rtp m w = (Raise (AttributeError "eof"), w).
Proof. intros H. unfold on_rtp. by rewrite H. Qed.

Lemma on_rtp_some {A} (m : Eff stream A) (w : worker) (s s' : stream) (r : res A) :
  rtp w = Some s → m s = (r, s') → on_rtp m w = (r, set_rtp (Some s') w).
Proof. intros H Hm. unfold on_rtp. by rewrite H, Hm. Qed.

Section Loop.

Variable entropy : nat → Z.
Variable literal_eval : string → res pyval.
Variable text_format : pyval → Z → res pyval.

Lemma loop_body_step (t : turn) (w w' : worker) (r : res unit) :
  loop_body entropy literal_eval text_format t w = (r, w') →
  turn_step entropy literal_eval text_format t w r w'.
Proof.
  unfold loop_body.
  erewrite bind_ok by reflexivity. erewrite bind_ok by reflexivity.
  fold (sleep_of t w). set (w1 := log_sleep (sleep_of t w) w).
  destruct (wait t) as [objs|e] eqn:Hwait.
  2:{ erewrite bind_raise by reflexivity. intros [= <- <-]. by constructor. }
  erewrite bind_ok by reflexivity.
  erewrite bind_ok by apply on_readys_ok.
  destruct objs as [|obj objs].
  2:{ intros [= <- <-]. by constructor. }
  assert (drained_by [] w1 = w1) as ->.
  { unfold drained_by. cbn. rewrite andb_true_r, app_nil_r. by destruct w. }
  destruct (rtp w) as [s|] eqn:Hrtp.
  2:{ erewrite bind_raise by (by apply on_rtp_none). intros [= <- <-]. by constructor. }
  assert (set_rtp (Some s) w1 = w1) as Hsame by (by apply set_rtp_same).
  destruct (dict s !! "eof") as [v|] eqn:Heof.
  2:{ erewrite bind_raise
        by (eapply on_rtp_some; [exact Hrtp | unfold getattr; by rewrite Heof]).
      intros [= <- <-]. rewrite Hsame. by eapply no_eof. }
  erewrite bind_ok by (eapply on_rtp_some; [exact Hrtp | by apply getattr_ok]).
  rewrite Hsame. destruct (truth v) eqn:Htruth.
  { intros [= <- <-]. by eapply at_eof. }
  destruct (nextpacket entropy literal_eval text_format s) as [[[p d]|e] s'] eqn:Hnext.
  2:{ erewrite bind_raise by (eapply on_rtp_some; [exact Hrtp | exact Hnext]).
      intros [= <- <-]. by eapply nextpacket_raises. }
  erewrite bind_ok by (eapply on_rtp_some; [exact Hrtp | exact Hnext]). cbn beta iota.
  destruct (RTP_tobytes p) as [buf|e] eqn:Hbuf.
  2:{ erewrite bind_raise by reflexivity. intros [= <- <-]. by eapply tobytes_raises. }
  erewrite bind_ok by reflexivity. erewrite bind_ok by reflexivity.
  erewrite bind_ok by reflexivity.
  change (wakeuptime (sendto buf (set_rtp (Some s') w1))) with (wakeuptime w).
  destruct (float_add (wakeuptime w) d) as [x|e] eqn:Hadd.
  - erewrite bind_ok by reflexivity. intros [= <- <-]. by eapply packet_sent.
  - erewrite bind_raise by reflexivity. intros [= <- <-]. by eapply add_raises.
Qed.

(** An invariant [J] of the turns that end well gives [K] of the state the
    loop ends in, when each turn that raises leaves a state with [K]. *)
Lemma loop_invariant (J : worker → Prop) (K : res unit → worker → Prop)
    (turns : list turn) : ∀ w : worker,
  (∀ w, J w → K (Ok ()) w) →
  (∀ t w r w', J w → turn_step entropy literal_eval text_format t w r w' →
               match r with Ok _ => J w' | Raise e => K (Raise e) w' end) →
  J w →
  K (fst (loop entropy literal_eval text_format turns w))
    (snd (loop entropy literal_eval text_format turns w)).
Proof.
  intros w HJK Hstep. revert w.
  induction turns as [|t turns IH]; intros w HJ; cbn [loop].
  - by apply HJK.
  - destruct (running w); [|by apply HJK].
    destruct (loop_body entropy literal_eval text_format t w) as [r w1] eqn:Hbody.
    pose proof (Hstep t w r w1 HJ (loop_body_step t w w1 r Hbody)) as H1.
    unfold mbind, Eff_bind. rewrite Hbody. destruct r as [[]|e]; [by apply IH | done].
Qed.

(** *** The packets of a stream and their deadlines *)

Lemma first_packets_snoc (n : nat) : ∀ (s sk sk' : stream) pkts pk,
  first_packets entropy literal_eval text_format n s = (Ok pkts, sk) →
  nextpacket entropy literal_eval text_format sk = (Ok pk, sk') →
  first_packets entropy literal_eval text_format (S n) s = (Ok (pkts ++ [pk]), sk').
Proof.
  induction n as [|n IH]; intros s sk sk' pkts pk Hn Hpk.
  - injection Hn as <- <-. cbn [first_packets]. erewrite bind_ok by exact Hpk.
    reflexivity.
  - cbn [first_packets] in Hn.
    apply bind_inv in Hn as (pk0 & s1 & H0 & Hn).
    apply bind_inv in Hn as (rest & s2 & Hrest & Hn). injection Hn as <- <-.
    change (first_packets entropy literal_eval text_format (S (S n)))
      with (pk0' ← nextpacket entropy literal_eval text_format;
            rest ← first_packets entropy literal_eval text_format (S n);
            mret (pk0' :: rest)).
    erewrite bind_ok by exact H0.
    erewrite bind_ok by (by eapply IH). reflexivity.
Qed.

Lemma deadline_snoc (ds : list pyval) (d : pyval) : ∀ t0 : float,
  deadline t0 (ds ++ [d]) = deadline t0 ds ≫= λ x, float_add x d.
Proof.
  induction ds as [|d0 ds IH]; intros t0; cbn [app deadline mbind res_bind].
  - by destruct (float_add t0 d).
  - destruct (float_add t0 d0) as [t1|e]; cbn [mbind res_bind]; [apply IH | done].
Qed.

Lemma deadline_fixed (d : float) (ds : list pyval) : ∀ t0 : float,
  Forall (λ v, v = VFloat d) ds →
  deadline t0 ds = Ok (Nat.iter (length ds) (λ x, fadd x d) t0).
Proof.
  induction ds as [|d0 ds IH]; intros t0 Hall; [done|].
  apply Forall_cons in Hall as [-> Hall]. cbn [deadline length].
  change (float_add t0 (VFloat d)) with (Ok (fadd t0 d)).
  cbn [mbind res_bind]. rewrite IH by done. by rewrite Nat.iter_succ_r.
Qed.

(** The periods a random stream returns are the one it holds. *)
Lemma first_packets_random (len : Z) (v : pyval) (n : nat) : ∀ (s s' : stream) pkts,
  random_inv len s → dict s !! "period" = Some v →
  first_packets entropy literal_eval text_format n s = (Ok pkts, s') →
  Forall (λ pk, pk.2 = v) pkts.
Proof.
  induction n as [|n IH]; intros s s' pkts Hinv Hper; cbn [first_packets].
  - by intros [= <- <-].
  - intros (pk & s1 & Hpk & Hrest)%bind_inv.
    apply bind_inv in Hrest as (rest & s2 & Hrest & Hret). injection Hret as <- <-.
    destruct (nextpacket_random_period entropy literal_eval text_format len v s Hinv Hper)
      as (p & s1' & Hp & Hinv1 & Hper1).
    rewrite Hp in Hpk. injection Hpk as <- <-.
    constructor; [done|]. by eapply IH.
Qed.

Section Schedule.

Variable s0 : stream.
Variable t0 : float.

Local Abbreviation on_schedule := (on_schedule entropy literal_eval text_format s0 t0).
Local Abbreviation was_on_schedule := (was_on_schedule entropy literal_eval text_format s0 t0).

Lemma paced_frame (r r' : res unit) (w w' : worker) pkts :
  sent w' = sent w → wakeuptime w' = wakeuptime w →
  paced t0 r w pkts → (r = Ok () ∨ r' = r) → paced t0 r' w' pkts.
Proof.
  intros Hs Hw [H1 H2 H3] Hr. split; rewrite ?Hs, ?Hw; [done..|].
  destruct H3 as [H3|(e & pre & last & -> & H3)]; [by left|].
  destruct Hr as [[=]| ->]. right. by exists e, pre, last.
Qed.

Lemma on_schedule_frame (w w' : worker) :
  sent w' = sent w → wakeuptime w' = wakeuptime w → rtp w' = rtp w →
  on_schedule w → on_schedule w'.
Proof.
  intros Hs Hw Hr (pkts & sk & H1 & H2 & H3). exists pkts, sk.
  rewrite Hs, Hr. split; [done|]. split; [done|]. eapply paced_frame; eauto.
Qed.

Lemma was_on_schedule_frame (r : res unit) (w w' : worker) :
  sent w' = sent w → wakeuptime w' = wakeuptime w →
  on_schedule w → was_on_schedule r w'.
Proof.
  intros Hs Hw (pkts & sk & H1 & H2 & H3). exists pkts, sk.
  rewrite Hs. split; [done|]. eapply paced_frame; eauto.
Qed.

Lemma paced_sendto (w : worker) pkts (p : RTP) (d : pyval) (buf : bytes) (s' : stream) :
  length (sent w) = length pkts →
  paced t0 (Ok ()) w pkts → RTP_tobytes p = Ok buf →
  let w1 := sendto buf (set_rtp (Some s') (log_sleep (sleep_of (mkTurn f0 [] None) w) w)) in
  Forall2 (λ snt pk, RTP_tobytes pk.1 = Ok snt.2) (sent w1) (pkts ++ [(p, d)])
  ∧ (∀ k snt, sent w1 !! k = Some snt →
              deadline t0 (take k (pkts ++ [(p, d)]).*2) = Ok snt.1)
  ∧ deadline t0 pkts.*2 = Ok (wakeuptime w).
Proof.
  intros Hlen [H1 H2 H3] Hbuf w1.
  destruct H3 as [H3|(e & ? & ? & [=] & _)].
  split; [|split; [|done]]; cbn [w1 sendto sent set_rtp log_sleep wakeuptime].
  - apply Forall2_app; [done|]. by repeat constructor.
  - intros k snt [Hk|[Hge Hk]]%lookup_app_Some.
    + pose proof (lookup_lt_Some _ _ _ Hk) as Hlt.
      rewrite fmap_app, take_app_le by (rewrite length_fmap; lia). by apply H2.
    + apply list_lookup_singleton_Some in Hk as [Hk0 <-]. cbn [fst].
      assert (k = length pkts) as -> by lia.
      rewrite fmap_app, take_app_length' by (by rewrite length_fmap). done.
Qed.

Lemma turn_on_schedule (t : turn) (w w' : worker) (r : res unit) :
  on_schedule w → turn_step entropy literal_eval text_format t w r w' →
  match r with Ok _ => on_schedule w' | Raise e => was_on_schedule (Raise e) w' end.
Proof.
  intros HJ Hstep.
  destruct Hstep as [e Hw|objs Hw Hne|Hw Hr|s Hw Hr He|s v Hw Hr He Ht
                     |s v e s' Hw Hr He Ht Hn|s v p d s' e Hw Hr He Ht Hn Hb
                     |s v p d s' buf e Hw Hr He Ht Hn Hb Ha
                     |s v p d s' buf x Hw Hr He Ht Hn Hb Ha];
    try (by eapply was_on_schedule_frame; [..|exact HJ]);
    try (by eapply on_schedule_frame; [..|exact HJ]).
  - (* adding the period raises *)
    destruct HJ as (pkts & sk & Hsk & Hfirst & Hp).
    rewrite Hr in Hsk. injection Hsk as <-.
    assert (length (sent w) = length pkts) as Hlen
      by (by eapply Forall2_length, paced_encoded).
    destruct (paced_sendto w pkts p d buf s' Hlen Hp Hb) as (H1 & H2 & H3).
    exists (pkts ++ [(p, d)]), s'. split.
    + cbn [sendto sent set_rtp log_sleep]. rewrite length_app, Nat.add_1_r.
      by eapply first_packets_snoc.
    + split; [exact H1 | exact H2 |]. right. exists e, pkts.*2, d.
      rewrite fmap_app. by repeat split.
  - (* a packet is sent and its period added *)
    destruct HJ as (pkts & sk & Hsk & Hfirst & Hp).
    rewrite Hr in Hsk. injection Hsk as <-.
    assert (length (sent w) = length pkts) as Hlen
      by (by eapply Forall2_length, paced_encoded).
    destruct (paced_sendto w pkts p d buf s' Hlen Hp Hb) as (H1 & H2 & H3).
    exists (pkts ++ [(p, d)]), s'. split; [done|]. split.
    + cbn [set_wakeuptime sendto sent set_rtp log_sleep]. rewrite length_app, Nat.add_1_r.
      by eapply first_packets_snoc.
    + split; [exact H1 | exact H2 |]. left.
      rewrite fmap_app. change ([(p, d)].*2) with [d].
      rewrite deadline_snoc, H3. exact Ha.
Qed.

Lemma loop_on_schedule (turns : list turn) (w : worker) :
  on_schedule w →
  was_on_schedule (fst (loop entropy literal_eval text_format turns w))
                  (snd (loop entropy literal_eval text_format turns w)).
Proof.
  apply (loop_invariant on_schedule was_on_schedule).
  - intros w1 (pkts & sk & H1 & H2 & H3). by exists pkts, sk.
  - intros t w1 r w2. apply turn_on_schedule.
Qed.

End Schedule.

End Loop.



(** ** File replay *)

(** C4: no RTPFile can be built.  [RTPFile.__init__] calls
    [RTPStream.__init__(self)] without the two positional arguments that
    method requires, which raises TypeError before a byte of the input is
    read; this holds for every input, the fixture included.  The methods
    themselves do what the scenario says: on an object whose attributes are
    in place, the fixture ending inside its last payload gives sequence
    numbers 0x100, 0x101, 0x103 with payloads 0123, 4567, abc, and the
    fourth call sets [eof] and has an empty payload; when the last payload
    is closed by its marker the fourth call returns it (def, 0x104) and
    [eof] is set by the search for the next parameter block. *)
Theorem RTPFile_init_raises :
  (∀ (entropy : nat → Z) (literal_eval : string → res pyval)
    (text_format : pyval → Z → res pyval)
     (open_rb : string → res bytes) (rtpfile : rtpfile_arg) (r0 : nat),
     construct RTPFile (RTPFile_init entropy literal_eval open_rb text_format rtpfile) r0
     = Raise TypeError)
  ∧ construct RTPFile (RTPFile_init entropy0 literal_eval_frag no_files text_format_frag (Handle fixture)) 0
    = Raise TypeError
  ∧ replay 4 (file_obj fixture_cut 7 1000 5)
    = Ok [(VInt 256, B "0123", VBool false); (VInt 257, B "4567", VBool false);
          (VInt 259, B "abc", VBool false); (VInt 260, [], VBool true)]
  ∧ replay 4 (file_obj fixture 7 1000 5)
    = Ok [(VInt 256, B "0123", VBool false); (VInt 257, B "4567", VBool false);
          (VInt 259, B "abc", VBool false); (VInt 260, B "def", VBool true)].
Proof.
  split; [reflexivity|]. split; [reflexivity|]. split; vm_compute; reflexivity.
Qed.

(** C6: the explicit timestamp is looked for under the key [timestamp] but
    taken from the key [TS].  A block that gives [timestamp] alone raises
    KeyError and leaves the timestamp as it was; a block that gives [TS]
    alone goes through the sample-count branch, so it ends with that
    timestamp when a sample count can be derived, and raises when none can,
    although the timestamp was given. *)
Theorem timestamp_key_mismatch :
  after_block "PT=0
timestamp=1000" 2000 = (Raise (KeyError "TS"), Some (VInt 2000))
  ∧ after_block "PT=0
TS=1000" 2000 = (Ok (), Some (VInt 1000))
  ∧ after_block "PT=96
codecname='foo'
TS=1000" 2000
    = (Raise (Exception_ "cannot compute TS. Missing 'timestamp' or 'numsamples' or sampling rate in codec name"),
       Some (VInt 2000))
  ∧ after_block "PT=0
timestamp=1
TS=1000" 2000 = (Ok (), Some (VInt 1000)).
Proof. repeat split; vm_compute; reflexivity. Qed.

(** * Further properties *)

(** ** The codec on whole packets *)

(** X1: encoding then decoding.  A packet whose integer fields fit their
    widths is encoded by [tobytes], and [frombytes] gives back from those
    bytes the payload, PT, sequence number, timestamp, SSRC, P, X and CC.
    The version and the marker do not come back when their top bit is set:
    the two header bytes are unpacked as signed, so versions 2 and 3 are
    read as -2 and -1 and a marker of 1 as -1. *)
Theorem tobytes_then_frombytes (data : bytes) (pt sq ts ssrc v p x cc m : Z) :
  0 <= v < 4 → 0 <= p < 2 → 0 <= x < 2 → 0 <= cc < 16 → 0 <= m < 2 →
  0 <= pt < 128 → 0 <= sq < 2 ^ 16 → 0 <= ts < 2 ^ 32 → 0 <= ssrc < 2 ^ 32 →
  ∃ buf,
    RTP_tobytes (RTP_of_ints data pt sq ts ssrc v p x cc m) = Ok buf
    ∧ RTP_frombytes buf
      = Ok (RTP_of_ints data pt sq ts ssrc (if v <? 2 then v else v - 4) p x cc (- m)).
Proof.
  intros Hv Hp Hx Hcc Hm Hpt Hsq Hts Hssrc.
  pose proof (decode_encode_fields data pt sq ts ssrc v p x cc m
                Hv Hp Hx Hcc Hm Hpt Hsq Hts Hssrc) as H.
  unfold decode_encode in H.
  destruct (RTP_tobytes (RTP_of_ints data pt sq ts ssrc v p x cc m)) as [buf|e];
    [|discriminate H].
  exists buf. split; [reflexivity | exact H].
Qed.

Lemma tobytes_then_frombytes_witness :
  ∃ buf,
    RTP_tobytes (RTP_of_ints (B "ab") 8 256 160 7 2 0 0 0 0) = Ok buf
    ∧ RTP_frombytes buf = Ok (RTP_of_ints (B "ab") 8 256 160 7 (-2) 0 0 0 0).
Proof.
  apply (tobytes_then_frombytes (B "ab") 8 256 160 7 2 0 0 0 0); lia.
Defined.

Lemma byte_of_Z_None (z : Z) : ¬ (0 <= z < 256) → byte_of_Z z = None.
Proof.
  intros Hz. unfold byte_of_Z. destruct (decide (0 <= z)); [|done].
  apply Byte.of_N_None_iff. lia.
Qed.

Lemma pack_unsigned_ok (n : nat) (z : Z) :
  0 <= z < 256 ^ Z.of_nat n →
  ∃ bs, struct.pack_unsigned n (VInt z) = Ok bs ∧ length bs = n ∧ struct.be_val bs = z.
Proof.
  intros Hz. destruct (be_bytes_val n z Hz) as (bs & Hbs & Hlen & Hval).
  exists bs. unfold struct.pack_unsigned. cbn [as_int].
  rewrite decide_True by done. by rewrite Hbs.
Qed.

Lemma pack_unsigned_range (n : nat) (z : Z) :
  ¬ (0 <= z < 256 ^ Z.of_nat n) → struct.pack_unsigned n (VInt z) = Raise StructError.
Proof.
  intros Hz. unfold struct.pack_unsigned. cbn [as_int]. by rewrite decide_False.
Qed.

(** X2: what [tobytes] does with integer fields.  It does not truncate:
    when the value put together for byte 0 or byte 1 is outside 0..255 it
    raises ValueError, when sequence number, timestamp or SSRC do not fit 16,
    32 and 32 bits it raises struct.error, and otherwise it returns 12 header
    bytes followed by the payload untouched. *)
Theorem tobytes_outcome (data : bytes) (pt sq ts ssrc v p x cc m : Z) :
  let r := RTP_tobytes (RTP_of_ints data pt sq ts ssrc v p x cc m) in
  if decide (0 <= hdr0 v p x cc < 256 ∧ 0 <= hdr1 m pt < 256) then
    if decide (0 <= sq < 2 ^ 16 ∧ 0 <= ts < 2 ^ 32 ∧ 0 <= ssrc < 2 ^ 32) then
      ∃ buf, r = Ok buf ∧ length buf = (12 + length data)%nat ∧ drop 12 buf = data
    else r = Raise StructError
  else r = Raise ValueError.
Proof.
  intros r. subst r. unfold RTP_tobytes, RTP_of_ints.
  cbn [version P X CC M PT seq TS SSRC payload int_operand as_int require mbind res_bind].
  fold (hdr0 v p x cc). fold (hdr1 m pt). unfold bytearray_set.
  cbn [replicate length].
  destruct (decide (0 <= hdr0 v p x cc < 256 ∧ 0 <= hdr1 m pt < 256)) as [[H0 H1]|Hr].
  - destruct (byte_of_Z_ok _ H0) as (b0 & -> & _).
    rewrite (decide_True (P:=(0 < 12)%nat)) by lia.
    cbn [mbind res_bind insert list_insert length].
    destruct (byte_of_Z_ok _ H1) as (b1 & -> & _).
    rewrite (decide_True (P:=(1 < 12)%nat)) by lia.
    cbn [mbind res_bind insert list_insert].
    unfold struct.pack_into_HLL_at2.
    destruct (decide (0 <= sq < 2 ^ 16 ∧ 0 <= ts < 2 ^ 32 ∧ 0 <= ssrc < 2 ^ 32))
      as [(Hsq & Hts & Hssrc)|Hr].
    + destruct (pack_unsigned_ok 2 sq Hsq) as (fa & -> & Hla & _).
      destruct (pack_unsigned_ok 4 ts Hts) as (fb & -> & Hlb & _).
      destruct (pack_unsigned_ok 4 ssrc Hssrc) as (fc & -> & Hlc & _).
      cbn [mbind res_bind length]. rewrite (decide_True (P:=(12 <= 12)%nat)) by lia.
      cbn [mbind res_bind take drop]. eexists. split; [reflexivity|].
      destruct fa as [|a0 [|a1 [|? ?]]]; try discriminate.
      destruct fb as [|c0 [|c1 [|c2 [|c3 [|? ?]]]]]; try discriminate.
      destruct fc as [|d0 [|d1 [|d2 [|d3 [|? ?]]]]]; try discriminate.
      split; [cbn; lia | reflexivity].
    + destruct (decide (0 <= sq < 2 ^ 16)) as [Hsq|Hsq];
        [|by rewrite (pack_unsigned_range 2 sq Hsq)].
      destruct (pack_unsigned_ok 2 sq Hsq) as (fa & -> & _). cbn [mbind res_bind].
      destruct (decide (0 <= ts < 2 ^ 32)) as [Hts|Hts];
        [|by rewrite (pack_unsigned_range 4 ts Hts)].
      destruct (pack_unsigned_ok 4 ts Hts) as (fb & -> & _). cbn [mbind res_bind].
      rewrite (pack_unsigned_range 4 ssrc) by (intros ?; apply Hr; repeat split; lia).
      reflexivity.
  - destruct (decide (0 <= hdr0 v p x cc < 256)) as [H0|H0].
    + destruct (byte_of_Z_ok _ H0) as (b0 & -> & _).
      rewrite (decide_True (P:=(0 < 12)%nat)) by lia. cbn [mbind res_bind].
      rewrite (byte_of_Z_None (hdr1 m pt)) by (intros ?; apply Hr; split; assumption). reflexivity.
    + rewrite (byte_of_Z_None (hdr0 v p x cc)) by assumption. reflexivity.
Qed.

Lemma be_bytes_of_val (bs : bytes) :
  struct.be_bytes (length bs) (struct.be_val bs) = Some bs
  ∧ 0 <= struct.be_val bs < 256 ^ Z.of_nat (length bs).
Proof.
  induction bs as [|b bs [IH Hr]] using rev_ind.
  - split; [reflexivity | cbn; lia].
  - rewrite length_app, be_val_snoc. cbn [length].
    replace (length bs + 1)%nat with (S (length bs)) by lia.
    assert (0 <= byte_val b < 256) as Hb.
    { unfold byte_val. pose proof (Byte.to_N_bounded b). lia. }
    split.
    + cbn [struct.be_bytes].
      replace ((struct.be_val bs * 256 + byte_val b) / 256) with (struct.be_val bs)
        by (apply Z.div_unique with (byte_val b); lia).
      replace ((struct.be_val bs * 256 + byte_val b) mod 256) with (byte_val b)
        by (apply Z.mod_unique with (struct.be_val bs); lia).
      rewrite IH. cbn. unfold byte_of_Z, byte_val.
      rewrite decide_True by lia. rewrite N2Z.id, Byte.of_to_N. reflexivity.
    + rewrite Nat2Z.inj_succ, Z.pow_succ_r by lia. lia.
Qed.

Lemma pack_unsigned_val (bs : bytes) :
  struct.pack_unsigned (length bs) (VInt (struct.be_val bs)) = Ok bs.
Proof.
  destruct (be_bytes_of_val bs) as [Hbs Hr].
  unfold struct.pack_unsigned. cbn [as_int]. rewrite decide_True by done.
  by rewrite Hbs.
Qed.

Lemma rebuilt0_byte (b : byte) :
  byte_of_Z (rebuilt0 b) = if byte_val b <? 128 then Some b else None.
Proof. destruct b; reflexivity. Qed.

Lemma rebuilt1_byte (b : byte) :
  byte_of_Z (rebuilt1 b) = if byte_val b <? 128 then Some b else None.
Proof. destruct b; reflexivity. Qed.

Lemma reencode_header (b0 b1 a0 a1 c0 c1 c2 c3 d0 d1 d2 d3 : byte) (rest : bytes) :
  RTP_frombytes ([b0; b1; a0; a1; c0; c1; c2; c3; d0; d1; d2; d3] ++ rest) ≫= RTP_tobytes
  = if decide (byte_val b0 < 128 ∧ byte_val b1 < 128)
    then Ok ([b0; b1; a0; a1; c0; c1; c2; c3; d0; d1; d2; d3] ++ rest)
    else Raise ValueError.
Proof.
  unfold RTP_frombytes. cbn [take drop app replicate].
  unfold struct.unpack_bbHLL. rewrite decide_True by (cbn; lia).
  cbn [take drop mbind res_bind]. rewrite ?take_0, ?drop_0. unfold RTP_tobytes.
  cbn [version P X CC M PT seq TS SSRC payload int_operand as_int require mbind res_bind].
  fold (hdr0 (Z.shiftr (struct.signed_char b0) 6) (Z.land (Z.shiftr (struct.signed_char b0) 5) 1)
             (Z.land (Z.shiftr (struct.signed_char b0) 4) 1) (Z.land (struct.signed_char b0) 15)).
  fold (rebuilt0 b0).
  fold (hdr1 (Z.shiftr (struct.signed_char b1) 7) (Z.land (struct.signed_char b1) 127)).
  fold (rebuilt1 b1).
  unfold bytearray_set. rewrite rebuilt0_byte.
  destruct (Z.ltb_spec (byte_val b0) 128) as [H0|H0].
  2:{ rewrite decide_False by lia. reflexivity. }
  rewrite decide_True by (cbn; lia). cbn [mbind res_bind]. rewrite rebuilt1_byte.
  destruct (Z.ltb_spec (byte_val b1) 128) as [H1|H1].
  2:{ rewrite decide_False by lia. reflexivity. }
  rewrite decide_True by (cbn; lia). rewrite decide_True by lia.
  cbn [mbind res_bind replicate insert list_insert].
  unfold struct.pack_into_HLL_at2.
  rewrite (pack_unsigned_val [a0; a1] : struct.pack_unsigned 2 _ = _).
  rewrite (pack_unsigned_val [c0; c1; c2; c3] : struct.pack_unsigned 4 _ = _).
  rewrite (pack_unsigned_val [d0; d1; d2; d3] : struct.pack_unsigned 4 _ = _).
  cbn [mbind res_bind length]. rewrite decide_True by lia. reflexivity.
Qed.

(** X3: encoding what was decoded.  A datagram whose bytes 0 and 1 are both
    below 128 (version 0 or 1, marker clear) is encoded back byte for byte,
    a datagram shorter than 12 bytes coming back padded with zeros to a full
    header; for any other datagram the decoded packet cannot be encoded at
    all: [tobytes] raises ValueError on its negative version or marker. *)
Theorem reencode_decoded (buf : bytes) :
  RTP_frombytes buf ≫= RTP_tobytes
  = if decide (octet buf 0 < 128 ∧ octet buf 1 < 128)
    then Ok (take 12 (buf ++ replicate 12 "000"%byte) ++ drop 12 buf)
    else Raise ValueError.
Proof.
  do 12 (destruct buf as [|? buf];
         [ match goal with
           | |- RTP_frombytes ?l ≫= _ = _ =>
               let p := eval cbn in (take 12 (l ++ replicate 12 "000"%byte)) in
               match p with
               | [?x0; ?x1; ?x2; ?x3; ?x4; ?x5; ?x6; ?x7; ?x8; ?x9; ?x10; ?x11] =>
                   exact (reencode_header x0 x1 x2 x3 x4 x5 x6 x7 x8 x9 x10 x11 [])
               end
           end | ]).
  match goal with
  | |- RTP_frombytes (?x0 :: ?x1 :: ?x2 :: ?x3 :: ?x4 :: ?x5 :: ?x6 :: ?x7 :: ?x8
                        :: ?x9 :: ?x10 :: ?x11 :: ?rest) ≫= _ = _ =>
      exact (reencode_header x0 x1 x2 x3 x4 x5 x6 x7 x8 x9 x10 x11 rest)
  end.
Qed.

(** ** Reading the replay file up to a marker *)

Lemma byte_eqb_eq (a b : byte) : byte_eqb a b = true ↔ a = b.
Proof. split; [apply Byte.byte_dec_bl | apply Byte.byte_dec_lb]. Qed.

Lemma startswith_app (p t : bytes) : startswith p (p ++ t) = true.
Proof.
  induction p as [|a p IH]; [done|]. cbn.
  rewrite IH. by rewrite (proj2 (byte_eqb_eq a a)).
Qed.

Lemma startswith_inv (p l : bytes) : startswith p l = true → ∃ t, l = p ++ t.
Proof.
  revert l. induction p as [|a p IH]; intros l H; [by exists l|].
  destruct l as [|b l]; [done|]. cbn in H.
  apply andb_true_iff in H as [Hab Hp]. apply byte_eqb_eq in Hab as ->.
  destruct (IH l Hp) as [t ->]. by exists t.
Qed.

Lemma endswith_app (pre mark : bytes) : endswith mark (pre ++ mark) = true.
Proof. unfold endswith. rewrite rev_app_distr. apply startswith_app. Qed.

Lemma no_mark_before_spec (mark l : bytes) (n j : nat) :
  no_mark_before mark l n = true → (0 < j < n)%nat →
  endswith mark (take j l) = false.
Proof.
  unfold no_mark_before. rewrite forallb_forall. intros H Hj.
  apply negb_true_iff, H, in_seq. lia.
Qed.

Lemma endswith_snoc (mark buf : bytes) (b : byte) :
  endswith mark (rev buf ++ [b]) = startswith (rev mark) (b :: buf).
Proof. unfold endswith. by rewrite rev_app_distr, rev_involutive. Qed.

(** What the loop of [readupto] returns, with [buf] the bytes read before. *)
Lemma readupto_loop_spec (mark : bytes) : ∀ rest buf : bytes,
  match readupto_loop mark buf rest with
  | Some (out, rest') =>
      ∃ read, rest = read ++ rest'
              ∧ (mark ≠ [] → rev buf ++ read = out ++ mark)
              ∧ endswith mark (rev buf ++ read) = true
              ∧ ∀ j, (0 < j < length read)%nat →
                     endswith mark (rev buf ++ take j read) = false
  | None =>
      ∀ j, (0 < j ≤ length rest)%nat → endswith mark (rev buf ++ take j rest) = false
  end.
Proof.
  induction rest as [|b rest IH]; intros buf; cbn [readupto_loop].
  - intros j Hj. cbn in Hj. lia.
  - destruct (startswith (rev mark) (b :: buf)) eqn:Hend.
    + exists [b]. split; [done|].
      destruct (startswith_inv _ _ Hend) as [t Ht].
      assert (rev buf ++ [b] = rev t ++ mark) as Heq.
      { change (rev buf ++ [b]) with (rev (b :: buf)).
        by rewrite Ht, rev_app_distr, rev_involutive. }
      split; [|split].
      * intros Hmark. rewrite Heq. f_equal. unfold without_last.
        destruct (length mark) as [|n] eqn:Hn; [by destruct mark|].
        rewrite <- Hn. f_equal.
        rewrite Ht, drop_app_length'; [done | by rewrite length_rev].
      * by rewrite endswith_snoc.
      * intros j Hj. cbn in Hj. lia.
    + specialize (IH (b :: buf)).
      destruct (readupto_loop mark (b :: buf) rest) as [[out rest']|].
      * destruct IH as (read & -> & Hread & Hyes & Hno).
        exists (b :: read). cbn [rev] in *. rewrite <- !app_assoc in *.
        split; [done|]. split; [done|]. split; [done|].
        intros j Hj. destruct j as [|j]; [lia|]. cbn [take].
        destruct j as [|j].
        -- rewrite take_0. by rewrite endswith_snoc.
        -- specialize (Hno (S j)). rewrite <- app_assoc in Hno. cbn in Hj.
           apply Hno. lia.
      * intros j Hj. destruct j as [|j]; [lia|]. cbn [take].
        destruct j as [|j].
        -- rewrite take_0. by rewrite endswith_snoc.
        -- specialize (IH (S j)). cbn [rev] in IH. rewrite <- app_assoc in IH.
           cbn in Hj. apply IH. lia.
Qed.

Lemma endswith_nil (mark : bytes) : endswith mark [] = true → mark = [].
Proof.
  unfold endswith. cbn. destruct (rev mark) eqn:Hrev; [|done].
  intros _. apply (f_equal (@rev byte)) in Hrev. by rewrite rev_involutive in Hrev.
Qed.

Lemma readupto_loop_found (mark pre post : bytes) :
  no_mark_before mark (pre ++ mark) (length (pre ++ mark)) = true →
  mark ≠ [] →
  readupto_loop mark [] (pre ++ mark ++ post) = Some (pre, post).
Proof.
  intros Hfirst Hmark.
  pose proof (readupto_loop_spec mark (pre ++ mark ++ post) []) as H.
  assert (endswith mark (take (length (pre ++ mark)) (pre ++ mark ++ post)) = true) as Hat.
  { rewrite app_assoc, take_app_length. apply endswith_app. }
  assert (∀ j, (0 < j < length (pre ++ mark))%nat →
               endswith mark (take j (pre ++ mark ++ post)) = false) as Hbefore.
  { intros j Hj. rewrite app_assoc, take_app_le by lia.
    by apply (no_mark_before_spec mark (pre ++ mark) (length (pre ++ mark))). }
  assert (0 < length (pre ++ mark))%nat as Hpos.
  { rewrite length_app. destruct mark; [done | cbn; lia]. }
  destruct (readupto_loop mark [] (pre ++ mark ++ post)) as [[out rest']|].
  - destruct H as (read & Hsplit & Hread & Hyes & Hno). cbn [rev app] in *.
    assert (length read = length (pre ++ mark)) as Hlen.
    { assert (length read ≤ length (pre ++ mark ++ post))%nat
        by (rewrite Hsplit, length_app; lia).
      destruct (Nat.lt_trichotomy (length read) (length (pre ++ mark))) as [Hlt|[Heq|Hgt]].
      - assert (read ≠ []) by (intros ->; by apply Hmark, endswith_nil).
        specialize (Hbefore (length read)).
        rewrite Hsplit, take_app_length in Hbefore.
        rewrite Hbefore in Hyes; [done|]. split; [|done]. destruct read; [done|cbn; lia].
      - done.
      - specialize (Hno (length (pre ++ mark))).
        rewrite Hsplit, take_app_le in Hat by lia. rewrite Hno in Hat; [done|lia]. }
    assert (read = pre ++ mark) as ->.
    { apply (f_equal (take (length (pre ++ mark)))) in Hsplit.
      rewrite app_assoc, take_app_length, <- Hlen, take_app_length in Hsplit. done. }
    apply (λ H, app_inv_tail _ _ _ (H Hmark)) in Hread. subst out.
    rewrite (app_assoc pre mark post) in Hsplit.
    apply app_inv_head in Hsplit. by subst rest'.
  - specialize (H (length (pre ++ mark))). cbn [rev app] in H.
    rewrite H in Hat; [done|].
    split; [done|]. rewrite !length_app. lia.
Qed.

Lemma readupto_loop_never (mark content : bytes) :
  no_mark_before mark content (S (length content)) = true →
  readupto_loop mark [] content = None.
Proof.
  intros Hnever. destruct content as [|c content]; [done|].
  pose proof (readupto_loop_spec mark (c :: content) []) as H.
  destruct (readupto_loop mark [] (c :: content)) as [[out rest']|]; [|done].
  destruct H as (read & Hsplit & Hread & Hyes & Hno). cbn [rev app] in *.
  assert (read ≠ []) as Hne.
  { intros ->. apply endswith_nil in Hyes as ->.
    pose proof (no_mark_before_spec [] (c :: content) _ 1 Hnever) as H1.
    cbn in H1. discriminate H1. lia. }
  pose proof (no_mark_before_spec mark (c :: content) _ (length read) Hnever) as Hn.
  rewrite Hsplit, take_app_length in Hn. rewrite Hn in Hyes; [done|].
  rewrite length_app. split; [destruct read; [done|cbn; lia] | lia].
Qed.

(** X4: [readupto(mark)] on a file that holds [pre + mark + post], where the
    marker ends nowhere earlier, returns [pre] and leaves the file at
    [post]; no other attribute changes, [eof] included. *)
Theorem readupto_first_marker (mark pre post : bytes) (s : stream) :
  mark ≠ [] →
  no_mark_before mark (pre ++ mark) (length (pre ++ mark)) = true →
  dict s !! "readupto" = None →
  dict s !! "f" = Some (VFile (pre ++ mark ++ post)) →
  RTPFile_readupto mark s
  = (Ok pre, mkStream (cls s) (<["f":=VFile post]> (dict s)) (random s)).
Proof.
  intros Hmark Hfirst Hmeth Hf. unfold RTPFile_readupto.
  rewrite method_ok by done. erewrite bind_ok by (by apply getattr_ok).
  cbn beta iota. rewrite readupto_loop_found by done.
  erewrite bind_ok by reflexivity. reflexivity.
Qed.

Lemma readupto_first_marker_witness :
  RTPFile_readupto (B "<<<<") (file_obj fixture 7 1000 5)
  = (Ok (B "
PT=0
seq=0x100
"),
     mkStream RTPFile
       (<["f":=VFile (B "0123>>>>
<<<<4567>>>>

#simulating packet lost
dseq=2
<<<<abc>>>>
<<<<def>>>>
")]> (dict (file_obj fixture 7 1000 5))) 0).
Proof.
  apply (readupto_first_marker (B "<<<<")); [done | reflexivity | reflexivity | reflexivity].
Defined.

(** X5: when the marker ends nowhere in what is left of the file,
    [readupto] returns the empty bytes, whatever it has read, leaves the
    file exhausted and sets [eof]. *)
Theorem readupto_end_of_file (mark content : bytes) (s : stream) :
  no_mark_before mark content (S (length content)) = true →
  dict s !! "readupto" = None →
  dict s !! "f" = Some (VFile content) →
  RTPFile_readupto mark s
  = (Ok [], mkStream (cls s)
              (<["eof":=VBool true]> (<["f":=VFile []]> (dict s))) (random s)).
Proof.
  intros Hnever Hmeth Hf. unfold RTPFile_readupto.
  rewrite method_ok by done. erewrite bind_ok by (by apply getattr_ok).
  cbn beta iota. rewrite readupto_loop_never by done.
  erewrite bind_ok by reflexivity. erewrite bind_ok by reflexivity. reflexivity.
Qed.

Lemma readupto_end_of_file_witness :
  RTPFile_readupto (B ">>>>") (file_obj (B "def>>") 7 1000 5)
  = (Ok [], mkStream RTPFile
              (<["eof":=VBool true]> (<["f":=VFile []]> (dict (file_obj (B "def>>") 7 1000 5))))
              0).
Proof.
  apply (readupto_end_of_file (B ">>>>") (B "def>>")); reflexivity.
Defined.

(** ** The controller over its whole life *)

Lemma offer_line_flags (line : bytes) (self : Media) :
  transmitting (snd (offer_line line self)) = transmitting self
  ∧ pipe (snd (offer_line line self)) = pipe self.
Proof.
  unfold offer_line, mbind, Eff_bind, lift, modify, mret, Eff_ret, item, int_of_bytes.
  destruct self as [ip port tx out].
  destruct (startswith (B "c=") line), (startswith (B "m=") line); cbn;
    repeat (match goal with
            | |- context [require _ ?o] => destruct o; cbn
            end); done.
Qed.

Lemma offer_lines_flags (lines : list bytes) : ∀ self : Media,
  transmitting (snd (for_each lines offer_line self)) = transmitting self
  ∧ pipe (snd (for_each lines offer_line self)) = pipe self.
Proof.
  induction lines as [|line lines IH]; intros self; [done|].
  cbn [for_each]. unfold mbind, Eff_bind.
  pose proof (offer_line_flags line self) as [Ht Hp].
  destruct (offer_line line self) as [[[]|e] self1]; cbn [snd] in *; [|done].
  destruct (IH self1) as [Ht1 Hp1]. by rewrite Ht1, Hp1.
Qed.

Lemma addresses_snoc (msgs : list pipe_msg) (m : pipe_msg) :
  addresses (msgs ++ [m]) = addresses msgs ++ match m with Some a => [a] | None => [] end.
Proof. unfold addresses. rewrite omap_app. by destruct m. Qed.

Lemma do_call_address_sent_once (c : call) (self : Media) :
  (transmitting self = false → addresses (pipe self) = []) →
  address_sent_once self →
  (transmitting (snd (do_call c self)) = false → addresses (pipe (snd (do_call c self))) = [])
  ∧ address_sent_once (snd (do_call c self)).
Proof.
  intros Hquiet Hinv. destruct c as [sdp| |]; cbn [do_call].
  - unfold setparticipantoffer. destruct (transmitting self) eqn:Htx.
    { cbn [snd]. split; [congruence | done]. }
    destruct (offer_lines_flags (splitlines sdp) self) as [Ht Hp].
    unfold address_sent_once. rewrite Hp, Ht, Hquiet by done. done.
  - unfold transmit. destruct (transmitting self) eqn:Htx.
    { cbn [snd]. split; [congruence | done]. }
    specialize (Hquiet eq_refl).
    destruct self as [[ip|] [port|] tx out];
      unfold address_sent_once; cbn -[addresses] in *;
      rewrite ?addresses_snoc, Hquiet; (split; [discriminate | done]).
  - destruct self as [ip port tx out].
    unfold stop, modify, pipe_send, address_sent_once in *.
    cbn -[addresses] in *. rewrite addresses_snoc, app_nil_r. done.
Qed.

Lemma after_calls_address_sent_once (cs : list call) : ∀ self : Media,
  (transmitting self = false → addresses (pipe self) = []) →
  address_sent_once self →
  address_sent_once (after_calls cs self).
Proof.
  induction cs as [|c cs IH]; intros self Hquiet Hinv; [done|].
  cbn [after_calls fold_left].
  destruct (do_call_address_sent_once c self Hquiet Hinv) as [Hquiet1 Hinv1].
  by apply IH.
Qed.

(** X6: over any series of SDP answers, transmit and stop calls on a fresh
    endpoint, failed ones included, at most one remote address ever goes
    down the pipe, and it is the address the endpoint still holds. *)
Theorem address_sent_at_most_once (cs : list call) :
  let self := after_calls cs Media_init in
  (length (addresses (pipe self)) ≤ 1)%nat
  ∧ ∀ ip port, (ip, port) ∈ addresses (pipe self) →
               remoteip self = Some ip ∧ remoteport self = Some port
               ∧ transmitting self = true.
Proof.
  intros self.
  assert (address_sent_once self) as Hinv by (by apply after_calls_address_sent_once).
  unfold address_sent_once in Hinv.
  destruct (addresses (pipe self)) as [|[ip port] [|? ?]]; [| |done].
  - split; [cbn; lia|]. by intros ? ? ?%elem_of_nil.
  - split; [cbn; lia|]. intros ip' port' Hin.
    apply list_elem_of_singleton in Hin. injection Hin as -> ->. tauto.
Qed.

Lemma startswith_c_not_m (line : bytes) :
  startswith (B "c=") line = true → startswith (B "m=") line = false.
Proof.
  intros [t ->]%startswith_inv. reflexivity.
Qed.

Lemma offer_line_rejected_unchanged (line : bytes) (self : Media) :
  line_accepted line = false →
  ∃ e, offer_line line self = (Raise e, self) ∧ (e = IndexError ∨ e = ValueError).
Proof.
  unfold line_accepted, offer_line. intros H.
  unfold mbind, Eff_bind, lift, modify, mret, Eff_ret, item, int_of_bytes.
  destruct (startswith (B "c=") line) eqn:Hc.
  - rewrite (startswith_c_not_m line Hc) in *. rewrite andb_true_r in H.
    apply bool_decide_eq_false in H.
    destruct (split line !! 2%nat) as [ip|]; cbn; [|eauto].
    destruct H. eauto.
  - rewrite andb_true_l in H. destruct (startswith (B "m=") line); [|discriminate].
    apply bool_decide_eq_false in H. cbn.
    destruct (split line !! 1%nat) as [tok|]; cbn; [|eauto].
    destruct (int_parse is_space tok) eqn:Ep; cbn; [|eauto].
    destruct H. cbn. rewrite Ep. eauto.
Qed.

(** X7: an SDP answer is applied line by line without rollback.  When
    line [bad] is the first that cannot be read, the call raises IndexError
    or ValueError and leaves the endpoint as the lines before it set it:
    neither the failing line nor any later line has an effect. *)
Theorem setparticipantoffer_stops_at_bad_line
    (self : Media) (sdp : bytes) (good rest : list bytes) (bad : bytes) :
  transmitting self = false →
  splitlines sdp = good ++ bad :: rest →
  forallb line_accepted good = true →
  line_accepted bad = false →
  ∃ e, setparticipantoffer sdp self
       = (Raise e, mkMedia (offered_ip good (remoteip self))
                           (offered_port good (remoteport self))
                           false (pipe self))
       ∧ (e = IndexError ∨ e = ValueError).
Proof.
  intros Htx Hlines Hgood Hbad. unfold setparticipantoffer. rewrite Htx, Hlines.
  clear Hlines. revert self Htx.
  induction good as [|line good IH]; intros self Htx.
  - cbn [app for_each offered_ip offered_port fold_left].
    destruct (offer_line_rejected_unchanged bad self Hbad) as (e & He & Hkind).
    exists e. erewrite bind_raise by exact He. split; [|done].
    destruct self; cbn in *; by subst.
  - cbn [forallb] in Hgood. apply andb_true_iff in Hgood as [Hline Hgood].
    cbn [app for_each]. erewrite bind_ok by (by apply offer_line_accepted).
    destruct (IH Hgood (mkMedia (offered_ip [line] (remoteip self))
                          (offered_port [line] (remoteport self))
                          (transmitting self) (pipe self)) Htx) as (e & He & Hkind).
    exists e. rewrite He. split; [|done]. reflexivity.
Qed.

Lemma setparticipantoffer_stops_at_bad_line_witness :
  ∃ e, setparticipantoffer (B "c=IN IP4 10.0.0.1
m=audio
c=IN IP4 10.0.0.2") Media_init
       = (Raise e, mkMedia (Some (B "10.0.0.1")) None false [])
       ∧ (e = IndexError ∨ e = ValueError).
Proof.
  apply (setparticipantoffer_stops_at_bad_line Media_init _
           [B "c=IN IP4 10.0.0.1"] [B "c=IN IP4 10.0.0.2"] (B "m=audio"));
    reflexivity.
Defined.

(** ** The sending loop turn by turn *)

Lemma wait_timeout (t : turn) : wait t = Ok [] → ready t = [].
Proof. unfold wait. destruct (wait_error t); [done|]. by intros [= ->]. Qed.

Lemma wait_ready (t : turn) (objs : list ready_obj) : wait t = Ok objs → objs = ready t.
Proof. unfold wait. destruct (wait_error t); [done|]. by intros [= ->]. Qed.

Lemma stop_among_elem (objs : list ready_obj) : Childpipe ∈ objs → stop_among objs = true.
Proof.
  intros Hin. unfold stop_among. apply existsb_exists.
  exists Childpipe. split; [by apply list_elem_of_In | done].
Qed.

Lemma decoded_app (xs ys : list bytes) : decoded (xs ++ ys) = decoded xs ++ decoded ys.
Proof. unfold decoded. apply omap_app. Qed.

Section Turns.

Variable entropy : nat → Z.
Variable literal_eval : string → res pyval.
Variable text_format : pyval → Z → res pyval.

(** What one turn does to the schedule. *)
Lemma turn_schedule (t : turn) (w w' : worker) (r : res unit) :
  turn_step entropy literal_eval text_format t w r w' →
  sleeps w' = sleeps w ++ [sleep_of t w]
  ∧ (is_Some (rtp w') ↔ is_Some (rtp w))
  ∧ (sent w' = sent w
     ∨ ready t = [] ∧ ∃ buf, sent w' = sent w ++ [(wakeuptime w, buf)]).
Proof.
  intros Hstep.
  destruct Hstep as [e Hw|objs Hw Hne|Hw Hr|s Hw Hr He|s v Hw Hr He Ht
                     |s v e s' Hw Hr He Ht Hn|s v p d s' e Hw Hr He Ht Hn Hb
                     |s v p d s' buf e Hw Hr He Ht Hn Hb Ha
                     |s v p d s' buf x Hw Hr He Ht Hn Hb Ha];
    cbn [drained_by set_wakeuptime sendto set_rtp log_sleep sleeps rtp sent wakeuptime];
    rewrite ?Hr;
    (split; [done|]); (split; [by split; eauto|]);
    first [ by left | right; split; [by apply wait_timeout | by exists buf] ].
Qed.

Lemma sleep_of_ok (t : turn) (w : worker) :
  sleep_ok (bool_decide (is_Some (rtp w))) (sleep_of t w).
Proof.
  unfold sleep_of. destruct (rtp w) as [s|]; [|done].
  destruct (fle (wakeuptime w) (currenttime t)) eqn:Hle; cbn.
  - by split.
  - split; [done|]. by apply fsub_not_below_zero.
Qed.

Lemma loop_schedule (turns : list turn) : ∀ w : worker,
  let w' := snd (loop entropy literal_eval text_format turns w) in
  (is_Some (rtp w') ↔ is_Some (rtp w))
  ∧ (∃ new, sleeps w' = sleeps w ++ new
            ∧ Forall (sleep_ok (bool_decide (is_Some (rtp w)))) new
            ∧ (length new ≤ length turns)%nat)
  ∧ (length (sent w') ≤ length (sent w) + length (timeouts turns))%nat.
Proof.
  induction turns as [|t turns IH]; intros w; cbn [loop]; cbv zeta.
  - cbn [snd mret Eff_ret]. split; [done|]. split; [|lia].
    exists []. by rewrite app_nil_r.
  - destruct (running w).
    2:{ cbn [snd]. split; [done|]. split; [|lia]. exists []. rewrite app_nil_r.
        repeat split; [done|cbn; lia]. }
    destruct (loop_body entropy literal_eval text_format t w) as [r w1] eqn:Hbody.
    destruct (turn_schedule t w w1 r (loop_body_step _ _ _ t w w1 r Hbody))
      as (Hs & Hr & Hsent).
    assert (length (sent w1) ≤ length (sent w) + length (timeouts [t]))%nat as Hcount.
    { destruct Hsent as [->|[Hready [buf Hbuf]]]; [lia|].
      rewrite Hbuf, length_app. unfold timeouts. cbn [filter list_filter].
      rewrite decide_True by done. cbn. lia. }
    assert (length (timeouts (t :: turns))
            = (length (timeouts [t]) + length (timeouts turns))%nat) as Hto.
    { change (t :: turns) with ([t] ++ turns). unfold timeouts.
      by rewrite filter_app, length_app. }
    unfold mbind, Eff_bind. rewrite Hbody. destruct r as [[]|e]; cbn [snd].
    + destruct (IH w1) as (Hr1 & (new & Hnew & Hok & Hlen) & Hcount1).
      split; [by rewrite Hr1|]. split.
      * exists (sleep_of t w :: new). rewrite Hnew, Hs, <- app_assoc.
        split; [done|]. split; [|cbn; lia]. constructor; [apply sleep_of_ok|].
        eapply Forall_impl; [exact Hok|]. intros o.
        by rewrite (bool_decide_ext _ _ Hr).
      * lia.
    + split; [done|]. split; [|lia].
      exists [sleep_of t w]. split; [done|]. split; [|cbn; lia].
      constructor; [apply sleep_of_ok | constructor].
Qed.

End Turns.


(** The NaN is there to be met: a random stream built with [period=nan]
    and [numsamples=160] sends its first packet at once, the deadline is a
    NaN from then on, and so is the time-out of the next wait. *)
Lemma sleep_after_nan_period :
  ∃ s, construct RTPRandomStream
         (RTPRandomStream_init entropy0 (VInt 0) (VInt 40)
            (list_to_map [("period", VFloat S754_nan); ("numsamples", VInt 160)])) 0
       = Ok s
       ∧ sleeps (snd (run_loop entropy0 literal_eval_frag text_format_frag (Some s) f10
                        [mkTurn f10 [] None; mkTurn f10_03 [] None]))
         = [VInt 0; VFloat S754_nan].
Proof.
  destruct (construct RTPRandomStream
              (RTPRandomStream_init entropy0 (VInt 0) (VInt 40)
                 (list_to_map [("period", VFloat S754_nan); ("numsamples", VInt 160)])) 0)
    as [s|e] eqn:Hs; [|by vm_compute in Hs].
  exists s. split; [done|]. vm_compute in Hs. injection Hs as <-.
  vm_compute. reflexivity.
Qed.

(** X9: the loop sends only when a wait ended by time-out, and then at
    most one datagram: the datagrams sent never outnumber the turns in which
    neither the socket nor the pipe was ready. *)
Theorem sends_only_on_timeout
    (entropy : nat → Z) (literal_eval : string → res pyval)
    (text_format : pyval → Z → res pyval)
    (stream : option stream) (t0 : float) (turns : list turn) :
  let w := snd (run_loop entropy literal_eval text_format stream t0 turns) in
  (length (sent w) ≤ length (timeouts turns))%nat.
Proof.
  intros w.
  destruct (loop_schedule entropy literal_eval text_format turns
              (mkWorker stream t0 true [] [] []))
    as (_ & _ & Hcount).
  exact Hcount.
Qed.

Section Stopping.

Variable entropy : nat → Z.
Variable literal_eval : string → res pyval.
Variable text_format : pyval → Z → res pyval.

Lemma loop_stopped (turns : list turn) (w : worker) :
  running w = false → loop entropy literal_eval text_format turns w = (Ok (), w).
Proof. intros Hoff. destruct turns; cbn [loop]; [done | by rewrite Hoff]. Qed.

Lemma turn_stops (t : turn) (w w' : worker) (r : res unit) :
  Childpipe ∈ ready t →
  turn_step entropy literal_eval text_format t w r w' →
  r ≠ Ok () ∨ running w' = false.
Proof.
  intros Hstop Hstep.
  destruct Hstep as [e Hw|objs Hw Hne|Hw Hr|s Hw Hr He|s v Hw Hr He Ht
                     |s v e s' Hw Hr He Ht Hn|s v p d s' e Hw Hr He Ht Hn Hb
                     |s v p d s' buf e Hw Hr He Ht Hn Hb Ha
                     |s v p d s' buf x Hw Hr He Ht Hn Hb Ha];
    try (by left);
    try (apply wait_timeout in Hw; rewrite Hw in Hstop; by apply elem_of_nil in Hstop).
  right. apply wait_ready in Hw as ->. cbn [drained_by running].
  rewrite stop_among_elem by done. apply andb_false_r.
Qed.

Lemma loop_stops (pre : list turn) (t : turn) (post : list turn) : ∀ w : worker,
  Childpipe ∈ ready t →
  loop entropy literal_eval text_format (pre ++ t :: post) w
  = loop entropy literal_eval text_format (pre ++ [t]) w.
Proof.
  induction pre as [|x pre IH]; intros w Hstop; cbn [app loop].
  - destruct (running w); [|done].
    destruct (loop_body entropy literal_eval text_format t w) as [r w1] eqn:Hbody.
    pose proof (turn_stops t w w1 r Hstop (loop_body_step _ _ _ t w w1 r Hbody)) as Hend.
    unfold mbind, Eff_bind. rewrite Hbody. destruct r as [[]|e]; [|done].
    destruct Hend as [?|Hoff]; [done|]. by rewrite loop_stopped.
  - destruct (running w); [|done].
    unfold mbind, Eff_bind.
    destruct (loop_body entropy literal_eval text_format x w) as [[[]|e] w1]; [|done].
    by apply IH.
Qed.

(** The state in which the loop leaves a stream at end of stream alone. *)
Lemma loop_at_eof (s : stream) (v : pyval) (t0 : float) (turns : list turn) :
  dict s !! "eof" = Some v → truth v = true →
  ∀ w : worker,
  running w = true → rtp w = Some s → sent w = [] → wakeuptime w = t0 →
  ∃ w', loop entropy literal_eval text_format turns w = (wait_outcome turns, w')
        ∧ rtp w' = Some s ∧ sent w' = [] ∧ wakeuptime w' = t0
        ∧ received w' = received w ++ decoded (arrivals turns).
Proof.
  intros Heof Htruth.
  induction turns as [|t turns IH]; intros w Hrun Hrtp Hsent Hwake; cbn [loop].
  - exists w. cbn. by rewrite app_nil_r.
  - rewrite Hrun. cbn [wait_outcome arrivals].
    destruct (loop_body entropy literal_eval text_format t w) as [r w1] eqn:Hbody.
    unfold mbind, Eff_bind. rewrite Hbody.
    destruct (loop_body_step _ _ _ t w w1 r Hbody)
      as [e Hw|objs Hw Hne|Hw Hr|s1 Hw Hr He|s1 v1 Hw Hr He Ht
          |s1 v1 e s' Hw Hr He Ht Hn|s1 v1 p d s' e Hw Hr He Ht Hn Hb
          |s1 v1 p d s' buf e Hw Hr He Ht Hn Hb Ha
          |s1 v1 p d s' buf x Hw Hr He Ht Hn Hb Ha];
      rewrite Hw; try congruence.
    + (* wait raises *)
      eexists. split; [reflexivity|]. cbn. by rewrite app_nil_r.
    + (* objects are ready *)
      destruct (stop_among objs) eqn:Hstop.
      * rewrite loop_stopped by (cbn; by rewrite Hstop, andb_false_r).
        eexists. split; [reflexivity|]. cbn. by rewrite app_nil_r.
      * edestruct (IH (drained_by objs (log_sleep (sleep_of t w) w)))
          as (w' & Hloop & H1 & H2 & H3 & H4); try done.
        { cbn. by rewrite Hrun, Hstop. }
        exists w'. split; [done|]. repeat split; try done.
        rewrite H4. cbn. by rewrite decoded_app, app_assoc.
    + (* the stream is at its end *)
      edestruct (IH (log_sleep (sleep_of t w) w))
        as (w' & Hloop & H1 & H2 & H3 & H4); try done.
      by exists w'.
Qed.

End Stopping.

(** X10: a turn in which the pipe from the controller is ready ends the
    loop: whatever turns would follow are never taken, so the run is the
    same as if that turn were the last. *)
Theorem loop_ends_at_stop
    (entropy : nat → Z) (literal_eval : string → res pyval)
    (text_format : pyval → Z → res pyval)
    (stream : option stream) (t0 : float) (pre post : list turn) (t : turn) :
  Childpipe ∈ ready t →
  run_loop entropy literal_eval text_format stream t0 (pre ++ t :: post)
  = run_loop entropy literal_eval text_format stream t0 (pre ++ [t]).
Proof. intros Hstop. unfold run_loop. by apply loop_stops. Qed.

Lemma loop_ends_at_stop_witness :
  run_loop entropy0 literal_eval_frag text_format_frag (Some pacing_stream) f10
    ([mkTurn f10 [] None] ++ mkTurn f10_005 [Childpipe] None :: [mkTurn f11 [] None])
  = run_loop entropy0 literal_eval_frag text_format_frag (Some pacing_stream) f10
      ([mkTurn f10 [] None] ++ [mkTurn f10_005 [Childpipe] None]).
Proof.
  apply (loop_ends_at_stop entropy0 literal_eval_frag text_format_frag
           (Some pacing_stream) f10
           [mkTurn f10 [] None] [mkTurn f11 [] None] (mkTurn f10_005 [Childpipe] None)).
  apply list_elem_of_singleton. reflexivity.
Defined.

(** X11: a stream whose [eof] is set is never asked for a packet.  The loop
    then sends nothing, leaves the deadline where it started and the stream
    object untouched, and raises nothing unless [wait] does; incoming
    datagrams are drained all the same: every datagram that arrives before
    the loop ends, whatever its bytes, is received and decoded. *)
Theorem stream_at_eof_never_sends
    (entropy : nat → Z) (literal_eval : string → res pyval)
    (text_format : pyval → Z → res pyval)
    (s : stream) (v : pyval) (t0 : float) (turns : list turn) :
  dict s !! "eof" = Some v → truth v = true →
  ∃ w, run_loop entropy literal_eval text_format (Some s) t0 turns
       = (wait_outcome turns, w)
       ∧ rtp w = Some s ∧ sent w = [] ∧ wakeuptime w = t0
       ∧ received w = decoded (arrivals turns).
Proof.
  intros Heof Htruth. unfold run_loop.
  by apply (loop_at_eof entropy literal_eval text_format s v t0 turns).
Qed.

Lemma stream_at_eof_never_sends_witness :
  ∃ w, run_loop entropy0 literal_eval_frag text_format_frag (Some ended_stream) f10
         pacing_turns
       = (wait_outcome pacing_turns, w)
       ∧ rtp w = Some ended_stream ∧ sent w = [] ∧ wakeuptime w = f10
       ∧ received w = decoded (arrivals pacing_turns).
Proof.
  apply (stream_at_eof_never_sends entropy0 literal_eval_frag text_format_frag
           ended_stream (VBool true));
    reflexivity.
Defined.

(** ** Building a random stream, and encoding what it yields *)

Lemma numsamples_from_codec_run (s : stream) (x y : pyval) (name : string) :
  dict s !! "codec" = Some (VList [x; VStr name; y]) →
  dict s !! "period" = Some (VFloat f0_02) →
  numsamples_from_codec s
  = match samples_of name with
    | Ok n => (Ok (), mkStream (cls s) (<["numsamples":=VInt n]> (dict s)) (random s))
    | Raise e => (Raise e, s)
    end.
Proof.
  intros Hcodec Hperiod. unfold numsamples_from_codec, samples_of.
  erewrite bind_ok by (by apply getattr_ok).
  erewrite bind_ok by reflexivity.
  destruct (split_slash (VStr name)) as [fields|e];
    [erewrite bind_ok by reflexivity | by erewrite bind_raise by reflexivity].
  cbn [mbind res_bind].
  destruct (item fields 1) as [field|e];
    [erewrite bind_ok by reflexivity | by erewrite bind_raise by reflexivity].
  cbn [mbind res_bind].
  destruct (int_of_str field) as [rate|e];
    [erewrite bind_ok by reflexivity | by erewrite bind_raise by reflexivity].
  cbn [mbind res_bind].
  erewrite bind_ok by (by apply getattr_ok).
  destruct (py_mul_int rate (VFloat f0_02)) as [product|e];
    [erewrite bind_ok by reflexivity | by erewrite bind_raise by reflexivity].
  cbn [mbind res_bind].
  destruct (py_int product) as [n|e];
    [erewrite bind_ok by reflexivity | by erewrite bind_raise by reflexivity].
  reflexivity.
Qed.

Lemma defaultcodecs_entry (pt : Z) (name : string) :
  defaultcodecs !! pt = Some name →
  0 <= pt <= 18 ∧ ∃ n, samples_of name = Ok n ∧ 0 <= n.
Proof.
  unfold defaultcodecs. intros Hin%elem_of_list_to_map_2%list_elem_of_In.
  match type of Hin with
  | In _ ?l =>
      assert (forallb (λ kn : Z * string,
                 (0 <=? kn.1) && (kn.1 <=? 18)
                 && match samples_of kn.2 with Ok n => 0 <=? n | Raise _ => false end) l
              = true) as Hall by (vm_compute; reflexivity)
  end.
  rewrite forallb_forall in Hall. specialize (Hall _ Hin). cbn [fst snd] in Hall.
  apply andb_true_iff in Hall as [[H0 H18]%andb_true_iff Hn].
  split; [lia|]. destruct (samples_of name) as [n|]; [|done]. exists n. split; [done|lia].
Qed.

(** The outcome of the constructor for an integer payload type and no
    keyword argument. *)
Lemma init_random_exact (entropy : nat → Z) (pt : Z) (rtplen : pyval) (r0 : nat) :
  construct RTPRandomStream (RTPRandomStream_init entropy (VInt pt) rtplen ∅) r0
  = match defaultcodecs !! pt with
    | None => Raise (Exception_ "missing codecname")
    | Some name =>
        match samples_of name with
        | Ok n =>
            Ok (mkStream RTPRandomStream
                  (fresh_random_dict entropy pt name rtplen n r0) (S (S (S r0))))
        | Raise _ =>
            Raise (Exception_ "missing 'timestamp' or 'numsamples' or sampling rate in codec name")
        end
    end.
Proof.
  unfold construct, RTPRandomStream_init, RTPStream_init_call, RTPStream_init.
  rewrite !lookup_empty. cbn [default].
  run. unfold codec_for. cbn [int_key as_int mbind res_bind option_bind].
  destruct (defaultcodecs !! pt) as [name|] eqn:Hpt.
  - run.
    match goal with
    | |- context [(try_except numsamples_from_codec ?h ≫= ?k) ?st] =>
        assert (numsamples_from_codec st
                = match samples_of name with
                  | Ok n => (Ok (), mkStream (cls st) (<["numsamples":=VInt n]> (dict st))
                                      (random st))
                  | Raise e => (Raise e, st)
                  end) as Hns
          by (apply (numsamples_from_codec_run st (VInt pt) VNone name); lookup_attr)
    end.
    destruct (samples_of name) as [n|e].
    + erewrite bind_ok by (unfold try_except; by rewrite Hns).
      run. reflexivity.
    + erewrite bind_raise by (unfold try_except; by rewrite Hns). reflexivity.
  - run. erewrite bind_raise by reflexivity. reflexivity.
Qed.

(** X12: [RTPRandomStream(PT, rtplen)] with an integer payload type and no
    keyword argument can be built exactly for the payload types of the
    default codec table, all of which lie in 0..18 and name a sampling
    rate; for any other payload type the constructor raises "missing
    codecname".  A stream so built has [eof] false, period 0.02 s, and a
    sample count derived from the codec name. *)
Theorem random_stream_constructible
    (entropy : nat → Z) (pt : Z) (rtplen : pyval) (r0 : nat) :
  match defaultcodecs !! pt with
  | None =>
      construct RTPRandomStream (RTPRandomStream_init entropy (VInt pt) rtplen ∅) r0
      = Raise (Exception_ "missing codecname")
  | Some name =>
      0 <= pt <= 18
      ∧ ∃ s n, construct RTPRandomStream
                 (RTPRandomStream_init entropy (VInt pt) rtplen ∅) r0 = Ok s
               ∧ samples_of name = Ok n
               ∧ dict s !! "eof" = Some (VBool false)
               ∧ dict s !! "period" = Some (VFloat f0_02)
               ∧ dict s !! "numsamples" = Some (VInt n)
               ∧ dict s !! "codec" = Some (VList [VInt pt; VStr name; VNone])
  end.
Proof.
  rewrite init_random_exact.
  destruct (defaultcodecs !! pt) as [name|] eqn:Hpt; [|done].
  destruct (defaultcodecs_entry pt name Hpt) as (Hr & n & Hn & _).
  split; [done|]. rewrite Hn. eexists _, n. by repeat split.
Qed.

Lemma tobytes_new_ok (data : bytes) (pt sq ts ssrc : Z) :
  0 <= pt < 128 → 0 <= sq < 2 ^ 16 → 0 <= ts < 2 ^ 32 → 0 <= ssrc < 2 ^ 32 →
  ∃ buf, RTP_tobytes (RTP_new data (VInt pt) (VInt sq) (VInt ts) (VInt ssrc)) = Ok buf
         ∧ length buf = (12 + length data)%nat.
Proof.
  intros Hpt Hsq Hts Hssrc. unfold RTP_tobytes, RTP_new.
  cbn [version P X CC M PT seq TS SSRC payload int_operand as_int require mbind res_bind].
  unfold bytearray_set. cbn [replicate length].
  change (Z.lor (Z.lor (Z.lor (Z.shiftl 2 6) (Z.shiftl 0 5)) (Z.shiftl 0 4)) 0) with 128.
  change (Z.lor (Z.shiftl 0 7) pt) with pt.
  destruct (byte_of_Z_ok 128) as (b0 & -> & _); [lia|].
  rewrite (decide_True (P:=(0 < 12)%nat)) by lia.
  cbn [mbind res_bind insert list_insert length].
  destruct (byte_of_Z_ok pt) as (b1 & -> & _); [lia|].
  rewrite (decide_True (P:=(1 < 12)%nat)) by lia.
  cbn [mbind res_bind insert list_insert].
  unfold struct.pack_into_HLL_at2.
  destruct (pack_unsigned_ok 2 sq Hsq) as (fa & -> & Hla & _).
  destruct (pack_unsigned_ok 4 ts Hts) as (fb & -> & Hlb & _).
  destruct (pack_unsigned_ok 4 ssrc Hssrc) as (fc & -> & Hlc & _).
  cbn [mbind res_bind length]. rewrite (decide_True (P:=(12 <= 12)%nat)) by lia.
  cbn [mbind res_bind take drop]. eexists. split; [reflexivity|].
  rewrite !length_app. cbn [length]. lia.
Qed.

Section Encodable.

Variable entropy : nat → Z.
Variable literal_eval : string → res pyval.
Variable text_format : pyval → Z → res pyval.

Lemma nextpacket_encodable (len : Z) (s : stream) :
  encodable len s →
  ∃ p period s', nextpacket entropy literal_eval text_format s = (Ok (p, period), s')
                 ∧ (∃ buf, RTP_tobytes p = Ok buf
                           ∧ length buf = (12 + Z.to_nat len)%nat)
                 ∧ encodable len s'.
Proof.
  intros [[Hcls Hlen Heof _ _ [c Hc] _ _ [per Hper] H1 H2 H3]
          (pt & Hpt & Hptr) (a & Ha & Har) (b & Hb & Hbr) (ssrc & Hssrc & Hssrcr)].
  unfold nextpacket. rewrite method_ok by done.
  unfold nextpayload.
  destruct (random_bytes_ok entropy (Z.to_nat len) s) as (bs & Hbs & Hbslen).
  erewrite bind_ok.
  2:{ rewrite method_ok by done. rewrite Hcls. unfold RTPRandomStream_nextpayload.
      run. exact Hbs. }
  run.
  erewrite bind_ok.
  2:{ unfold nextparams. rewrite method_ok by done. cbn [cls]. rewrite Hcls.
      by apply nextparams_step. }
  run.
  do 3 eexists. split; [reflexivity|]. split.
  { destruct (tobytes_new_ok bs pt a b ssrc) as (buf & Hbuf & Hbuflen); try done.
    exists buf. split; [done|]. by rewrite Hbuflen, Hbslen. }
  pose proof (Z.mod_pos_bound (a + 1) 65535 ltac:(lia)).
  pose proof (Z.mod_pos_bound (b + c) 4294967295 ltac:(lia)).
  split; [split|..]; cbn [cls dict random]; try done;
    repeat first [ rewrite lookup_insert_eq | rewrite lookup_insert_ne by done ];
    eauto; eexists; (split; [reflexivity|lia]).
Qed.

Lemma nextpackets_encodable (len : Z) (n : nat) : ∀ s : stream,
  encodable len s →
  ∃ pkts s', nextpackets entropy literal_eval text_format n s = (Ok pkts, s')
             ∧ length pkts = n ∧ all_encode (Z.to_nat len) pkts.
Proof.
  induction n as [|n IH]; intros s Hinv.
  - exists [], s. repeat split. constructor.
  - destruct (nextpacket_encodable len s Hinv) as (p & per & s1 & Hp & Henc & Hinv1).
    destruct (IH s1 Hinv1) as (pkts & s' & Hrun & Hn & Hall).
    exists ((p, VBool false) :: pkts), s'. cbn [nextpackets].
    erewrite bind_ok by exact Hp. cbn beta iota.
    erewrite bind_ok by (apply getattr_ok, Hinv1).
    erewrite bind_ok by exact Hrun.
    repeat split; [by rewrite <- Hn | by constructor].
Qed.

End Encodable.

(** X13: every packet of a random stream built for an integer payload type
    with no keyword argument can be put on the wire: for any number of
    [nextpacket] calls, [tobytes] succeeds on each packet returned and gives
    12 bytes more than the payload length asked for. *)
Theorem random_stream_packets_encode
    (entropy : nat → Z) (literal_eval : string → res pyval)
    (text_format : pyval → Z → res pyval)
    (pt len : Z) (r0 n : nat) (s : stream) :
  0 <= len →
  construct RTPRandomStream (RTPRandomStream_init entropy (VInt pt) (VInt len) ∅) r0 = Ok s →
  ∃ pkts s', nextpackets entropy literal_eval text_format n s = (Ok pkts, s')
             ∧ length pkts = n ∧ all_encode (Z.to_nat len) pkts.
Proof.
  intros Hlen Hs. apply (nextpackets_encodable entropy literal_eval text_format len n s).
  pose proof (init_random_inv entropy (VInt pt) len r0 s Hs) as Hinv.
  rewrite init_random_exact in Hs.
  destruct (defaultcodecs !! pt) as [name|] eqn:Hpt; [|done].
  destruct (defaultcodecs_entry pt name Hpt) as (Hr & m & Hm & _).
  rewrite Hm in Hs. injection Hs as <-.
  pose proof (Z.mod_pos_bound (entropy r0) 65536 ltac:(lia)).
  pose proof (Z.mod_pos_bound (entropy (S r0)) 4294967296 ltac:(lia)).
  pose proof (Z.mod_pos_bound (entropy (S (S r0))) 4294967296 ltac:(lia)).
  split; [done|..]; unfold fresh_random_dict; cbn [dict];
    repeat first [ rewrite lookup_insert_eq | rewrite lookup_insert_ne by done ];
    eexists; (split; [reflexivity|]);
    change (4294967295 - 0 + 1) with 4294967296; change (65535 - 0 + 1) with 65536;
    change (2 ^ 16) with 65536; change (2 ^ 32) with 4294967296; lia.
Qed.

Lemma random_stream_packets_encode_witness :
  ∃ s pkts s',
    construct RTPRandomStream (RTPRandomStream_init entropy0 (VInt 10) (VInt 40) ∅) 0 = Ok s
    ∧ nextpackets entropy0 literal_eval_frag text_format_frag 20 s = (Ok pkts, s')
    ∧ length pkts = 20%nat ∧ all_encode 40 pkts.
Proof.
  destruct (construct RTPRandomStream (RTPRandomStream_init entropy0 (VInt 10) (VInt 40) ∅) 0)
    as [s|e] eqn:Hs; [|by vm_compute in Hs].
  destruct (random_stream_packets_encode entropy0 literal_eval_frag text_format_frag
              10 40 0 20 s
              ltac:(lia) Hs) as (pkts & s' & H).
  by exists s, pkts, s'.
Defined.

(** ** Offer and answer *)

Lemma is_digit_props (b : byte) :
  is_digit b = true →
  is_space b = false ∧ byte_eqb b "-" = false ∧ byte_eqb b "+" = false
  ∧ byte_eqb b "010" = false ∧ byte_eqb b "013" = false
  ∧ digit_val b = Some (byte_val b - 48).
Proof. destruct b; vm_compute; intros H; first [discriminate H | repeat split]. Qed.

Lemma digit_byte_ok (d : Z) :
  0 <= d < 10 → is_digit (digit_byte d) = true ∧ byte_val (digit_byte d) = 48 + d.
Proof.
  intros Hd.
  assert (d = 0 ∨ d = 1 ∨ d = 2 ∨ d = 3 ∨ d = 4 ∨ d = 5 ∨ d = 6 ∨ d = 7 ∨ d = 8 ∨ d = 9)
    as H by lia.
  repeat destruct H as [->|H]; try subst d; by vm_compute.
Qed.

Lemma digit_byte_mod (z : Z) :
  is_digit (digit_byte (z mod 10)) = true
  ∧ digit_val (digit_byte (z mod 10)) = Some (z mod 10).
Proof.
  pose proof (Z.mod_pos_bound z 10 ltac:(lia)) as Hd.
  destruct (digit_byte_ok _ Hd) as [Hdig Hval]. split; [done|].
  destruct (is_digit_props _ Hdig) as (_ & _ & _ & _ & _ & ->). f_equal. lia.
Qed.

Lemma digits_of_shape (f : nat) : ∀ z acc,
  f ≠ O → ∃ ds, digits_of f z acc = ds ++ acc ∧ ds ≠ [] ∧ forallb is_digit ds = true.
Proof.
  induction f as [|f IH]; intros z acc Hf; [done|]. cbn [digits_of].
  destruct (digit_byte_mod z) as [Hd _].
  destruct (z <? 10).
  - exists [digit_byte (z mod 10)]. cbn. by rewrite Hd.
  - destruct f as [|f'].
    + exists [digit_byte (z mod 10)]. cbn. by rewrite Hd.
    + destruct (IH (z / 10) (digit_byte (z mod 10) :: acc) ltac:(done))
        as (ds & -> & Hne & Hall).
      exists (ds ++ [digit_byte (z mod 10)]). rewrite <- app_assoc. split; [done|].
      split; [by destruct ds|]. rewrite forallb_app, Hall. cbn. by rewrite Hd.
Qed.

Lemma digits_of_read (f : nat) : ∀ z acc,
  f ≠ O → 0 <= z < 10 ^ Z.of_nat f →
  ∃ k : nat, ∀ a p,
    digits_from a p (digits_of f z acc) = digits_from (a * 10 ^ Z.of_nat k + z) true acc.
Proof.
  induction f as [|f IH]; intros z acc Hf Hz; [done|].
  cbn [digits_of]. destruct (digit_byte_mod z) as [_ Hv].
  destruct (Z.ltb_spec z 10) as [Hlt|Hge].
  - exists 1%nat. intros a p. cbn [digits_from]. rewrite Hv.
    rewrite Z.mod_small by lia. f_equal.
  - assert (0 <= z / 10 < 10 ^ Z.of_nat f) as Hq.
    { rewrite Nat2Z.inj_succ, Z.pow_succ_r in Hz by lia.
      split; [apply Z.div_pos; lia|]. apply Z.div_lt_upper_bound; lia. }
    assert (f ≠ O) as Hf'.
    { intros ->. change (10 ^ Z.of_nat 1) with 10 in Hz. lia. }
    destruct (IH (z / 10) (digit_byte (z mod 10) :: acc) Hf' Hq) as [k Hk].
    exists (S k). intros a p. rewrite Hk. cbn [digits_from]. rewrite Hv. f_equal.
    rewrite Nat2Z.inj_succ, Z.pow_succ_r by lia.
    pose proof (Z.div_mod z 10 ltac:(lia)). lia.
Qed.

Lemma log2_fuel (z : Z) : 0 <= z → z < 10 ^ Z.of_nat (S (Z.to_nat (Z.log2 z))).
Proof.
  intros Hz. rewrite Nat2Z.inj_succ, Z2Nat.id by apply Z.log2_nonneg.
  destruct (decide (z = 0)) as [->|Hne].
  - change (Z.log2 0) with 0. by vm_compute.
  - pose proof (Z.log2_spec z ltac:(lia)) as [_ Hlt].
    eapply Z.lt_le_trans; [exact Hlt|].
    apply Z.pow_le_mono_l. pose proof (Z.log2_nonneg z). lia.
Qed.

Lemma lstrip_no_space (l : bytes) : no_space l = true → lstrip is_space l = l.
Proof. destruct l as [|b l]; [done|]. cbn. by destruct (is_space b). Qed.

Lemma no_space_rev (l : bytes) : no_space (rev l) = no_space l.
Proof.
  unfold no_space. induction l as [|b l IH]; [done|].
  cbn. rewrite forallb_app, IH. cbn. rewrite andb_true_r. apply andb_comm.
Qed.

Lemma strip_no_space (l : bytes) : no_space l = true → strip_with is_space l = l.
Proof.
  intros H. unfold strip_with. rewrite (lstrip_no_space l H).
  rewrite lstrip_no_space by (by rewrite no_space_rev). apply rev_involutive.
Qed.

Lemma digits_no_space (ds : bytes) : forallb is_digit ds = true → no_space ds = true.
Proof.
  unfold no_space. induction ds as [|b ds IH]; [done|]. cbn.
  intros [Hb Hds]%andb_true_iff. destruct (is_digit_props b Hb) as (-> & _).
  by rewrite IH.
Qed.

Lemma digits_one_line (ds : bytes) : forallb is_digit ds = true → one_line ds = true.
Proof.
  unfold one_line. induction ds as [|b ds IH]; [done|]. cbn.
  intros [Hb Hds]%andb_true_iff.
  destruct (is_digit_props b Hb) as (_ & _ & _ & -> & -> & _). by rewrite IH.
Qed.

Lemma digits_parse (ds : bytes) (z : Z) :
  ds ≠ [] → forallb is_digit ds = true →
  digits_from 0 false ds = Some z →
  int_parse is_space ds = Some z.
Proof.
  intros Hne Hall Hread. unfold int_parse.
  rewrite strip_no_space by (by apply digits_no_space).
  destruct ds as [|b r]; [done|]. cbn in Hall. apply andb_true_iff in Hall as [Hb _].
  destruct (is_digit_props b Hb) as (_ & -> & -> & _). exact Hread.
Qed.

(** [str] of a non-negative integer: its shape and how [int] reads it back. *)
Lemma str_nat_digits (z : Z) :
  0 <= z →
  str_int z ≠ [] ∧ forallb is_digit (str_int z) = true
  ∧ digits_from 0 false (str_int z) = Some z.
Proof.
  intros Hz. unfold str_int. rewrite (proj2 (Z.ltb_ge z 0)) by lia.
  destruct (digits_of_shape (S (Z.to_nat (Z.log2 z))) z [] ltac:(done))
    as (ds & Hds & Hne & Hall).
  rewrite app_nil_r in Hds.
  destruct (digits_of_read (S (Z.to_nat (Z.log2 z))) z []) as [k Hk]; [done| |].
  { split; [done|]. by apply log2_fuel. }
  rewrite Hk, Hds. by cbn.
Qed.

Lemma int_parse_str_int (z : Z) : int_parse is_space (str_int z) = Some z.
Proof.
  destruct (Z.ltb_spec z 0) as [Hneg|Hpos].
  - destruct (str_nat_digits (- z) ltac:(lia)) as (Hne & Hall & Hread).
    unfold str_int in *. rewrite (proj2 (Z.ltb_lt z 0)) by lia.
    rewrite (proj2 (Z.ltb_ge (- z) 0)) in Hne, Hall, Hread by lia.
    unfold int_parse. rewrite strip_no_space.
    + change (byte_eqb "-" "-") with true. cbv iota. rewrite Hread. cbn. f_equal. lia.
    + unfold no_space. cbn [forallb]. apply digits_no_space in Hall.
      unfold no_space in Hall. by rewrite Hall.
  - destruct (str_nat_digits z Hpos) as (Hne & Hall & Hread).
    by apply digits_parse.
Qed.

Lemma str_int_plain (z : Z) :
  str_int z ≠ [] ∧ no_space (str_int z) = true ∧ one_line (str_int z) = true.
Proof.
  destruct (Z.ltb_spec z 0) as [Hneg|Hpos].
  - destruct (str_nat_digits (- z) ltac:(lia)) as (Hne & Hall & _).
    unfold str_int in *. rewrite (proj2 (Z.ltb_lt z 0)) by lia.
    rewrite (proj2 (Z.ltb_ge (- z) 0)) in Hne, Hall by lia.
    split; [done|]. unfold no_space, one_line. cbn [forallb].
    pose proof (digits_no_space _ Hall) as H1. pose proof (digits_one_line _ Hall) as H2.
    unfold no_space, one_line in H1, H2. by rewrite H1, H2.
  - destruct (str_nat_digits z Hpos) as (Hne & Hall & _).
    split; [done|]. split; [by apply digits_no_space | by apply digits_one_line].
Qed.

(** *** Lines and tokens of a text put together from its parts *)

Lemma one_line_app (a b : bytes) : one_line (a ++ b) = one_line a && one_line b.
Proof. apply forallb_app. Qed.

Lemma no_space_one_line (l : bytes) : no_space l = true → one_line l = true.
Proof.
  unfold no_space, one_line. induction l as [|b l IH]; [done|]. cbn.
  intros [Hb Hl]%andb_true_iff. rewrite IH by done. rewrite andb_true_r.
  destruct b; first [reflexivity | discriminate Hb].
Qed.

Lemma splitlines_from_line (l : bytes) : ∀ cur rest,
  one_line l = true →
  splitlines_from cur (l ++ CRLF ++ rest) = (rev cur ++ l) :: splitlines_from [] rest.
Proof.
  induction l as [|b l IH]; intros cur rest Hl.
  - cbn. by rewrite app_nil_r.
  - cbn in Hl. apply andb_true_iff in Hl as [Hb Hl].
    apply negb_true_iff, orb_false_iff in Hb as [Hlf Hcr].
    cbn [app splitlines_from]. rewrite Hlf, Hcr, IH by done.
    cbn [rev]. by rewrite <- app_assoc.
Qed.

Lemma join_cons (sep x : bytes) (xs : list bytes) :
  xs ≠ [] → join sep (x :: xs) = x ++ sep ++ join sep xs.
Proof. by destruct xs. Qed.

Lemma splitlines_join (lines : list bytes) :
  forallb one_line lines = true → splitlines (join CRLF (lines ++ [[]])) = lines.
Proof.
  induction lines as [|l lines IH]; [done|]. cbn [forallb].
  intros [Hl Hall]%andb_true_iff.
  change ((l :: lines) ++ [[]]) with (l :: (lines ++ [[]])).
  rewrite join_cons by (by destruct lines). unfold splitlines in *.
  rewrite splitlines_from_line by done. by rewrite IH.
Qed.

Lemma one_line_join (sep : bytes) (xs : list bytes) :
  one_line sep = true → forallb one_line xs = true → one_line (join sep xs) = true.
Proof.
  intros Hsep. induction xs as [|x xs IH]; [done|]. cbn [forallb].
  intros [Hx Hxs]%andb_true_iff. destruct xs as [|y xs]; [done|].
  rewrite join_cons by done. rewrite !one_line_app, Hx, Hsep. by rewrite IH.
Qed.

Lemma split_from_no_space (a : bytes) : ∀ cur,
  no_space a = true →
  split_from cur a = match rev a ++ cur with [] => [] | c => [rev c] end.
Proof.
  induction a as [|b a IH]; intros cur Ha; [by destruct cur|].
  cbn in Ha. apply andb_true_iff in Ha as [Hb Ha]. apply negb_true_iff in Hb.
  cbn [split_from rev]. rewrite Hb, IH by done. by rewrite <- app_assoc.
Qed.

Lemma split_token (tok : bytes) : tok ≠ [] → no_space tok = true → split tok = [tok].
Proof.
  intros Hne Hns. unfold split. rewrite split_from_no_space by done.
  rewrite app_nil_r. destruct (rev tok) as [|c r] eqn:Hr.
  - apply (f_equal (@rev byte)) in Hr. rewrite rev_involutive in Hr. done.
  - by rewrite <- Hr, rev_involutive.
Qed.

Lemma split_from_app_space (a : bytes) : ∀ cur sp b,
  is_space sp = true →
  split_from cur (a ++ sp :: b) = split_from cur a ++ split b.
Proof.
  induction a as [|x a IH]; intros cur sp b Hsp.
  - cbn [app split_from]. rewrite Hsp. by destruct cur.
  - cbn [app split_from]. destruct (is_space x).
    + destruct cur; by rewrite IH.
    + by rewrite IH.
Qed.

Lemma split_app_space (a b : bytes) (sp : byte) :
  is_space sp = true → split (a ++ sp :: b) = split a ++ split b.
Proof. apply split_from_app_space. Qed.

(** *** The lines of the offer *)

Lemma other_line_accepted (l : bytes) : other_line l = true → line_accepted l = true.
Proof.
  unfold other_line, line_accepted.
  by destruct (startswith (B "c=") l), (startswith (B "m=") l).
Qed.

Lemma offered_other (lines : list bytes) : ∀ ip port,
  forallb other_line lines = true →
  forallb line_accepted lines = true
  ∧ offered_ip lines ip = ip ∧ offered_port lines port = port.
Proof.
  induction lines as [|l lines IH]; intros ip port; [done|]. cbn [forallb].
  intros [Hl Hall]%andb_true_iff. rewrite (other_line_accepted l Hl).
  destruct (IH ip port Hall) as (-> & Hip & Hport). split; [done|].
  unfold offered_ip, offered_port in *. cbn [fold_left].
  unfold other_line in Hl. apply andb_true_iff in Hl as [Hc Hm].
  apply negb_true_iff in Hc, Hm. by rewrite Hc, Hm.
Qed.

Lemma c_line_tokens (ip : bytes) :
  ip ≠ [] → no_space ip = true → split (B "c=IN IP4 " ++ ip) !! 2%nat = Some ip.
Proof.
  intros Hne Hns.
  change (B "c=IN IP4 " ++ ip) with (B "c=IN" ++ " "%byte :: (B "IP4" ++ " "%byte :: ip)).
  rewrite !split_app_space by done. rewrite (split_token ip) by done. done.
Qed.

Lemma m_line_tokens (port rest : bytes) :
  port ≠ [] → no_space port = true →
  split (B "m=audio " ++ port ++ B " RTP/AVP " ++ rest) !! 1%nat = Some port.
Proof.
  intros Hne Hns.
  change (B "m=audio " ++ port ++ B " RTP/AVP " ++ rest)
    with (B "m=audio" ++ " "%byte :: (port ++ " "%byte :: (B "RTP/AVP " ++ rest))).
  rewrite !split_app_space by done. rewrite (split_token port) by done. done.
Qed.

Lemma app_regroup {A} (s a b c : list A) : s ++ a ++ b ++ c = (s ++ (a ++ b)) ++ c.
Proof. by rewrite !app_assoc. Qed.

Section OfferLines.
Variable str_of : pyval → string.

Lemma sdplines_split (sid : Z) (self : MediaLocal) :
  ∃ tail,
    sdplines str_of sid self
    = ([ B "v=0";
         B "o=- " ++ str_int sid ++ B " " ++ str_int sid ++ B " IN IP4 " ++ B (owner self);
         B "s=-";
         B "c=IN IP4 " ++ B (localip self);
         B "t=0 0";
         B "m=audio " ++ str_int (localport self) ++ B " RTP/AVP "
           ++ join (B " ") ((λ c : pyval * pyval * pyval, B (str_of c.1.1)) <$> codecs self);
         B "a=sendrecv" ] ++ tail) ++ [[]]
    ∧ forallb other_line tail = true
    ∧ (forallb (codec_one_line str_of) (codecs self) = true → forallb one_line tail = true).
Proof.
  eexists. split.
  { unfold sdplines. apply app_regroup. }
  split.
  - rewrite forallb_app. apply andb_true_iff; split;
      apply forallb_forall; intros l [c [<- _]]%in_map_iff; reflexivity.
  - intros Hc. rewrite forallb_forall in Hc.
    rewrite forallb_app. apply andb_true_iff; split;
      apply forallb_forall; intros l [c [<- Hin]]%in_map_iff;
      apply list_elem_of_In, list_elem_of_filter in Hin as [_ Hin];
      apply list_elem_of_In, Hc in Hin; unfold codec_one_line in Hin;
      apply andb_true_iff in Hin as [[Ht Hn]%andb_true_iff Hf];
      rewrite !one_line_app; by rewrite ?Ht, ?Hn, ?Hf.
Qed.

End OfferLines.

(** X14: an offer goes through the peer.  When the local IP is one
    non-empty token, and neither the owner nor any codec field holds a line
    break, the text [localoffer] builds, encoded, is accepted by
    [setparticipantoffer] of a Media that is not transmitting, which takes
    exactly the offerer's local IP and local port as its remote address. *)
Theorem offer_read_back (str_of : pyval → string) (sid : Z)
    (self : MediaLocal) (peer : Media) :
  B (localip self) ≠ [] →
  no_space (B (localip self)) = true →
  one_line (B (owner self)) = true →
  forallb (codec_one_line str_of) (codecs self) = true →
  transmitting peer = false →
  setparticipantoffer (B (localoffer str_of sid self)) peer
  = (Ok (), mkMedia (Some (B (localip self))) (Some (localport self)) false (pipe peer)).
Proof.
  intros Hip Hns Howner Hcodecs Htx.
  unfold localoffer, B at 1. rewrite String.list_byte_of_string_of_list_byte.
  destruct (sdplines_split str_of sid self) as (tail & -> & Hother & Hone).
  specialize (Hone Hcodecs).
  destruct (str_int_plain sid) as (_ & _ & Hsid).
  destruct (str_int_plain (localport self)) as (Hpne & Hpns & Hpl).
  assert (one_line (join (B " ") ((λ c : pyval * pyval * pyval, B (str_of c.1.1))
                                   <$> codecs self)) = true) as Hjoin.
  { apply one_line_join; [done|]. apply forallb_forall.
    intros l [c [<- Hin]]%in_map_iff. rewrite forallb_forall in Hcodecs.
    apply Hcodecs in Hin. unfold codec_one_line in Hin.
    by apply andb_true_iff in Hin as [[Ht _]%andb_true_iff _]. }
  unfold setparticipantoffer. rewrite Htx. rewrite splitlines_join.
  2:{ cbn [app forallb]. rewrite !one_line_app, Hsid, Howner, Hpl, Hjoin, Hone.
      rewrite (no_space_one_line _ Hns). reflexivity. }
  match goal with |- for_each ?L _ _ = _ => pose proof (offer_lines L peer) as Hrun end.
  pose proof (c_line_tokens _ Hip Hns) as Hc.
  pose proof (m_line_tokens (str_int (localport self))
                (join (B " ") ((λ c : pyval * pyval * pyval, B (str_of c.1.1))
                                 <$> codecs self)) Hpne Hpns) as Hm.
  destruct (offered_other tail (Some (B (localip self))) (Some (localport self)) Hother)
    as (Hacc & Htip & Htport).
  cbn [app forallb] in Hrun.
  assert (∀ l, l = B "c=IN IP4 " ++ B (localip self) → line_accepted l = true) as Hcl.
  { intros l ->. unfold line_accepted.
    change (startswith (B "c=") (B "c=IN IP4 " ++ B (localip self))) with true.
    change (startswith (B "m=") (B "c=IN IP4 " ++ B (localip self))) with false.
    cbv iota. rewrite Hc. reflexivity. }
  assert (∀ l, l = B "m=audio " ++ str_int (localport self) ++ B " RTP/AVP "
                   ++ join (B " ") ((λ c : pyval * pyval * pyval, B (str_of c.1.1))
                                      <$> codecs self)
               → line_accepted l = true) as Hml.
  { intros l ->. unfold line_accepted.
    match goal with |- context [startswith (B "c=") ?l] =>
      change (startswith (B "c=") l) with false;
      change (startswith (B "m=") l) with true end.
    cbv iota. rewrite Hm. cbn [mbind option_bind]. rewrite int_parse_str_int. reflexivity. }
  rewrite (Hcl _ eq_refl), (Hml _ eq_refl), Hacc in Hrun.
  change (line_accepted (B "v=0")) with true in Hrun.
  change (line_accepted (B "s=-")) with true in Hrun.
  change (line_accepted (B "t=0 0")) with true in Hrun.
  change (line_accepted (B "a=sendrecv")) with true in Hrun.
  match type of Hrun with context [line_accepted ?l] =>
    change (line_accepted l) with true in Hrun end.
  cbn [andb] in Hrun. cbn [app]. rewrite Hrun, Htx. f_equal. f_equal.
  - unfold offered_ip in *. cbn [app fold_left].
    change (startswith (B "c=") (B "v=0")) with false.
    change (startswith (B "c=") (B "s=-")) with false.
    change (startswith (B "c=") (B "t=0 0")) with false.
    change (startswith (B "c=") (B "a=sendrecv")) with false.
    repeat match goal with |- context [startswith (B "c=") (?p ++ ?l)] =>
      first [ change (startswith (B "c=") (p ++ l)) with false
            | change (startswith (B "c=") (p ++ l)) with true ] end.
    cbv iota. rewrite Hc. exact Htip.
  - unfold offered_port in *. cbn [app fold_left].
    change (startswith (B "m=") (B "v=0")) with false.
    change (startswith (B "m=") (B "s=-")) with false.
    change (startswith (B "m=") (B "t=0 0")) with false.
    change (startswith (B "m=") (B "a=sendrecv")) with false.
    repeat match goal with |- context [startswith (B "m=") (?p ++ ?l)] =>
      first [ change (startswith (B "m=") (p ++ l)) with false
            | change (startswith (B "m=") (p ++ l)) with true ] end.
    cbv iota. rewrite Hm. cbn [mbind option_bind]. rewrite int_parse_str_int. exact Htport.
Qed.

Lemma offer_read_back_witness :
  setparticipantoffer
    (B (localoffer str_frag 123 (mkMediaLocal "127.0.0.1" 12345 "0.0.0.0" default_codecs)))
    Media_init
  = (Ok (), mkMedia (Some (B "127.0.0.1")) (Some 12345) false []).
Proof.
  apply (offer_read_back str_frag 123
           (mkMediaLocal "127.0.0.1" 12345 "0.0.0.0" default_codecs) Media_init);
    by vm_compute.
Defined.
